(** * picraft.vector: Vector and vector_range

    A shallow embedding of [picraft/vector.py] and the properties of its
    lazy coordinate range.

    - Components are Python integers (unbounded, hence [Z]).  Python's [//]
      and [%] are floor division and the matching remainder, which is what
      [Z.div] and [Z.modulo] compute for every sign of the operands; a zero
      divisor is modelled as ZeroDivisionError.
    - Code that can raise returns a [pyresult]; [try ... except E] is
      [try_except], which lets every other exception through.
    - The built-in [range] is the record [pyrange] with the length,
      subscript, membership and [index] of the language; the sets that
      [index] intersects are [gset Z].
    - A [vector_range] is the record of its attributes, the window
      [_slice] being [None] or a [range] of raw indices.  [reachable] are
      the ranges a client can build: by the constructor and by slicing.
    - [vector_range.index] follows the Python 3 path of the source; the
      comparison [__lt__] takes the interpreter generation as a parameter,
      since the two compare a tuple with [None] differently. *)

From Stdlib Require Import ZArith Lia Ascii String DecimalString DecimalFacts DecimalPos DecimalZ.
From stdpp Require Import base decidable numbers option list list_numbers gmap sets strings.

Local Open Scope Z_scope.

(** ** Exceptions and results *)

Inductive exn : Set :=
  | ValueError
  | IndexError
  | TypeError
  | AssertionError
  | AttributeError
  | ZeroDivisionError
  | StopIteration.

Global Instance exn_eq_dec : EqDecision exn.
Proof. solve_decision. Defined.

Inductive pyresult (A : Type) : Type :=
  | Ok (a : A)
  | Raise (e : exn).
Global Arguments Ok {A} a.
Global Arguments Raise {A} e.

Global Instance pyresult_ret : MRet pyresult := λ A a, Ok a.
Global Instance pyresult_bind : MBind pyresult := λ A B f m,
  match m with
  | Ok a => f a
  | Raise e => Raise e
  end.

Global Instance pyresult_fmap : FMap pyresult := λ A B f m,
  match m with
  | Ok a => Ok (f a)
  | Raise e => Raise e
  end.

(** [try: m except e => h]: the handler runs only for exception [e]. *)
Definition try_except {A} (m : pyresult A) (e : exn) (h : pyresult A) : pyresult A :=
  match m with
  | Ok a => Ok a
  | Raise e' => if decide (e' = e) then h else Raise e'
  end.

Definition is_ok {A} (m : pyresult A) : bool :=
  match m with Ok _ => true | Raise _ => false end.

(** [assert c] *)
Definition py_assert (c : Prop) `{Decision c} : pyresult unit :=
  if decide c then Ok tt else Raise AssertionError.

(** Python list subscript with a non-negative literal index. *)
Definition list_getitem {A} (l : list A) (i : nat) : pyresult A :=
  match l !! i with
  | Some a => Ok a
  | None => Raise IndexError
  end.

Definition py_mod (a b : Z) : pyresult Z :=
  if decide (b = 0) then Raise ZeroDivisionError else Ok (a `mod` b).

Definition py_floordiv (a b : Z) : pyresult Z :=
  if decide (b = 0) then Raise ZeroDivisionError else Ok (a `div` b).

(** ** The built-in [range] object *)

Record pyrange : Set := PyRange {
  range_start : Z;
  range_stop : Z;
  range_step : Z
}.

Global Instance pyrange_eq_dec : EqDecision pyrange.
Proof. solve_decision. Defined.

(** [range(start, stop, step)]: a zero step is a ValueError. *)
Definition range3 (start stop step : Z) : pyresult pyrange :=
  if decide (step = 0) then Raise ValueError else Ok (PyRange start stop step).

(** [range(start, stop)] and [range(stop)]. *)
Definition range2 (start stop : Z) : pyrange := PyRange start stop 1.
Definition range1 (stop : Z) : pyrange := PyRange 0 stop 1.

(** [len(r)] *)
Definition range_len (r : pyrange) : Z :=
  let '(PyRange lo hi st) := r in
  if decide (0 < st) then
    if decide (lo < hi) then (hi - lo - 1) `div` st + 1 else 0
  else
    if decide (hi < lo) then (lo - hi - 1) `div` (- st) + 1 else 0.

(** [r[i]], negative indices counted from the end. *)
Definition range_getitem (r : pyrange) (i : Z) : pyresult Z :=
  let i := if decide (i < 0) then i + range_len r else i in
  if decide (0 ≤ i < range_len r) then Ok (range_start r + i * range_step r)
  else Raise IndexError.

(** [v in r] for an integer [v]. *)
Definition range_contains (r : pyrange) (v : Z) : bool :=
  let '(PyRange lo hi st) := r in
  if decide (0 < st) then
    bool_decide (lo ≤ v < hi ∧ (v - lo) `mod` st = 0)
  else
    bool_decide (hi < v ≤ lo ∧ (lo - v) `mod` (- st) = 0).

(** [r.index(v)] *)
Definition range_index (r : pyrange) (v : Z) : pyresult Z :=
  if range_contains r v then Ok ((v - range_start r) `div` range_step r)
  else Raise ValueError.

(** [list(r)] *)
Definition range_elements (r : pyrange) : list Z :=
  (λ i, range_start r + i * range_step r) <$> seqZ 0 (range_len r).

(** ** Vector *)

Record Vector : Set := mkVector { x : Z; y : Z; z : Z }.

Global Instance Vector_eq_dec : EqDecision Vector.
Proof. solve_decision. Defined.

(** [getattr(v, axis)] for a one-character attribute name. *)
Definition getattr (v : Vector) (axis : ascii) : pyresult Z :=
  if decide (axis = "x"%char) then Ok (x v)
  else if decide (axis = "y"%char) then Ok (y v)
  else if decide (axis = "z"%char) then Ok (z v)
  else Raise AttributeError.

(** [s.index(c)] on a string. *)
Fixpoint str_index (s : list ascii) (c : ascii) : pyresult nat :=
  match s with
  | [] => Raise ValueError
  | c' :: s' => if decide (c' = c) then Ok 0%nat else S <$> str_index s' c
  end.

(** ** vector_range *)

Record vector_range : Set := VectorRange {
  _start : Vector;
  _stop : Vector;
  _step : Vector;
  _order : string;
  _ranges : list pyrange;
  _indexes : list nat;
  _slice : option pyrange
}.

Global Instance vector_range_eq_dec : EqDecision vector_range.
Proof. solve_decision. Defined.

Definition valid_orders : list string :=
  ["xyz"; "xzy"; "yxz"; "yzx"; "zxy"; "zyx"]%string.

Definition default_step : Vector := mkVector 1 1 1.
Definition default_order : string := "zxy".

(** [product(l)]: [reduce(op.mul, l)], a TypeError on the empty sequence. *)
Definition product (l : list Z) : pyresult Z :=
  match l with
  | [] => Raise TypeError
  | a :: l' => Ok (foldl Z.mul a l')
  end.

(** [vector_range.__len__] *)
Definition vector_range_len (self : vector_range) : pyresult Z :=
  match _slice self with
  | None => product (range_len <$> _ranges self)
  | Some s => Ok (range_len s)
  end.

(** The [range] built for one axis by the comprehension in [__init__]. *)
Definition axis_range (start stop step : Vector) (axis : ascii)
    : pyresult pyrange :=
  a ← getattr start axis;
  b ← getattr stop axis;
  c ← getattr step axis;
  range3 a b c.

(** [vector_range.__init__]; [stop = None] is the one-argument form. *)
Definition vector_range_init (start : Vector) (stop : option Vector)
    (step : Vector) (order : string) (slice : option pyrange)
    : pyresult vector_range :=
  let '(start', stop') :=
    match stop with
    | None => (mkVector 0 0 0, start)
    | Some stop => (start, stop)
    end in
  if decide (order ∉ valid_orders) then Raise ValueError
  else
    ranges ← mapM (axis_range start' stop' step) (list_ascii_of_string order);
    indexes ← mapM (str_index (list_ascii_of_string order))
                 (list_ascii_of_string "xyz");
    let self := VectorRange start' stop' step order ranges indexes None in
    match slice with
    | Some s =>
        if decide (0 < range_len s) then
          n ← vector_range_len self;
          py_assert (range_len s ≤ n)
        else Ok tt
    | None => Ok tt
    end;;
    Ok (VectorRange start' stop' step order ranges indexes slice).

(** [vector_range.__bool__] *)
Definition vector_range_bool (self : vector_range) : pyresult bool :=
  n ← vector_range_len self; Ok (bool_decide (n > 0)).

(** [vector_range.__getitem__] with an integer index. *)
Definition vector_range_getitem (self : vector_range) (index : Z)
    : pyresult Vector :=
  n ← vector_range_len self;
  let index := if decide (index < 0) then index + n else index in
  if decide (¬ (0 ≤ index < n)) then Raise IndexError
  else
    index ← match _slice self with
            | Some s => range_getitem s index
            | None => Ok index
            end;
    r0 ← list_getitem (_ranges self) 0;
    i0 ← py_mod index (range_len r0);
    v0 ← range_getitem r0 i0;
    r1 ← list_getitem (_ranges self) 1;
    q1 ← py_floordiv index (range_len r0);
    i1 ← py_mod q1 (range_len r1);
    v1 ← range_getitem r1 i1;
    r2 ← list_getitem (_ranges self) 2;
    i2 ← py_floordiv index (range_len r0 * range_len r1);
    v2 ← range_getitem r2 i2;
    args ← mapM (list_getitem [v0; v1; v2]) (_indexes self);
    match args with
    | [a; b; c] => Ok (mkVector a b c)
    | _ => Raise TypeError
    end.

(** A [slice] object; [None] stands for an omitted bound. *)
Record pyslice : Set := Slice {
  slice_start : option Z;
  slice_stop : option Z;
  slice_step : option Z
}.

(** [vector_range.__getitem__] with a slice. *)
Definition vector_range_getslice (self : vector_range) (index : pyslice)
    : pyresult vector_range :=
  n ← vector_range_len self;
  let start := slice_start index in
  let stop := slice_stop index in
  let step := match slice_step index with None => 1 | Some s => s end in
  let '(start, stop) :=
    if decide (step < 0) then
      (n `min` match start with
               | None => n - 1
               | Some s => if decide (s < 0) then 0 `max` (s + n) else s
               end,
       n `min` match stop with
               | None => -1
               | Some s => if decide (s < 0) then 0 `max` (s + n) else s
               end)
    else
      (n `min` (0 `max` match start with
                        | None => 0
                        | Some s => if decide (s < 0) then s + n else s
                        end),
       n `min` (0 `max` match stop with
                        | None => n
                        | Some s => if decide (s < 0) then s + n else s
                        end)) in
  w ← range3 start stop step;
  vector_range_init (_start self) (Some (_stop self)) (_step self)
    (_order self) (Some w).

(** [list(self)]: [__iter__] yields [self[i]] for [i] in [range(len(self))]. *)
Definition vector_range_iter (self : vector_range) : pyresult (list Vector) :=
  n ← vector_range_len self;
  mapM (vector_range_getitem self) (seqZ 0 n).

(** [list(reversed(self))] *)
Definition vector_range_reversed (self : vector_range)
    : pyresult (list Vector) :=
  n ← vector_range_len self;
  mapM (vector_range_getitem self) (reverse (seqZ 0 n)).

(** ** Inverse arithmetic helpers *)

(** The argument of [rmod]: a [range] or a plain list. *)
Inductive pyseq : Set :=
  | SeqRange (r : pyrange)
  | SeqList (l : list Z).

Definition seq_len (s : pyseq) : Z :=
  match s with
  | SeqRange r => range_len r
  | SeqList l => Z.of_nat (length l)
  end.

Definition seq_getitem (s : pyseq) (i : Z) : pyresult Z :=
  match s with
  | SeqRange r => range_getitem r i
  | SeqList l =>
      let i := if decide (i < 0) then i + Z.of_nat (length l) else i in
      if decide (0 ≤ i) then list_getitem l (Z.to_nat i) else Raise IndexError
  end.

(** [s.stop]: only a [range] has the attribute. *)
Definition seq_stop (s : pyseq) : pyresult Z :=
  match s with
  | SeqRange r => Ok (range_stop r)
  | SeqList _ => Raise AttributeError
  end.

Definition seq_elements (s : pyseq) : list Z :=
  match s with
  | SeqRange r => range_elements r
  | SeqList l => l
  end.

(** What [rmod] returns: [set()] or a [range]. *)
Inductive pycoll : Type :=
  | CollSet (s : gset Z)
  | CollRange (r : pyrange).

Definition coll_elements (c : pycoll) : list Z :=
  match c with
  | CollSet s => elements s
  | CollRange r => range_elements r
  end.

(** [set(c)] *)
Definition coll_to_set (c : pycoll) : gset Z :=
  match c with
  | CollSet s => s
  | CollRange r => list_to_set (range_elements r)
  end.

(** [rmod(denom, result, num_range)] *)
Definition rmod (denom result : Z) (num_range : pyseq) : pyresult pycoll :=
  if decide (denom ≤ 0) then Raise ValueError
  else if decide (¬ (0 ≤ result < denom)) then Ok (CollSet ∅)
  else if decide (seq_len num_range = 0) then Ok (CollSet ∅)
  else
    hi ← seq_getitem num_range (-1);
    lo ← seq_getitem num_range 0;
    py_assert (lo ≤ hi);;
    lo ← seq_getitem num_range 0;
    lo' ← seq_getitem num_range 0;
    m ← py_mod lo' denom;
    m' ← py_mod (result - m) denom;
    let start := lo + m' in
    stop ← try_except (seq_stop num_range) AttributeError
             (hi ← seq_getitem num_range (-1); Ok (hi + 1));
    CollRange <$> range3 start stop denom.

(** [rdiv(denom, result)] *)
Definition rdiv (denom result : Z) : pyresult pyrange :=
  if decide (denom ≤ 0) then Raise ValueError
  else Ok (range2 (result * denom) (result * denom + denom)).

(** [vector_range.index] (the Python 3 path: [ranges = self._ranges]). *)
Definition vector_range_index (self : vector_range) (value : Vector)
    : pyresult Z :=
  let ranges := _ranges self in
  ijk ← mapM (getattr value) (list_ascii_of_string (_order self));
  match ijk with
  | [i; j; k] =>
      l ← product (range_len <$> _ranges self);
      try_except
        (r0 ← list_getitem ranges 0;
         p0 ← range_index r0 i;
         c0 ← rmod (range_len r0) p0 (SeqRange (range1 l));
         let i_indexes := coll_to_set c0 in
         r1 ← list_getitem ranges 1;
         p1 ← range_index r1 j;
         q ← py_floordiv l (range_len r0);
         c1 ← rmod (range_len r1) p1 (SeqRange (range1 q));
         bs ← mapM (rdiv (range_len r0)) (coll_elements c1);
         let j_indexes : gset Z := list_to_set (bs ≫= range_elements) in
         r2 ← list_getitem ranges 2;
         p2 ← range_index r2 k;
         c2 ← rdiv (range_len r0 * range_len r1) p2;
         let k_indexes : gset Z := list_to_set (range_elements c2) in
         let result := i_indexes ∩ j_indexes ∩ k_indexes in
         py_assert (size result = 1%nat);;
         result ← match elements result with
                  | n :: _ => Ok n
                  | [] => Raise StopIteration
                  end;
         match _slice self with
         | Some s => range_index s result
         | None => Ok result
         end)
        ValueError (Raise ValueError)
  | _ => Raise ValueError
  end.

(** [vector_range.__contains__] *)
Definition vector_range_contains (self : vector_range) (value : Vector)
    : pyresult bool :=
  try_except (_ ← vector_range_index self value; Ok true)
    ValueError (Ok false).

(** [vector_range.count] *)
Definition vector_range_count (self : vector_range) (value : Vector)
    : pyresult Z :=
  b ← vector_range_contains self value;
  if b : bool then Ok 1 else Ok 0.

(** ** Ordering: [vector_range.__lt__] *)

(** The interpreter generations the module supports; they differ in how a
    tuple compares with [None]. *)
Inductive py_major : Set := Py2 | Py3.

(** [a < b] on Vectors is the comparison of the tuples [(x, y, z)]. *)
Definition Vector_lt (a b : Vector) : bool :=
  bool_decide (x a < x b ∨
               (x a = x b ∧ (y a < y b ∨ (y a = y b ∧ z a < z b)))).

(** [v1 < v2] where a side may be the [None] that [zip_longest] fills in:
    Python 2 orders [None] before every tuple, Python 3 raises. *)
Definition fill_lt (ver : py_major) (v1 v2 : option Vector) : pyresult bool :=
  match v1, v2 with
  | Some a, Some b => Ok (Vector_lt a b)
  | None, None => Ok false
  | None, Some _ => match ver with Py2 => Ok true | Py3 => Raise TypeError end
  | Some _, None => match ver with Py2 => Ok false | Py3 => Raise TypeError end
  end.

(** [v1 > v2] *)
Definition fill_gt (ver : py_major) (v1 v2 : option Vector) : pyresult bool :=
  fill_lt ver v2 v1.

(** The right operand of a comparison: another range or a list. *)
Inductive pyiterable : Set :=
  | IterRange (r : vector_range)
  | IterList (l : list Vector).

Definition iterable_len (s : pyiterable) : pyresult Z :=
  match s with
  | IterRange r => vector_range_len r
  | IterList l => Ok (Z.of_nat (length l))
  end.

(** The [i]-th value drawn from [iter(s)]; [None] once it is exhausted. *)
Definition iter_next (s : pyiterable) (i : Z) : pyresult (option Vector) :=
  n ← iterable_len s;
  if decide (i < n) then
    match s with
    | IterRange r => Some <$> vector_range_getitem r i
    | IterList l => Some <$> list_getitem l (Z.to_nat i)
    end
  else Ok None.

(** The loop of [__lt__] over [zip_longest(self, other)]. *)
Fixpoint lt_loop (ver : py_major) (self other : pyiterable) (idxs : list Z)
    : pyresult bool :=
  match idxs with
  | [] => Ok false
  | i :: idxs' =>
      v1 ← iter_next self i;
      v2 ← iter_next other i;
      lt ← fill_lt ver v1 v2;
      if lt : bool then Ok true
      else
        gt ← fill_gt ver v1 v2;
        if gt : bool then Ok false else lt_loop ver self other idxs'
  end.

(** [vector_range.__lt__]: [zip_longest] runs until both sides are
    exhausted, that is for [max(len(self), len(other))] rounds. *)
Definition vector_range_lt (ver : py_major) (self : vector_range)
    (other : pyiterable) : pyresult bool :=
  n ← vector_range_len self;
  m ← iterable_len other;
  lt_loop ver (IterRange self) other (seqZ 0 (n `max` m)).

(** ** Vector arithmetic and operator dispatch *)

(** Operands of the arithmetic operators: an integer scalar or a Vector. *)
Inductive pyval : Set :=
  | PyInt (n : Z)
  | PyVec (v : Vector).

(** [other.x], [other.y], [other.z]: an AttributeError on a scalar. *)
Definition attr_x (o : pyval) : pyresult Z :=
  match o with PyVec v => Ok (x v) | PyInt _ => Raise AttributeError end.
Definition attr_y (o : pyval) : pyresult Z :=
  match o with PyVec v => Ok (y v) | PyInt _ => Raise AttributeError end.
Definition attr_z (o : pyval) : pyresult Z :=
  match o with PyVec v => Ok (z v) | PyInt _ => Raise AttributeError end.

(** The shape shared by the binary operator methods of [Vector]:
    component-wise with a Vector, broadcast on AttributeError. *)
Definition Vector_binop (op : Z → Z → Z) (self : Vector) (other : pyval)
    : pyresult Vector :=
  try_except
    (ox ← attr_x other; oy ← attr_y other; oz ← attr_z other;
     Ok (mkVector (op (x self) ox) (op (y self) oy) (op (z self) oz)))
    AttributeError
    (match other with
     | PyInt s => Ok (mkVector (op (x self) s) (op (y self) s) (op (z self) s))
     | PyVec _ => Raise TypeError
     end).

Definition Vector_add := Vector_binop Z.add.
Definition Vector_radd := Vector_add.
Definition Vector_sub := Vector_binop Z.sub.
Definition Vector_mul := Vector_binop Z.mul.
Definition Vector_rmul := Vector_mul.

(** The special methods the operators look up. *)
Inductive special : Set :=
  | __add__ | __radd__ | __sub__ | __rsub__ | __mul__ | __rmul__.

(** A method returns a value or [NotImplemented] (here [None]). *)
Definition method : Set := pyval → pyresult (option pyval).

(** [int]'s methods give [NotImplemented] for an operand that is no number. *)
Definition int_method (op : Z → Z → Z) (swap : bool) (a : Z) : method :=
  λ other,
    match other with
    | PyInt b => Ok (Some (PyInt (if swap then op b a else op a b)))
    | PyVec _ => Ok None
    end.

(** Method lookup on the type of the receiver.  [Vector] defines
    [__add__], [__radd__], [__sub__], [__mul__] and [__rmul__]; neither it
    nor [tuple] defines [__rsub__]. *)
Definition lookup_special (m : special) (recv : pyval) : option method :=
  match recv with
  | PyInt a =>
      Some match m with
           | __add__ => int_method Z.add false a
           | __radd__ => int_method Z.add true a
           | __sub__ => int_method Z.sub false a
           | __rsub__ => int_method Z.sub true a
           | __mul__ => int_method Z.mul false a
           | __rmul__ => int_method Z.mul true a
           end
  | PyVec v =>
      let wrap (f : Vector → pyval → pyresult Vector) : option method :=
        Some (λ other, r ← f v other; Ok (Some (PyVec r))) in
      match m with
      | __add__ => wrap Vector_add
      | __radd__ => wrap Vector_radd
      | __sub__ => wrap Vector_sub
      | __rsub__ => None
      | __mul__ => wrap Vector_mul
      | __rmul__ => wrap Vector_rmul
      end
  end.

Definition same_type (a b : pyval) : bool :=
  match a, b with
  | PyInt _, PyInt _ | PyVec _, PyVec _ => true
  | _, _ => false
  end.

(** [a op b]: the left operand's method first, then, for operands of
    different types, the right operand's reflected method; TypeError when
    neither produces a value. *)
Definition py_binop (fwd rev : special) (a b : pyval) : pyresult pyval :=
  r ← match lookup_special fwd a with
      | Some m => m b
      | None => Ok None
      end;
  match r with
  | Some v => Ok v
  | None =>
      if same_type a b then Raise TypeError
      else
        match lookup_special rev b with
        | Some m =>
            r' ← m a;
            match r' with
            | Some v => Ok v
            | None => Raise TypeError
            end
        | None => Raise TypeError
        end
  end.

Definition py_add := py_binop __add__ __radd__.
Definition py_sub := py_binop __sub__ __rsub__.
Definition py_mul := py_binop __mul__ __rmul__.

(** ** Reference semantics: slicing a Python list *)

(** [slice.indices(len)]: the bounds a built-in sequence of length [len]
    uses for a slice. *)
Definition py_slice_indices (sl : pyslice) (len : Z) : pyresult (Z * Z * Z) :=
  let step := match slice_step sl with None => 1 | Some s => s end in
  if decide (step = 0) then Raise ValueError
  else
    let lower := if decide (step < 0) then -1 else 0 in
    let upper := if decide (step < 0) then len - 1 else len in
    let adjust (bound : Z) :=
      if decide (bound < 0) then lower `max` (bound + len)
      else upper `min` bound in
    let start :=
      match slice_start sl with
      | None => if decide (step < 0) then upper else lower
      | Some s => adjust s
      end in
    let stop :=
      match slice_stop sl with
      | None => if decide (step < 0) then lower else upper
      | Some s => adjust s
      end in
    Ok (start, stop, step).

(** [l[sl]] for a list [l]. *)
Definition py_list_slice {A} (l : list A) (sl : pyslice) : pyresult (list A) :=
  '(start, stop, step) ← py_slice_indices sl (Z.of_nat (length l));
  mapM (λ i, list_getitem l (Z.to_nat i))
    (range_elements (PyRange start stop step)).

(** [self[sl]] as a list: slice, then iterate. *)
Definition vector_range_slice_list (self : vector_range) (sl : pyslice)
    : pyresult (list Vector) :=
  r ← vector_range_getslice self sl; vector_range_iter r.

(** ** The invariant of constructed ranges *)

Definition nonzero_step (step : Vector) : Prop :=
  x step ≠ 0 ∧ y step ≠ 0 ∧ z step ≠ 0.

Global Instance nonzero_step_dec step : Decision (nonzero_step step).
Proof. unfold nonzero_step. apply _. Defined.

Record wf (r : vector_range) : Prop := {
  wf_order : _order r ∈ valid_orders;
  wf_ranges :
    mapM (axis_range (_start r) (_stop r) (_step r))
      (list_ascii_of_string (_order r)) = Ok (_ranges r);
  wf_indexes :
    mapM (str_index (list_ascii_of_string (_order r)))
      (list_ascii_of_string "xyz") = Ok (_indexes r);
  wf_slice : ∀ s, _slice r = Some s →
    range_step s ≠ 0 ∧
    ∃ l, product (range_len <$> _ranges r) = Ok l ∧ range_len s ≤ l ∧
         ∀ n, n ∈ range_elements s → 0 ≤ n ≤ l
}.

(** Ranges that client code can obtain: from the constructor (without the
    private [_slice] argument) and by slicing. *)
Inductive reachable : vector_range → Prop :=
  | reachable_init start stop step order r :
      vector_range_init start stop step order None = Ok r → reachable r
  | reachable_getslice r index r' :
      reachable r → vector_range_getslice r index = Ok r' → reachable r'.

(** The per-axis values that [__getitem__] reads at raw index [p]. *)
Definition raw_coords (r0 r1 r2 : pyrange) (p : Z) : list Z :=
  [range_start r0 + p `mod` range_len r0 * range_step r0;
   range_start r1 + (p `div` range_len r0) `mod` range_len r1 * range_step r1;
   range_start r2 + p `div` (range_len r0 * range_len r1) * range_step r2].

(** The raw index behind logical index [idx]. *)
Definition raw_of (r : vector_range) (idx : Z) : pyresult Z :=
  match _slice r with
  | Some s => range_getitem s idx
  | None => Ok idx
  end.

(** A Vector lies on the lattice of [start], [stop], [step]. *)
Definition on_lattice (start stop step v : Vector) : Prop :=
  x v ∈ range_elements (PyRange (x start) (x stop) (x step)) ∧
  y v ∈ range_elements (PyRange (y start) (y stop) (y step)) ∧
  z v ∈ range_elements (PyRange (z start) (z stop) (z step)).

(** [list(other)] for the right operand of a comparison. *)
Definition iterable_list (s : pyiterable) : pyresult (list Vector) :=
  match s with
  | IterRange r => vector_range_iter r
  | IterList l => Ok l
  end.

(** [self.index(self[i])] *)
Definition index_of_getitem (self : vector_range) (i : Z) : pyresult Z :=
  v ← vector_range_getitem self i; vector_range_index self v.

(** The unit-step cube [vector_range(Vector(n, n, n), order=order)]. *)
Definition cube (n : Z) (order : string) : pyresult vector_range :=
  vector_range_init (mkVector n n n) None default_step order None.

(** The right operand of a comparison is a list or a range obtained from
    the constructor and by slicing. *)
Definition reachable_iterable (s : pyiterable) : Prop :=
  match s with
  | IterRange r => reachable r
  | IterList _ => True
  end.

(** * The rest of the module *)

(** ** Vector: unary operators and products *)

(** [Vector.__neg__] *)
Definition Vector_neg (self : Vector) : Vector :=
  mkVector (- x self) (- y self) (- z self).

(** [Vector.__pos__] *)
Definition Vector_pos (self : Vector) : Vector := self.

(** [Vector.__abs__] *)
Definition Vector_abs (self : Vector) : Vector :=
  mkVector (Z.abs (x self)) (Z.abs (y self)) (Z.abs (z self)).

(** [a or b] on integers: [a] when it is truthy, else [b]. *)
Definition py_or (a b : Z) : Z := if decide (a ≠ 0) then a else b.

(** [Vector.__bool__]: [bool(self.x or self.y or self.z)] *)
Definition Vector_bool (self : Vector) : bool :=
  bool_decide (py_or (py_or (x self) (y self)) (z self) ≠ 0).

(** [Vector.dot] *)
Definition Vector_dot (self other : Vector) : Z :=
  x self * x other + y self * y other + z self * z other.

(** [Vector.cross] *)
Definition Vector_cross (self other : Vector) : Vector :=
  mkVector (y self * z other - z self * y other)
           (z self * x other - x self * z other)
           (x self * y other - y self * x other).

(** ** Vector: binary operators that can raise *)

(** [a << b] and [a >> b] on integers: a negative count is a ValueError. *)
Definition py_lshift (a b : Z) : pyresult Z :=
  if decide (b < 0) then Raise ValueError else Ok (Z.shiftl a b).
Definition py_rshift (a b : Z) : pyresult Z :=
  if decide (b < 0) then Raise ValueError else Ok (Z.shiftr a b).

(** The shape of [__floordiv__], [__mod__], [__lshift__] and [__rshift__]:
    the components are computed from left to right, only AttributeError
    is caught, and the handler broadcasts the scalar. *)
Definition Vector_binop_raising (op : Z → Z → pyresult Z) (self : Vector)
    (other : pyval) : pyresult Vector :=
  try_except
    (ox ← attr_x other; a ← op (x self) ox;
     oy ← attr_y other; b ← op (y self) oy;
     oz ← attr_z other; c ← op (z self) oz;
     Ok (mkVector a b c))
    AttributeError
    (match other with
     | PyInt s =>
         a ← op (x self) s; b ← op (y self) s; c ← op (z self) s;
         Ok (mkVector a b c)
     | PyVec _ => Raise TypeError
     end).

Definition Vector_floordiv := Vector_binop_raising py_floordiv.
Definition Vector_mod := Vector_binop_raising py_mod.
Definition Vector_lshift := Vector_binop_raising py_lshift.
Definition Vector_rshift := Vector_binop_raising py_rshift.

(** ** Vector: the string form *)

(** The interpreter's limit on integer texts.  Since Python 3.11 (and the
    security releases of the older lines) the conversions between [int]
    and decimal text raise ValueError beyond
    [sys.get_int_max_str_digits()] digits: 4300 unless the program or the
    environment changes it, 0 for no limit, which is also how an
    interpreter without the limit behaves.  Up to 640 digits the limit is
    never applied.  The setting is a parameter of the conversions below. *)
Definition default_max_str_digits : Z := 4300.
Definition max_str_digits_threshold : Z := 640.

Definition exceeds_max_str_digits (max_str_digits : Z) (digits : nat)
    : Prop :=
  max_str_digits_threshold < Z.of_nat digits ∧
  0 < max_str_digits ∧ max_str_digits < Z.of_nat digits.

Global Instance exceeds_max_str_digits_dec m d :
  Decision (exceeds_max_str_digits m d).
Proof. unfold exceeds_max_str_digits. apply _. Defined.

(** The decimal text of an integer: a minus sign when negative, then the
    digits without leading zeros. *)
Definition int_text (n : Z) : list ascii :=
  list_ascii_of_string (NilZero.string_of_int (Z.to_int n)).

(** The number of decimal digits of [n]. *)
Definition num_digits (n : Z) : nat := length (int_text (Z.abs n)).

(** [str(n)] for an integer. *)
Definition py_str_int (max_str_digits : Z) (n : Z) : pyresult (list ascii) :=
  if decide (exceeds_max_str_digits max_str_digits (num_digits n))
  then Raise ValueError
  else Ok (int_text n).

(** [Vector.__str__]: ['%s,%s,%s' % (self.x, self.y, self.z)] *)
Definition Vector_str (max_str_digits : Z) (self : Vector)
    : pyresult (list ascii) :=
  sx ← py_str_int max_str_digits (x self);
  sy ← py_str_int max_str_digits (y self);
  sz ← py_str_int max_str_digits (z self);
  Ok (sx ++ ["," : ascii] ++ sy ++ ["," : ascii] ++ sz).

(** The text before the first [sep], and the text after it if there is
    one. *)
Fixpoint break_at (sep : ascii) (s : list ascii)
    : list ascii * option (list ascii) :=
  match s with
  | [] => ([], None)
  | c :: s' =>
      if decide (c = sep) then ([], Some s')
      else let '(a, r) := break_at sep s' in (c :: a, r)
  end.

(** [s.split(sep, maxsplit)] for a one-character separator. *)
Fixpoint str_split (sep : ascii) (maxsplit : nat) (s : list ascii)
    : list (list ascii) :=
  match maxsplit with
  | O => [s]
  | S m =>
      match break_at sep s with
      | (a, None) => [a]
      | (a, Some r) => a :: str_split sep m r
      end
  end.

(** The ASCII whitespace that [int] skips around a number. *)
Definition is_space (c : ascii) : bool :=
  bool_decide (c ∈ [" "; "009"; "010"; "011"; "012"; "013"]%char).

Fixpoint lstrip (s : list ascii) : list ascii :=
  match s with
  | c :: s' => if is_space c then lstrip s' else s
  | [] => []
  end.

Definition py_strip (s : list ascii) : list ascii :=
  reverse (lstrip (reverse (lstrip s))).

(** [int(s)] for ASCII text: optional whitespace around an optional sign
    and decimal digits, where single underscores may separate digits; the
    digits of the text, leading zeros included, are counted against the
    interpreter's limit. *)
Definition py_int (max_str_digits : Z) (s : list ascii) : pyresult Z :=
  let s := py_strip s in
  let '(neg, body) :=
    match s with
    | c :: b =>
        if decide (c = "-"%char) then (true, b)
        else if decide (c = "+"%char) then (false, b)
        else (false, s)
    | [] => (false, s)
    end in
  let groups := str_split "_" (length body) body in
  if forallb (λ g, bool_decide (g ≠ [])) groups then
    match NilEmpty.uint_of_string (string_of_list_ascii (concat groups)) with
    | Some d =>
        if decide (exceeds_max_str_digits max_str_digits
                     (length (concat groups)))
        then Raise ValueError
        else Ok (Z.of_int (if neg : bool then Decimal.Neg d
                           else Decimal.Pos d))
    | None => Raise ValueError
    end
  else Raise ValueError.

(** [Vector.from_string] with the default [type=int]. *)
Definition Vector_from_string (max_str_digits : Z) (s : list ascii)
    : pyresult Vector :=
  match str_split "," 2 s with
  | [sx; sy; sz] =>
      a ← py_int max_str_digits sx;
      b ← py_int max_str_digits sy;
      c ← py_int max_str_digits sz;
      Ok (mkVector a b c)
  | _ => Raise ValueError
  end.

(** ** vector_range: equality *)

(** [a == b] on [range] objects, which compare as sequences. *)
Definition range_eq (a b : pyrange) : bool :=
  if decide (range_len a ≠ range_len b) then false
  else if decide (range_len a = 0) then true
  else if decide (range_start a ≠ range_start b) then false
  else if decide (range_len a = 1) then true
  else bool_decide (range_step a = range_step b).

(** [a == b] on the values that [_slice] takes. *)
Definition slice_eq (a b : option pyrange) : bool :=
  match a, b with
  | None, None => true
  | Some a, Some b => range_eq a b
  | _, _ => false
  end.

(** The loop of [__eq__] over [zip_longest(self, other)]. *)
Fixpoint eq_loop (self other : pyiterable) (idxs : list Z) : pyresult bool :=
  match idxs with
  | [] => Ok true
  | i :: idxs' =>
      v1 ← iter_next self i;
      v2 ← iter_next other i;
      if decide (v1 ≠ v2) then Ok false else eq_loop self other idxs'
  end.

(** [vector_range.__eq__]; a list and a range both have a [len]. *)
Definition vector_range_eq (self : vector_range) (other : pyiterable)
    : pyresult bool :=
  let identical :=
    match other with
    | IterRange o =>
        bool_decide (_start self = _start o) && bool_decide (_stop self = _stop o)
        && bool_decide (_step self = _step o)
        && bool_decide (_order self = _order o)
        && slice_eq (_slice self) (_slice o)
    | IterList _ => false
    end in
  if identical then Ok true
  else
    n ← vector_range_len self;
    m ← iterable_len other;
    if decide (n ≠ m) then Ok false
    else eq_loop (IterRange self) other (seqZ 0 (n `max` m)).

(** [vector_range.__ne__] *)
Definition vector_range_ne (self : vector_range) (other : pyiterable)
    : pyresult bool :=
  negb <$> vector_range_eq self other.

(** ** vector_range: what [index] enumerates *)

(** The integers that the three [set(...)] calls of [vector_range.index]
    iterate over, in the order of the calls, when [index] gets as far as
    building all three: the members of what [rmod] returns for the first
    axis of the order, every [b] of every [rdiv] range for the second, and
    the members of the [rdiv] range for the third.  [__contains__] and
    [count] reach this code through one call of [index]. *)
Definition vector_range_index_sets (self : vector_range) (value : Vector)
    : pyresult (list Z * list Z * list Z) :=
  let ranges := _ranges self in
  ijk ← mapM (getattr value) (list_ascii_of_string (_order self));
  match ijk with
  | [i; j; k] =>
      l ← product (range_len <$> _ranges self);
      r0 ← list_getitem ranges 0;
      p0 ← range_index r0 i;
      c0 ← rmod (range_len r0) p0 (SeqRange (range1 l));
      r1 ← list_getitem ranges 1;
      p1 ← range_index r1 j;
      q ← py_floordiv l (range_len r0);
      c1 ← rmod (range_len r1) p1 (SeqRange (range1 q));
      bs ← mapM (rdiv (range_len r0)) (coll_elements c1);
      r2 ← list_getitem ranges 2;
      p2 ← range_index r2 k;
      c2 ← rdiv (range_len r0 * range_len r1) p2;
      Ok (coll_elements c0, bs ≫= range_elements, range_elements c2)
  | _ => Raise ValueError
  end.

(** The number of integers that one [index(value)], and so one
    [count(value)], puts into its three sets. *)
Definition vector_range_count_work (self : vector_range) (value : Vector)
    : pyresult Z :=
  sets ← vector_range_index_sets self value;
  Ok (Z.of_nat (length (fst (fst sets)) + length (snd (fst sets))
                + length (snd sets))).

(** ** A caller: the box that [Blocks._get_blocks] asks the server for *)

(** The two corners that [_get_blocks] formats into [world.getBlocks]:
    [start] and [stop - step], component by component. *)
Definition get_blocks_corners (vrange : vector_range) : Vector * Vector :=
  (mkVector (x (_start vrange)) (y (_start vrange)) (z (_start vrange)),
   mkVector (x (_stop vrange) - x (_step vrange))
            (y (_stop vrange) - y (_step vrange))
            (z (_stop vrange) - z (_step vrange))).

(** The part of the guard of the [getBlocks] fast path in
    [Blocks.__getitem__] that looks at the range:
    [abs(vrange.step) == Vector(1, 1, 1) and vrange.order == 'zxy']. *)
Definition get_blocks_fast_path (vrange : vector_range) : bool :=
  bool_decide (Vector_abs (_step vrange) = mkVector 1 1 1)
  && bool_decide (_order vrange = "zxy"%string).

(** ** Orders on lists of Vectors, to state what [__lt__] computes *)

(** The lexicographic comparison of two lists by [Vector_lt], stopping at
    the end of the shorter list with [false]. *)
Fixpoint lex_lt (xs ys : list Vector) : bool :=
  match xs, ys with
  | a :: xs', b :: ys' =>
      if Vector_lt a b then true
      else if Vector_lt b a then false
      else lex_lt xs' ys'
  | _, _ => false
  end.

(** A component lies between the same components of two corners. *)
Definition in_box (c1 c2 v : Vector) : Prop :=
  (x c1 `min` x c2 ≤ x v ≤ x c1 `max` x c2) ∧
  (y c1 `min` y c2 ≤ y v ≤ y c1 `max` y c2) ∧
  (z c1 `min` z c2 ≤ z v ≤ z c1 `max` z c2).

(** ** Notions used to state the properties *)

(** A decimal digit. *)
Definition is_digit (c : ascii) : Prop :=
  c ∈ list_ascii_of_string "0123456789".

(** The number of values along the axis that [f] reads: the length of the
    [range] that [__init__] builds for it. *)
Definition axis_len (r : vector_range) (f : Vector → Z) : Z :=
  range_len (PyRange (f (_start r)) (f (_stop r)) (f (_step r))).

(** * Properties *)

(** ** The result monad *)

Lemma bind_Ok {A B} (m : pyresult A) (f : A → pyresult B) b :
  m ≫= f = Ok b ↔ ∃ a, m = Ok a ∧ f a = Ok b.
Proof.
  destruct m as [a|e]; simpl; split.
  - intros H. by exists a.
  - by intros (a' & [= ->] & H).
  - intros [=].
  - by intros (a' & [=] & _).
Qed.

Lemma fmap_Ok {A B} (m : pyresult A) (f : A → B) b :
  f <$> m = Ok b ↔ ∃ a, m = Ok a ∧ b = f a.
Proof.
  destruct m as [a|e]; simpl; split.
  - intros [= <-]. by exists a.
  - by intros (a' & [= ->] & ->).
  - intros [=].
  - by intros (a' & [=] & _).
Qed.

Lemma py_assert_Ok (c : Prop) `{Decision c} u : py_assert c = Ok u ↔ c.
Proof. unfold py_assert. destruct u. by destruct (decide c). Qed.

Lemma mapM_cons_Ok {A B} (f : A → pyresult B) a l k :
  mapM f (a :: l) = Ok k ↔
  ∃ b k', f a = Ok b ∧ mapM f l = Ok k' ∧ k = b :: k'.
Proof.
  simpl. split.
  - intros H. apply bind_Ok in H as (b & Hb & H).
    apply bind_Ok in H as (k' & Hk' & [= <-]). eauto.
  - intros (b & k' & -> & Hk' & ->). simpl. by rewrite Hk'.
Qed.

Lemma mapM_nil_Ok {A B} (f : A → pyresult B) k :
  mapM f [] = Ok k ↔ k = [].
Proof. simpl. split; [by intros [= <-]|by intros ->]. Qed.

Lemma mapM_Ok_length {A B} (f : A → pyresult B) l k :
  mapM f l = Ok k → length k = length l.
Proof.
  revert k. induction l as [|a l IH]; intros k; simpl.
  - by intros [= <-].
  - intros H. apply bind_Ok in H as (b & Hb & H).
    apply bind_Ok in H as (k' & Hk' & [= <-]). simpl. f_equal. by apply IH.
Qed.

Lemma mapM_Ok_lookup {A B} (f : A → pyresult B) l k :
  mapM f l = Ok k ↔ length k = length l ∧
    ∀ i a, l !! i = Some a → ∃ b, k !! i = Some b ∧ f a = Ok b.
Proof.
  revert k. induction l as [|a l IH]; intros k; simpl.
  - split.
    + intros [= <-]. split; [done|]. by intros i a [=].
    + intros [Hlen _]. destruct k; [done|discriminate].
  - split.
    + intros H. apply bind_Ok in H as (b & Hb & H).
      apply bind_Ok in H as (k' & Hk' & [= <-]).
      apply IH in Hk' as [Hlen Hk']. split; [simpl; by f_equal|].
      intros [|i] a'; simpl; [intros [= <-]; eauto|apply Hk'].
    + intros [Hlen Hk]. destruct k as [|b k]; [discriminate|].
      destruct (Hk 0%nat a eq_refl) as (b' & [= <-] & ->). simpl.
      assert (mapM f l = Ok k) as ->; [|done].
      apply IH. split; [by injection Hlen|].
      intros i a' Hi. apply (Hk (S i) a' Hi).
Qed.

(** ** Ranges *)

Section range_facts.
Context (r : pyrange) (Hstep : range_step r ≠ 0).

Lemma range_len_nonneg : 0 ≤ range_len r.
Proof using Hstep.
  destruct r as [lo hi st]; simpl in *.
  destruct (decide (0 < st));
    [destruct (decide (lo < hi))|destruct (decide (hi < lo))];
    try lia.
  - assert (0 ≤ (hi - lo - 1) `div` st); [|lia]. apply Z.div_pos; lia.
  - assert (0 ≤ (lo - hi - 1) `div` (-st)); [|lia]. apply Z.div_pos; lia.
Qed.

(** [lo + i * st] lies before [hi] exactly for the first [len] indices. *)
Lemma range_len_spec i :
  0 ≤ i < range_len r ↔
  0 ≤ i ∧ if decide (0 < range_step r)
          then range_start r + i * range_step r < range_stop r
          else range_stop r < range_start r + i * range_step r.
Proof using Hstep.
  destruct r as [lo hi st]; simpl in *.
  destruct (decide (0 < st));
    [destruct (decide (lo < hi))|destruct (decide (hi < lo))].
  - pose proof (Z.div_mod (hi - lo - 1) st ltac:(lia)).
    pose proof (Z.mod_pos_bound (hi - lo - 1) st ltac:(lia)). nia.
  - nia.
  - pose proof (Z.div_mod (lo - hi - 1) (-st) ltac:(lia)).
    pose proof (Z.mod_pos_bound (lo - hi - 1) (-st) ltac:(lia)). nia.
  - nia.
Qed.

Lemma range_getitem_Ok i v :
  0 ≤ i →
  range_getitem r i = Ok v ↔
  i < range_len r ∧ v = range_start r + i * range_step r.
Proof using Hstep.
  intros Hi. unfold range_getitem.
  destruct (decide (i < 0)) as [|_]; [lia|].
  destruct (decide (0 ≤ i < range_len r)); split.
  - intros [= <-]. lia.
  - by intros [_ ->].
  - intros [=].
  - lia.
Qed.

Lemma range_contains_spec v :
  range_contains r v = true ↔
  ∃ i, 0 ≤ i < range_len r ∧ v = range_start r + i * range_step r.
Proof using Hstep.
  split.
  - intros Hc. exists ((v - range_start r) `div` range_step r).
    rewrite range_len_spec.
    destruct r as [lo hi st]; simpl in *.
    destruct (decide (0 < st)); apply bool_decide_eq_true in Hc as [Hv Hm].
    + apply Z.mod_divide in Hm as [k Hk]; [|lia].
      replace v with (lo + k * st) in * by lia.
      replace (lo + k * st - lo) with (k * st) by lia.
      rewrite Z.div_mul by lia. nia.
    + apply Z.mod_divide in Hm as [k Hk]; [|lia].
      replace v with (lo + k * st) in * by nia.
      replace (lo + k * st - lo) with (k * st) by lia.
      rewrite Z.div_mul by lia. nia.
  - intros (i & Hi & ->). apply range_len_spec in Hi.
    destruct r as [lo hi st]; simpl in *.
    destruct (decide (0 < st)); apply bool_decide_eq_true.
    + split; [nia|]. replace (lo + i * st - lo) with (i * st) by lia.
      by apply Z.mod_mul.
    + split; [nia|]. replace (lo - (lo + i * st)) with (i * - st) by nia.
      apply Z.mod_mul. lia.
Qed.

Lemma range_index_Ok v i :
  range_index r v = Ok i ↔
  0 ≤ i < range_len r ∧ v = range_start r + i * range_step r.
Proof using Hstep.
  unfold range_index. destruct (range_contains r v) eqn:Hc.
  - apply range_contains_spec in Hc as (j & Hj & ->).
    replace (range_start r + j * range_step r - range_start r)
      with (j * range_step r) by lia.
    rewrite Z.div_mul by done. split.
    + by intros [= <-].
    + intros [_ Heq]. f_equal. nia.
  - split; [done|]. intros [Hi ->].
    assert (range_contains r (range_start r + i * range_step r) = true)
      as Hc'; [|congruence].
    apply range_contains_spec. eauto.
Qed.

Lemma range_index_cases v :
  (∃ i, range_index r v = Ok i) ∨ range_index r v = Raise ValueError.
Proof. unfold range_index. destruct (range_contains r v); eauto. Qed.

Lemma elem_of_range_elements v :
  v ∈ range_elements r ↔
  ∃ i, 0 ≤ i < range_len r ∧ v = range_start r + i * range_step r.
Proof.
  unfold range_elements. rewrite list_elem_of_fmap.
  setoid_rewrite elem_of_seqZ. split.
  - intros (i & -> & Hi). exists i. lia.
  - intros (i & Hi & ->). exists i. lia.
Qed.

Lemma range_contains_elements v :
  range_contains r v = true ↔ v ∈ range_elements r.
Proof using Hstep. by rewrite range_contains_spec, elem_of_range_elements. Qed.

Lemma range_getitem_index i v :
  0 ≤ i → range_getitem r i = Ok v → range_index r v = Ok i.
Proof using Hstep.
  intros Hi Hg. apply range_getitem_Ok in Hg as [Hlt ->]; [|done].
  apply range_index_Ok. lia.
Qed.

Lemma range_index_getitem i v :
  range_index r v = Ok i → range_getitem r i = Ok v.
Proof using Hstep.
  intros [Hi ->]%range_index_Ok. apply range_getitem_Ok; lia.
Qed.
End range_facts.

Lemma range_elements_length (r : pyrange) :
  Z.of_nat (length (range_elements r)) = 0 `max` range_len r.
Proof. unfold range_elements. rewrite length_fmap, length_seqZ. lia. Qed.

Lemma NoDup_range_elements (r : pyrange) :
  range_step r ≠ 0 → NoDup (range_elements r).
Proof.
  intros Hstep. unfold range_elements.
  apply NoDup_fmap_2_strong; [|apply NoDup_seqZ].
  intros i j _ _ Heq. nia.
Qed.

(** A unit-step range holds exactly the integers of its half-open interval. *)
Lemma elem_of_range2 (a b v : Z) : v ∈ range_elements (range2 a b) ↔ a ≤ v < b.
Proof.
  rewrite <-range_contains_elements by done. simpl.
  rewrite bool_decide_eq_true, Z.mod_1_r. lia.
Qed.

(** ** [rmod] and [rdiv] *)

Lemma elem_of_coll_to_set (c : pycoll) n :
  n ∈ coll_to_set c ↔ n ∈ coll_elements c.
Proof.
  destruct c as [s|r]; simpl.
  - by rewrite elem_of_elements.
  - by rewrite elem_of_list_to_set.
Qed.

Lemma rmod_invalid_denom denom result num_range :
  denom ≤ 0 → rmod denom result num_range = Raise ValueError.
Proof. intros H. unfold rmod. by rewrite decide_True. Qed.

Lemma rdiv_invalid_denom denom result :
  denom ≤ 0 → rdiv denom result = Raise ValueError.
Proof. intros H. unfold rdiv. by rewrite decide_True. Qed.

(** On a unit-step range [rmod] returns exactly the members with the
    wanted remainder. *)
Lemma rmod_unit_step denom result a b :
  0 < denom →
  ∃ c, rmod denom result (SeqRange (range2 a b)) = Ok c ∧
       ∀ n, n ∈ coll_elements c ↔ a ≤ n < b ∧ n `mod` denom = result.
Proof.
  intros Hd. unfold rmod.
  destruct (decide (denom ≤ 0)) as [|_]; [lia|].
  destruct (decide (¬ 0 ≤ result < denom)) as [Hr|Hr].
  { eexists; split; [done|]. intros n. simpl. rewrite elements_empty.
    split; [by intros ?%elem_of_nil|].
    intros [_ <-]. destruct Hr. by apply Z.mod_pos_bound. }
  apply dec_stable in Hr.
  assert (range_len (range2 a b) = if decide (a < b) then b - a else 0) as Hlen.
  { simpl. destruct (decide (a < b)); [|done]. rewrite Z.div_1_r. lia. }
  cbn [seq_len]. rewrite Hlen.
  destruct (decide (a < b)) as [Hab|Hab]; cycle 1.
  { destruct (decide (0 = 0)); [|done].
    eexists; split; [done|]. intros n. simpl. rewrite elements_empty.
    split; [by intros ?%elem_of_nil|lia]. }
  destruct (decide (b - a = 0)) as [|_]; [lia|].
  cbn [seq_getitem seq_stop]. unfold range_getitem. rewrite Hlen.
  cbn [range_start range_step range_stop range2].
  destruct (decide (-1 < 0)) as [_|]; [|lia].
  destruct (decide (0 ≤ -1 + (b - a) < b - a)) as [_|]; [|lia].
  destruct (decide (0 < 0)) as [|_]; [lia|].
  destruct (decide (0 ≤ 0 < b - a)) as [_|]; [|lia].
  cbn [mbind pyresult_bind]. unfold py_assert.
  destruct (decide (a + 0 * 1 ≤ a + (-1 + (b - a)) * 1)) as [_|]; [|lia].
  unfold py_mod. destruct (decide (denom = 0)) as [|_]; [lia|].
  cbn [mbind pyresult_bind try_except]. unfold range3.
  destruct (decide (denom = 0)) as [|_]; [lia|].
  cbn [fmap pyresult_fmap]. eexists; split; [done|].
  intros n. cbn [coll_elements]. rewrite elem_of_range_elements by (simpl; lia).
  setoid_rewrite range_len_spec; [|simpl; lia].
  cbn [range_start range_step range_stop].
  destruct (decide (0 < denom)) as [_|]; [|lia].
  replace (a + 0 * 1) with a by lia.
  set (off := (result - a `mod` denom) `mod` denom).
  assert (0 ≤ off < denom) as Hoff by (by apply Z.mod_pos_bound).
  assert ((a + off) `mod` denom = result) as Hres.
  { unfold off. rewrite Zplus_mod_idemp_r.
    replace (a + (result - a `mod` denom)) with (result + (a - a `mod` denom)) by lia.
    rewrite (Z.mod_eq a denom) by lia.
    replace (result + (a - (a - denom * (a `div` denom))))
      with (result + (a `div` denom) * denom) by lia.
    rewrite Z.mod_add by lia. by apply Z.mod_small. }
  split.
  - intros (i & [Hi Hlt] & ->). split; [nia|].
    by rewrite Z.mod_add by lia.
  - intros [Hn Hm].
    assert ((n - (a + off)) `mod` denom = 0) as Hz.
    { rewrite Zminus_mod, Hm, Hres, Z.sub_diag. by apply Z.mod_0_l; lia. }
    apply Z.mod_divide in Hz as [k Hk]; [|lia].
    exists k. nia.
Qed.

Lemma rdiv_spec denom result :
  0 < denom →
  ∃ r, rdiv denom result = Ok r ∧
       ∀ n, n ∈ range_elements r ↔ n `div` denom = result.
Proof.
  intros Hd. unfold rdiv. destruct (decide (denom ≤ 0)) as [|_]; [lia|].
  eexists; split; [done|]. intros n. rewrite elem_of_range2.
  pose proof (Z.div_mod n denom ltac:(lia)).
  pose proof (Z.mod_pos_bound n denom ltac:(lia)). split; [nia|].
  intros <-. nia.
Qed.

Lemma mapM_rdiv denom (l : list Z) :
  0 < denom →
  mapM (rdiv denom) l
  = Ok ((λ a, range2 (a * denom) (a * denom + denom)) <$> l).
Proof.
  intros Hd. induction l as [|a l IH]; [done|]. simpl. rewrite IH.
  unfold rdiv. by destruct (decide (denom ≤ 0)) as [|_]; [lia|].
Qed.

Lemma range_len_pos (r : pyrange) :
  range_step r ≠ 0 →
  0 < range_len r ↔
  if decide (0 < range_step r) then range_start r < range_stop r
  else range_stop r < range_start r.
Proof.
  intros Hstep. pose proof (range_len_spec r Hstep 0) as H0.
  destruct (decide (0 < range_step r)); lia.
Qed.

(** What [rmod] computes on a non-empty range whose last element is not
    below its first. *)
Lemma rmod_nonempty (denom result : Z) (r : pyrange) :
  0 < denom → 0 ≤ result < denom → range_step r ≠ 0 → 0 < range_len r →
  rmod denom result (SeqRange r) =
  if decide (0 < range_step r ∨ range_len r = 1) then
    Ok (CollRange
          (PyRange (range_start r
                    + (result - range_start r `mod` denom) `mod` denom)
             (range_stop r) denom))
  else Raise AssertionError.
Proof.
  intros Hd Hres Hstep Hlen. unfold rmod.
  destruct (decide (denom ≤ 0)) as [|_]; [lia|].
  destruct (decide (¬ 0 ≤ result < denom)) as [|_]; [done|].
  cbn [seq_len seq_getitem seq_stop].
  destruct (decide (range_len r = 0)) as [|_]; [lia|].
  unfold range_getitem.
  destruct (decide (-1 < 0)) as [_|]; [|lia].
  destruct (decide (0 ≤ -1 + range_len r < range_len r)) as [_|]; [|lia].
  destruct (decide (0 < 0)) as [|_]; [lia|].
  destruct (decide (0 ≤ 0 < range_len r)) as [_|]; [|lia].
  cbn [mbind pyresult_bind]. unfold py_assert.
  replace (range_start r + 0 * range_step r) with (range_start r) by lia.
  destruct (decide (0 < range_step r ∨ range_len r = 1)) as [Hasc|Hdesc].
  - destruct (decide (range_start r
                      ≤ range_start r + (-1 + range_len r) * range_step r))
      as [_|Hn]; [|destruct Hn; nia].
    unfold py_mod. destruct (decide (denom = 0)) as [|_]; [lia|].
    cbn [mbind pyresult_bind try_except]. unfold range3.
    by destruct (decide (denom = 0)) as [|_]; [lia|].
  - destruct (decide (range_start r
                      ≤ range_start r + (-1 + range_len r) * range_step r))
      as [Hle|_]; [|done].
    destruct Hdesc. nia.
Qed.

(** ** Mixed-radix arithmetic behind [__getitem__] and [index] *)

Section mixed_radix.
Context (l0 l1 l2 : Z) (Hl0 : 0 < l0) (Hl1 : 0 < l1) (Hl2 : 0 < l2).

Lemma raw_index_digits p :
  0 ≤ p < l0 * l1 * l2 →
  0 ≤ p `mod` l0 < l0 ∧ 0 ≤ (p `div` l0) `mod` l1 < l1 ∧
  0 ≤ p `div` (l0 * l1) < l2 ∧
  p = p `mod` l0 + l0 * ((p `div` l0) `mod` l1)
      + l0 * l1 * (p `div` (l0 * l1)).
Proof using Hl0 Hl1 Hl2.
  intros Hp.
  pose proof (Z.div_mod p l0 ltac:(lia)).
  pose proof (Z.mod_pos_bound p l0 ltac:(lia)).
  pose proof (Z.div_mod (p `div` l0) l1 ltac:(lia)).
  pose proof (Z.mod_pos_bound (p `div` l0) l1 ltac:(lia)).
  rewrite <-Z.div_div by lia.
  assert (0 ≤ (p `div` l0) `div` l1 < l2).
  { split; [apply Z.div_pos; [apply Z.div_pos|]; lia|].
    apply Z.div_lt_upper_bound; [lia|].
    apply Z.div_lt_upper_bound; [lia|]. lia. }
  repeat split; try lia.
Qed.

Lemma raw_index_of_digits p0 p1 p2 :
  0 ≤ p0 < l0 → 0 ≤ p1 < l1 → 0 ≤ p2 < l2 →
  let p := p0 + l0 * p1 + l0 * l1 * p2 in
  0 ≤ p < l0 * l1 * l2 ∧ p `mod` l0 = p0 ∧
  (p `div` l0) `mod` l1 = p1 ∧ p `div` (l0 * l1) = p2.
Proof using Hl0 Hl1 Hl2.
  intros H0 H1 H2 p.
  assert (p `div` l0 = p1 + l1 * p2) as Hd0.
  { symmetry. apply (Z.div_unique_pos _ _ _ p0); [done|]. unfold p. lia. }
  assert (p `mod` l0 = p0) as Hm0.
  { symmetry. apply (Z.mod_unique_pos _ _ (p1 + l1 * p2)); [done|].
    unfold p. lia. }
  assert ((p1 + l1 * p2) `div` l1 = p2) as Hd1.
  { symmetry. apply (Z.div_unique_pos _ _ _ p1); [done|]. lia. }
  assert ((p1 + l1 * p2) `mod` l1 = p1) as Hm1.
  { symmetry. apply (Z.mod_unique_pos _ _ p2); [done|]. lia. }
  rewrite <-Z.div_div by lia. rewrite Hd0, Hd1, Hm1.
  assert (l0 * p1 ≤ l0 * (l1 - 1)) by (apply Z.mul_le_mono_nonneg_l; lia).
  assert (l0 * l1 * p2 ≤ l0 * l1 * (l2 - 1))
    by (apply Z.mul_le_mono_nonneg_l; lia).
  repeat split; try done; unfold p; lia.
Qed.

(** The three candidate sets of [index] meet in exactly one raw index. *)
Lemma raw_index_unique p0 p1 p2 n :
  0 ≤ p0 < l0 → 0 ≤ p1 < l1 → 0 ≤ p2 < l2 →
  ((0 ≤ n < l0 * l1 * l2 ∧ n `mod` l0 = p0) ∧
   (∃ a, (0 ≤ a < (l0 * l1 * l2) `div` l0 ∧ a `mod` l1 = p1) ∧
         a * l0 ≤ n < a * l0 + l0)) ∧
   n `div` (l0 * l1) = p2
  ↔ n = p0 + l0 * p1 + l0 * l1 * p2.
Proof using Hl0 Hl1 Hl2.
  intros H0 H1 H2.
  assert ((l0 * l1 * l2) `div` l0 = l1 * l2) as ->.
  { replace (l0 * l1 * l2) with (l1 * l2 * l0) by lia.
    apply Z.div_mul. lia. }
  split.
  - intros [[[Hn Hm0] (a & [Ha Hm1] & Hna)] Hd2].
    assert (n `div` l0 = a) as Hd0.
    { symmetry. apply (Z.div_unique_pos _ _ _ (n - a * l0)); lia. }
    destruct (raw_index_digits n Hn) as (_ & _ & _ & Heq).
    rewrite Hm0, Hd0, Hm1, Hd2 in Heq. done.
  - intros ->.
    destruct (raw_index_of_digits p0 p1 p2 H0 H1 H2) as (Hp & Hm0 & Hm1 & Hd2).
    repeat split; try done; try lia.
    exists (p1 + l1 * p2). 
    assert ((p1 + l1 * p2) `mod` l1 = p1) as Hm1'.
    { symmetry. apply (Z.mod_unique_pos _ _ p2); [done|]. lia. }
    assert (l1 * p2 ≤ l1 * (l2 - 1)) by (apply Z.mul_le_mono_nonneg_l; lia).
    repeat split; try done; lia.
Qed.
End mixed_radix.

(** ** Axis orders *)

Lemma valid_order_cases (o : string) :
  o ∈ valid_orders ↔
  o = "xyz"%string ∨ o = "xzy"%string ∨ o = "yxz"%string ∨
  o = "yzx"%string ∨ o = "zxy"%string ∨ o = "zyx"%string.
Proof. unfold valid_orders. rewrite !elem_of_cons, elem_of_nil. tauto. Qed.

Ltac order_cases H :=
  apply valid_order_cases in H;
  destruct H as [->|[->|[->|[->|[->| ->]]]]].

(** [_indexes] undoes the permutation that [order] applies to the axes. *)
Lemma order_place (o : string) (idxs : list nat) (v0 v1 v2 : Z) :
  o ∈ valid_orders →
  mapM (str_index (list_ascii_of_string o)) (list_ascii_of_string "xyz")
    = Ok idxs →
  ∃ a b c,
    mapM (list_getitem [v0; v1; v2]) idxs = Ok [a; b; c] ∧
    mapM (getattr (mkVector a b c)) (list_ascii_of_string o)
      = Ok [v0; v1; v2].
Proof.
  intros Ho Hidx.
  order_cases Ho; vm_compute in Hidx; injection Hidx as <-;
    do 3 eexists; split; reflexivity.
Qed.

Lemma order_pick (o : string) (idxs : list nat) (v : Vector) :
  o ∈ valid_orders →
  mapM (str_index (list_ascii_of_string o)) (list_ascii_of_string "xyz")
    = Ok idxs →
  ∃ i j k,
    mapM (getattr v) (list_ascii_of_string o) = Ok [i; j; k] ∧
    mapM (list_getitem [i; j; k]) idxs = Ok [x v; y v; z v].
Proof.
  intros Ho Hidx.
  order_cases Ho; vm_compute in Hidx; injection Hidx as <-;
    do 3 eexists; split; reflexivity.
Qed.

Lemma order_coords_inj (o : string) (v v' : Vector) :
  o ∈ valid_orders →
  mapM (getattr v) (list_ascii_of_string o)
    = mapM (getattr v') (list_ascii_of_string o) →
  v = v'.
Proof.
  intros Ho. destruct v, v'.
  order_cases Ho; cbn; intros [= -> -> ->]; reflexivity.
Qed.

Lemma axis_range_step start stop step axis r :
  axis_range start stop step axis = Ok r → range_step r ≠ 0.
Proof.
  unfold axis_range. intros H.
  apply bind_Ok in H as (a & _ & H). apply bind_Ok in H as (b & _ & H).
  apply bind_Ok in H as (c & _ & H). unfold range3 in H.
  destruct (decide (c = 0)); [done|]. by injection H as <-.
Qed.

Lemma order_ranges (o : string) (start stop step : Vector) ranges :
  o ∈ valid_orders →
  mapM (axis_range start stop step) (list_ascii_of_string o) = Ok ranges →
  ∃ r0 r1 r2, ranges = [r0; r1; r2] ∧
    range_step r0 ≠ 0 ∧ range_step r1 ≠ 0 ∧ range_step r2 ≠ 0.
Proof.
  intros Ho H.
  order_cases Ho; cbn [list_ascii_of_string] in H;
    apply mapM_cons_Ok in H as (r0 & k0 & H0%axis_range_step & H & ->);
    apply mapM_cons_Ok in H as (r1 & k1 & H1%axis_range_step & H & ->);
    apply mapM_cons_Ok in H as (r2 & k2 & H2%axis_range_step & H & ->);
    apply mapM_nil_Ok in H as ->; eauto 10.
Qed.

(** ** The invariant of constructed ranges *)

Lemma vector_range_init_Ok start stop step order slice r :
  vector_range_init start stop step order slice = Ok r ↔
  let start' := match stop with None => mkVector 0 0 0 | Some _ => start end in
  let stop' := match stop with None => start | Some stop => stop end in
  order ∈ valid_orders ∧
  ∃ ranges indexes,
    mapM (axis_range start' stop' step) (list_ascii_of_string order)
      = Ok ranges ∧
    mapM (str_index (list_ascii_of_string order)) (list_ascii_of_string "xyz")
      = Ok indexes ∧
    match slice with
    | Some s => 0 < range_len s →
        ∃ n, product (range_len <$> ranges) = Ok n ∧ range_len s ≤ n
    | None => True
    end ∧
    r = VectorRange start' stop' step order ranges indexes slice.
Proof.
  unfold vector_range_init.
  set (start' := match stop with None => mkVector 0 0 0 | Some _ => start end).
  set (stop' := match stop with None => start | Some stop => stop end).
  assert (match stop with
          | Some stop0 => (start, stop0)
          | None => (mkVector 0 0 0, start)
          end = (start', stop')) as -> by (by destruct stop).
  cbv zeta.
  destruct (decide (order ∉ valid_orders)) as [Ho|Ho].
  { split; [done|]. by intros [? _]. }
  apply dec_stable in Ho. split.
  - intros H. split; [done|].
    apply bind_Ok in H as (ranges & Hr & H).
    apply bind_Ok in H as (indexes & Hi & H).
    apply bind_Ok in H as ([] & Hs & [= <-]).
    exists ranges, indexes. repeat split; try done.
    destruct slice as [s|]; [|done]. intros Hpos.
    destruct (decide (0 < range_len s)); [|done].
    apply bind_Ok in Hs as (n & Hn & Ha). apply py_assert_Ok in Ha.
    unfold vector_range_len in Hn. simpl in Hn. eauto.
  - intros (_ & ranges & indexes & -> & -> & Hs & ->). simpl.
    destruct slice as [s|]; [|done].
    destruct (decide (0 < range_len s)) as [Hpos|]; [|done].
    destruct (Hs Hpos) as (n & Hn & Hle).
    unfold vector_range_len. simpl. rewrite Hn. simpl.
    unfold py_assert. by destruct (decide (range_len s ≤ n)).
Qed.

Lemma product3 (l0 l1 l2 : Z) : product [l0; l1; l2] = Ok (l0 * l1 * l2).
Proof. done. Qed.

(** What the invariant gives to the proofs below. *)
Lemma wf_inv (r : vector_range) :
  wf r →
  ∃ r0 r1 r2,
    _ranges r = [r0; r1; r2] ∧
    range_step r0 ≠ 0 ∧ range_step r1 ≠ 0 ∧ range_step r2 ≠ 0 ∧
    product (range_len <$> _ranges r)
      = Ok (range_len r0 * range_len r1 * range_len r2) ∧
    0 ≤ range_len r0 ∧ 0 ≤ range_len r1 ∧ 0 ≤ range_len r2.
Proof.
  intros [Ho Hr Hi Hs].
  destruct (order_ranges _ _ _ _ _ Ho Hr) as (r0 & r1 & r2 & Heq & H0 & H1 & H2).
  exists r0, r1, r2. rewrite Heq. repeat split; try done;
    by apply range_len_nonneg.
Qed.

Lemma wf_len_nonneg (r : vector_range) :
  wf r → ∃ n, vector_range_len r = Ok n ∧ 0 ≤ n.
Proof.
  intros Hwf. destruct (wf_inv r Hwf) as (r0 & r1 & r2 & _ & ? & ? & ? & Hp & ? & ? & ?).
  unfold vector_range_len. destruct (_slice r) as [s|] eqn:Hs.
  - exists (range_len s). split; [done|].
    apply range_len_nonneg. by apply (wf_slice r Hwf).
  - rewrite Hp. eexists; split; [done|]. 
    apply Z.mul_nonneg_nonneg; [apply Z.mul_nonneg_nonneg|]; done.
Qed.

Lemma vector_range_init_wf start stop step order r :
  vector_range_init start stop step order None = Ok r → wf r.
Proof.
  intros H. apply vector_range_init_Ok in H as (Ho & ranges & indexes & Hr & Hi & _ & ->).
  by split.
Qed.

(** The window computed by a slice stays within [[0, len(self)]]. *)
Lemma vector_range_getslice_wf r index r' :
  wf r → vector_range_getslice r index = Ok r' → wf r'.
Proof.
  intros Hwf H. unfold vector_range_getslice in H.
  destruct (wf_len_nonneg r Hwf) as (n & Hn & Hn0).
  destruct (wf_inv r Hwf) as (r0 & r1 & r2 & Hrs & ? & ? & ? & Hp & ? & ? & ?).
  rewrite Hn in H. cbn [mbind pyresult_bind] in H.
  set (step := match slice_step index with Some s => s | None => 1 end) in H.
  assert (∃ l, product (range_len <$> _ranges r) = Ok l ∧ n ≤ l) as (l & Hl & Hnl).
  { unfold vector_range_len in Hn. destruct (_slice r) as [s|] eqn:Hs.
    - injection Hn as <-. destruct (wf_slice r Hwf s Hs) as (_ & l & ? & ? & _).
      eauto.
    - eauto with lia. }
  match type of H with
  | (let '(a, b) := ?e in _) = _ =>
      destruct e as [start stop] eqn:Hbounds
  end.
  apply bind_Ok in H as (w & Hw & H).
  unfold range3 in Hw. destruct (decide (step = 0)) as [|Hstep]; [done|].
  injection Hw as <-.
  apply vector_range_init_Ok in H as (Ho & ranges & indexes & Hr & Hi & Hs & ->).
  assert (ranges = _ranges r) as ->.
  { pose proof (wf_ranges r Hwf) as Hr'. congruence. }
  split; simpl; try done.
  intros s [= <-]. split; [done|]. exists l. split; [done|].
  assert (∀ v, v ∈ range_elements (PyRange start stop step) → 0 ≤ v ≤ n) as Hel.
  { intros v (i & Hi' & ->)%elem_of_range_elements.
    apply range_len_spec in Hi'; [|done]. simpl in *.
    destruct (decide (step < 0)) as [Hneg|Hpos].
    - assert (start ≤ n ∧ -1 ≤ stop) as [? ?].
      { injection Hbounds as <- <-. split; [lia|].
        destruct (slice_stop index) as [s|]; [destruct (decide (s < 0))|];
          lia. }
      destruct (decide (0 < step)); [lia|]. nia.
    - assert (0 ≤ start ∧ stop ≤ n) as [? ?].
      { injection Hbounds as <- <-. lia. }
      destruct (decide (0 < step)); [|lia]. nia. }
  split; [|intros v Hv; specialize (Hel v Hv); lia].
  destruct (decide (0 < range_len (PyRange start stop step))) as [Hpos|Hpos].
  - destruct (Hs Hpos) as (n' & Hn' & Hle). congruence.
  - pose proof (range_len_nonneg (PyRange start stop step) Hstep). lia.
Qed.

Lemma reachable_wf r : reachable r → wf r.
Proof.
  induction 1 as [start stop step order r H|r index r' _ IH H].
  - by eapply vector_range_init_wf.
  - by eapply vector_range_getslice_wf.
Qed.

(** ** [index] in closed form *)

Lemma range_index_Raise (r : pyrange) v e :
  range_index r v = Raise e → e = ValueError.
Proof. unfold range_index. destruct (range_contains r v); congruence. Qed.

Lemma vector_range_index_unfold (r : vector_range) (v : Vector)
    (r0 r1 r2 : pyrange) (i j k : Z) :
  _ranges r = [r0; r1; r2] →
  range_step r0 ≠ 0 → range_step r1 ≠ 0 → range_step r2 ≠ 0 →
  mapM (getattr v) (list_ascii_of_string (_order r)) = Ok [i; j; k] →
  vector_range_index r v =
    p0 ← range_index r0 i;
    p1 ← range_index r1 j;
    p2 ← range_index r2 k;
    let p := p0 + range_len r0 * p1 + range_len r0 * range_len r1 * p2 in
    match _slice r with
    | Some s => range_index s p
    | None => Ok p
    end.
Proof.
  intros Hrs Hs0 Hs1 Hs2 Hijk. unfold vector_range_index.
  rewrite Hijk, Hrs. cbn [mbind pyresult_bind fmap list_fmap].
  rewrite product3. cbn [mbind pyresult_bind list_getitem lookup list_lookup].
  change range1 with (range2 0).
  set (l0 := range_len r0). set (l1 := range_len r1). set (l2 := range_len r2).
  destruct (range_index r0 i) as [p0|e] eqn:Hp0; cycle 1.
  { apply range_index_Raise in Hp0 as ->. done. }
  apply range_index_Ok in Hp0 as [Hp0 _]; [|done]. fold l0 in Hp0.
  cbn [mbind pyresult_bind].
  destruct (rmod_unit_step l0 p0 0 (l0 * l1 * l2) ltac:(lia)) as (c0 & -> & Hc0).
  cbn [mbind pyresult_bind].
  destruct (range_index r1 j) as [p1|e] eqn:Hp1; cycle 1.
  { apply range_index_Raise in Hp1 as ->. done. }
  apply range_index_Ok in Hp1 as [Hp1 _]; [|done]. fold l1 in Hp1.
  cbn [mbind pyresult_bind]. unfold py_floordiv.
  destruct (decide (l0 = 0)) as [|_]; [lia|]. cbn [mbind pyresult_bind].
  destruct (rmod_unit_step l1 p1 0 ((l0 * l1 * l2) `div` l0) ltac:(lia))
    as (c1 & -> & Hc1).
  cbn [mbind pyresult_bind]. rewrite mapM_rdiv by lia.
  cbn [mbind pyresult_bind].
  destruct (range_index r2 k) as [p2|e] eqn:Hp2; cycle 1.
  { apply range_index_Raise in Hp2 as ->. done. }
  apply range_index_Ok in Hp2 as [Hp2 _]; [|done]. fold l2 in Hp2.
  cbn [mbind pyresult_bind].
  destruct (rdiv_spec (l0 * l1) p2 ltac:(apply Z.mul_pos_pos; lia))
    as (c2 & -> & Hc2).
  cbn [mbind pyresult_bind].
  set (p := p0 + l0 * p1 + l0 * l1 * p2).
  match goal with
  | |- context [py_assert (size ?X = 1%nat)] =>
      assert (X = {[ p ]}) as ->
  end.
  { apply set_eq. intros n. subst p.
    rewrite !elem_of_intersection, !elem_of_list_to_set, elem_of_singleton.
    rewrite elem_of_coll_to_set, Hc0, Hc2, list_elem_of_bind.
    rewrite <-(raw_index_unique l0 l1 l2 ltac:(lia) ltac:(lia) ltac:(lia)
                 p0 p1 p2 n Hp0 Hp1 Hp2).
    apply and_iff_compat_r, and_iff_compat_l. split.
    - intros (rng & Hn & (a & -> & Ha)%list_elem_of_fmap).
      apply elem_of_range2 in Hn. apply Hc1 in Ha. eauto.
    - intros (a & Ha & Hn). exists (range2 (a * l0) (a * l0 + l0)).
      rewrite elem_of_range2. split; [done|].
      apply list_elem_of_fmap. exists a. split; [done|]. by apply Hc1. }
  rewrite size_singleton, elements_singleton.
  unfold py_assert. destruct (decide (1%nat = 1%nat)); [|done].
  cbn [mbind pyresult_bind].
  destruct (_slice r) as [s|]; [|done].
  destruct (range_index s p) as [q|e'] eqn:Hq; [done|].
  by apply range_index_Raise in Hq as ->.
Qed.

(** ** [__getitem__] in closed form *)

Lemma pos_of_product (l0 l1 l2 : Z) :
  0 ≤ l0 → 0 ≤ l1 → 0 ≤ l2 → 0 < l0 * l1 * l2 → 0 < l0 ∧ 0 < l1 ∧ 0 < l2.
Proof. intros. nia. Qed.

Section getitem_facts.
Context (r : vector_range) (r0 r1 r2 : pyrange).
Context (Hrs : _ranges r = [r0; r1; r2]).
Context (Hs0 : range_step r0 ≠ 0) (Hs1 : range_step r1 ≠ 0)
        (Hs2 : range_step r2 ≠ 0).
Context (n idx p : Z).
Context (Hn : vector_range_len r = Ok n) (Hidx : 0 ≤ idx < n).
Context (Hp : raw_of r idx = Ok p).

Lemma vector_range_getitem_inside :
  0 ≤ p < range_len r0 * range_len r1 * range_len r2 →
  vector_range_getitem r idx =
    args ← mapM (list_getitem (raw_coords r0 r1 r2 p)) (_indexes r);
    match args with
    | [a; b; c] => Ok (mkVector a b c)
    | _ => Raise TypeError
    end.
Proof using Hrs Hs0 Hs1 Hs2 Hn Hidx Hp.
  intros Hpl. unfold vector_range_getitem. rewrite Hn.
  cbn [mbind pyresult_bind].
  destruct (decide (idx < 0)) as [|_]; [lia|].
  destruct (decide (¬ 0 ≤ idx < n)) as [|_]; [done|].
  fold (raw_of r idx). rewrite Hp, Hrs.
  cbn [mbind pyresult_bind list_getitem lookup list_lookup].
  destruct (pos_of_product (range_len r0) (range_len r1) (range_len r2))
    as (Hl0 & Hl1 & Hl2); [by apply range_len_nonneg..|lia|].
  destruct (raw_index_digits _ _ _ Hl0 Hl1 Hl2 p Hpl) as (Hd0 & Hd1 & Hd2 & _).
  unfold py_mod, py_floordiv.
  destruct (decide (range_len r0 = 0)) as [|_]; [lia|].
  destruct (decide (range_len r1 = 0)) as [|_]; [lia|].
  destruct (decide (range_len r0 * range_len r1 = 0)) as [|_]; [lia|].
  cbn [mbind pyresult_bind].
  rewrite (proj2 (range_getitem_Ok r0 Hs0 _ _ (proj1 Hd0))
             (conj (proj2 Hd0) eq_refl)).
  cbn [mbind pyresult_bind].
  rewrite (proj2 (range_getitem_Ok r1 Hs1 _ _ (proj1 Hd1))
             (conj (proj2 Hd1) eq_refl)).
  cbn [mbind pyresult_bind].
  rewrite (proj2 (range_getitem_Ok r2 Hs2 _ _ (proj1 Hd2))
             (conj (proj2 Hd2) eq_refl)).
  done.
Qed.

(** A window can hold the raw index one past the end; reading it fails. *)
Lemma vector_range_getitem_outside :
  0 < range_len r0 * range_len r1 * range_len r2 ≤ p →
  vector_range_getitem r idx = Raise IndexError.
Proof using Hrs Hs0 Hs1 Hs2 Hn Hidx Hp.
  intros Hpl. unfold vector_range_getitem. rewrite Hn.
  cbn [mbind pyresult_bind].
  destruct (decide (idx < 0)) as [|_]; [lia|].
  destruct (decide (¬ 0 ≤ idx < n)) as [|_]; [done|].
  fold (raw_of r idx). rewrite Hp, Hrs.
  cbn [mbind pyresult_bind list_getitem lookup list_lookup].
  destruct (pos_of_product (range_len r0) (range_len r1) (range_len r2))
    as (Hl0 & Hl1 & Hl2); [by apply range_len_nonneg..|lia|].
  unfold py_mod, py_floordiv.
  destruct (decide (range_len r0 = 0)) as [|_]; [lia|].
  destruct (decide (range_len r1 = 0)) as [|_]; [lia|].
  destruct (decide (range_len r0 * range_len r1 = 0)) as [|_]; [lia|].
  cbn [mbind pyresult_bind].
  pose proof (Z.mod_pos_bound p (range_len r0) Hl0) as Hd0.
  pose proof (Z.mod_pos_bound (p `div` range_len r0) (range_len r1) Hl1) as Hd1.
  rewrite (proj2 (range_getitem_Ok r0 Hs0 _ _ (proj1 Hd0))
             (conj (proj2 Hd0) eq_refl)).
  cbn [mbind pyresult_bind].
  rewrite (proj2 (range_getitem_Ok r1 Hs1 _ _ (proj1 Hd1))
             (conj (proj2 Hd1) eq_refl)).
  cbn [mbind pyresult_bind].
  assert (range_len r2 ≤ p `div` (range_len r0 * range_len r1)) as Hd2.
  { apply Z.div_le_lower_bound; lia. }
  unfold range_getitem.
  destruct (decide (p `div` (range_len r0 * range_len r1) < 0)); [lia|].
  by destruct (decide (0 ≤ p `div` (range_len r0 * range_len r1)
                       < range_len r2)); [lia|].
Qed.
End getitem_facts.

(** ** [index] and [__getitem__] are mutually inverse *)

Lemma wf_raw_of (r : vector_range) (r0 r1 r2 : pyrange) (n idx : Z) :
  wf r → _ranges r = [r0; r1; r2] →
  vector_range_len r = Ok n → 0 ≤ idx < n →
  ∃ p, raw_of r idx = Ok p ∧
       0 ≤ p ≤ range_len r0 * range_len r1 * range_len r2 ∧
       0 < range_len r0 * range_len r1 * range_len r2 ∧
       (_slice r = None → p = idx ∧ n = range_len r0 * range_len r1 * range_len r2).
Proof.
  intros Hwf Hrs Hn Hidx. unfold raw_of, vector_range_len in *.
  rewrite Hrs in Hn. cbn [fmap list_fmap] in Hn. rewrite product3 in Hn.
  destruct (_slice r) as [s|] eqn:Hs.
  - injection Hn as <-.
    destruct (wf_slice r Hwf s Hs) as (Hstep & l & Hl & Hle & Hel).
    rewrite Hrs in Hl. cbn [fmap list_fmap] in Hl. rewrite product3 in Hl.
    injection Hl as <-.
    exists (range_start s + idx * range_step s).
    split; [apply (range_getitem_Ok s Hstep idx); [lia|split; [lia|done]]|].
    split; [|split; [lia|done]].
    apply Hel, elem_of_range_elements. eauto.
  - injection Hn as <-. exists idx. repeat split; lia.
Qed.

Lemma vector_range_getitem_cases (r : vector_range) (r0 r1 r2 : pyrange)
    (n idx : Z) :
  wf r → _ranges r = [r0; r1; r2] →
  vector_range_len r = Ok n → 0 ≤ idx < n →
  vector_range_getitem r idx = Raise IndexError ∨
  ∃ v p, vector_range_getitem r idx = Ok v ∧ raw_of r idx = Ok p ∧
         0 ≤ p < range_len r0 * range_len r1 * range_len r2 ∧
         mapM (getattr v) (list_ascii_of_string (_order r))
           = Ok (raw_coords r0 r1 r2 p).
Proof.
  intros Hwf Hrs Hn Hidx.
  destruct (wf_inv r Hwf) as (? & ? & ? & Hrs' & Hs0 & Hs1 & Hs2 & _).
  rewrite Hrs in Hrs'. injection Hrs' as <- <- <-.
  destruct (wf_raw_of r r0 r1 r2 n idx Hwf Hrs Hn Hidx) as (p & Hp & Hpl & Hl & _).
  destruct (decide (p = range_len r0 * range_len r1 * range_len r2)) as [Heq|Hne].
  - left. eapply vector_range_getitem_outside; eauto. lia.
  - right.
    destruct (order_place (_order r) (_indexes r)
                (range_start r0 + p `mod` range_len r0 * range_step r0)
                (range_start r1 + (p `div` range_len r0) `mod` range_len r1 * range_step r1)
                (range_start r2 + p `div` (range_len r0 * range_len r1) * range_step r2)
                (wf_order r Hwf) (wf_indexes r Hwf))
      as (a & b & c & Hargs & Hcoords).
    exists (mkVector a b c), p.
    rewrite (vector_range_getitem_inside r r0 r1 r2 Hrs Hs0 Hs1 Hs2 n idx p
               Hn Hidx Hp) by lia.
    unfold raw_coords. rewrite Hargs. repeat split; try done; lia.
Qed.

Lemma vector_range_index_cases (r : vector_range) (v : Vector) :
  wf r →
  (∃ idx, vector_range_index r v = Ok idx) ∨
  vector_range_index r v = Raise ValueError.
Proof.
  intros Hwf.
  destruct (wf_inv r Hwf) as (r0 & r1 & r2 & Hrs & Hs0 & Hs1 & Hs2 & _).
  destruct (order_pick (_order r) (_indexes r) v (wf_order r Hwf)
              (wf_indexes r Hwf)) as (i & j & k & Hijk & _).
  rewrite (vector_range_index_unfold r v r0 r1 r2 i j k) by done.
  destruct (range_index r0 i) as [p0|e] eqn:H0; cycle 1.
  { right. by apply range_index_Raise in H0 as ->. }
  destruct (range_index r1 j) as [p1|e] eqn:H1; cycle 1.
  { right. by apply range_index_Raise in H1 as ->. }
  destruct (range_index r2 k) as [p2|e] eqn:H2; cycle 1.
  { right. by apply range_index_Raise in H2 as ->. }
  cbn [mbind pyresult_bind]. cbv zeta.
  destruct (_slice r) as [s|]; [|eauto].
  match goal with |- context [range_index s ?p] =>
    destruct (range_index s p) as [q|e] eqn:Hq end; [eauto|].
  right. by apply range_index_Raise in Hq as ->.
Qed.

(** Looking up an element that [self[idx]] produced gives back [idx]. *)
Lemma vector_range_getitem_index (r : vector_range) (n idx : Z) (v : Vector) :
  wf r → vector_range_len r = Ok n → 0 ≤ idx < n →
  vector_range_getitem r idx = Ok v →
  vector_range_index r v = Ok idx.
Proof.
  intros Hwf Hn Hidx Hget.
  destruct (wf_inv r Hwf) as (r0 & r1 & r2 & Hrs & Hs0 & Hs1 & Hs2 & _ & Hl0 & Hl1 & Hl2).
  destruct (vector_range_getitem_cases r r0 r1 r2 n idx Hwf Hrs Hn Hidx)
    as [Herr|(v' & p & Hget' & Hp & Hpl & Hcoords)]; [congruence|].
  assert (v' = v) as -> by congruence.
  destruct (pos_of_product _ _ _ Hl0 Hl1 Hl2 ltac:(lia)) as (Hp0 & Hp1 & Hp2).
  destruct (raw_index_digits _ _ _ Hp0 Hp1 Hp2 p Hpl) as (Hd0 & Hd1 & Hd2 & Heq).
  rewrite (vector_range_index_unfold r v r0 r1 r2 _ _ _ Hrs Hs0 Hs1 Hs2 Hcoords).
  rewrite (proj2 (range_index_Ok r0 Hs0 _ _) (conj Hd0 eq_refl)).
  cbn [mbind pyresult_bind].
  rewrite (proj2 (range_index_Ok r1 Hs1 _ _) (conj Hd1 eq_refl)).
  cbn [mbind pyresult_bind].
  rewrite (proj2 (range_index_Ok r2 Hs2 _ _) (conj Hd2 eq_refl)).
  cbn [mbind pyresult_bind]. cbv zeta. rewrite <-Heq.
  unfold raw_of in Hp. destruct (_slice r) as [s|] eqn:Hs; [|done].
  apply range_getitem_index; [|lia|done].
  by apply (wf_slice r Hwf s Hs).
Qed.

(** What [index] returns is a position holding the value. *)
Lemma vector_range_index_getitem (r : vector_range) (idx : Z) (v : Vector) :
  wf r → vector_range_index r v = Ok idx →
  ∃ n, vector_range_len r = Ok n ∧ 0 ≤ idx < n ∧
       vector_range_getitem r idx = Ok v.
Proof.
  intros Hwf Hindex.
  destruct (wf_inv r Hwf) as (r0 & r1 & r2 & Hrs & Hs0 & Hs1 & Hs2 & _ & Hl0 & Hl1 & Hl2).
  destruct (order_pick (_order r) (_indexes r) v (wf_order r Hwf)
              (wf_indexes r Hwf)) as (i & j & k & Hijk & Hargs).
  rewrite (vector_range_index_unfold r v r0 r1 r2 i j k) in Hindex by done.
  apply bind_Ok in Hindex as (p0 & [H0 ->]%range_index_Ok & Hindex); [|done].
  apply bind_Ok in Hindex as (p1 & [H1 ->]%range_index_Ok & Hindex); [|done].
  apply bind_Ok in Hindex as (p2 & [H2 ->]%range_index_Ok & Hindex); [|done].
  cbv zeta in Hindex.
  set (p := p0 + range_len r0 * p1 + range_len r0 * range_len r1 * p2) in *.
  destruct (raw_index_of_digits (range_len r0) (range_len r1) (range_len r2)
              ltac:(lia) ltac:(lia) ltac:(lia) p0 p1 p2 H0 H1 H2)
    as (Hpl & Hm0 & Hm1 & Hd2). fold p in Hpl, Hm0, Hm1, Hd2.
  assert (∃ n, vector_range_len r = Ok n ∧ 0 ≤ idx < n ∧ raw_of r idx = Ok p)
    as (n & Hn & Hidx & Hp).
  { unfold vector_range_len, raw_of. destruct (_slice r) as [s|] eqn:Hs.
    - pose proof (wf_slice r Hwf s Hs) as [Hstep _].
      exists (range_len s). split; [done|].
      apply range_index_Ok in Hindex as Hi; [|done]. split; [tauto|].
      by apply range_index_getitem.
    - injection Hindex as <-. rewrite Hrs. cbn [fmap list_fmap].
      rewrite product3. eauto. }
  exists n. split; [done|]. split; [done|].
  rewrite (vector_range_getitem_inside r r0 r1 r2 Hrs Hs0 Hs1 Hs2 n idx p
             Hn Hidx Hp Hpl).
  unfold raw_coords. rewrite Hm0, Hm1, Hd2, Hargs. by destruct v.
Qed.

(** ** Iteration *)

Lemma mapM_Ok_elem_of {A B} (f : A → pyresult B) l k b :
  mapM f l = Ok k → b ∈ k ↔ ∃ a, a ∈ l ∧ f a = Ok b.
Proof.
  revert k. induction l as [|a l IH]; intros k H.
  - apply mapM_nil_Ok in H as ->. split; [by intros ?%elem_of_nil|].
    by intros (a & ?%elem_of_nil & _).
  - apply mapM_cons_Ok in H as (b' & k' & Hb' & Hk' & ->).
    rewrite elem_of_cons, (IH k' Hk'). split.
    + intros [->|(a' & Ha' & Hf)]; [exists a|exists a'];
        rewrite elem_of_cons; eauto.
    + intros (a' & [->|Ha']%elem_of_cons & Hf); [left; congruence|eauto].
Qed.

Lemma mapM_Ok_NoDup {A B} (f : A → pyresult B) l k :
  mapM f l = Ok k → NoDup l →
  (∀ a a' b, a ∈ l → a' ∈ l → f a = Ok b → f a' = Ok b → a = a') →
  NoDup k.
Proof.
  revert k. induction l as [|a l IH]; intros k H Hnd Hinj.
  - apply mapM_nil_Ok in H as ->. constructor.
  - apply mapM_cons_Ok in H as (b & k' & Hb & Hk' & ->).
    apply NoDup_cons in Hnd as [Hnotin Hnd]. constructor.
    + intros (a' & Ha' & Hf)%(mapM_Ok_elem_of f l k' b Hk').
      assert (a = a') as <-; [|done].
      apply (Hinj a a' b); rewrite ?elem_of_cons; eauto.
    + apply IH; [done..|]. intros a1 a2 b' H1 H2.
      apply Hinj; rewrite elem_of_cons; eauto.
Qed.

Lemma mapM_Ok_total {A B} (f : A → pyresult B) l :
  (∀ a, a ∈ l → ∃ b, f a = Ok b) → ∃ k, mapM f l = Ok k.
Proof.
  induction l as [|a l IH]; intros Hf; [by exists []|].
  destruct (Hf a) as (b & Hb); [by left|].
  destruct IH as (k & Hk); [intros a' Ha'; apply Hf; by right|].
  exists (b :: k). apply mapM_cons_Ok. eauto.
Qed.

Lemma vector_range_iter_elem_of (r : vector_range) elems v :
  vector_range_iter r = Ok elems →
  v ∈ elems ↔
  ∃ n i, vector_range_len r = Ok n ∧ 0 ≤ i < n ∧
         vector_range_getitem r i = Ok v.
Proof.
  unfold vector_range_iter. intros (n & Hn & H)%bind_Ok.
  rewrite (mapM_Ok_elem_of _ _ _ v H). setoid_rewrite elem_of_seqZ. split.
  - intros (i & Hi & Hget). exists n, i. repeat split; try done; lia.
  - intros (n' & i & Hn' & Hi & Hget). exists i.
    assert (n' = n) as -> by congruence. split; [lia|done].
Qed.

(** The list of a completed iteration holds [self[i]] at position [i]. *)
Lemma vector_range_iter_lookup (r : vector_range) (xs : list Vector) :
  wf r → vector_range_iter r = Ok xs →
  vector_range_len r = Ok (Z.of_nat (length xs)) ∧
  ∀ (i : nat) a, xs !! i = Some a →
    vector_range_getitem r (Z.of_nat i) = Ok a.
Proof.
  intros Hwf. destruct (wf_len_nonneg r Hwf) as (n & Hn & Hn0).
  unfold vector_range_iter. rewrite Hn. cbn [mbind pyresult_bind].
  intros [Hlen Hel]%mapM_Ok_lookup. rewrite length_seqZ in Hlen.
  split; [f_equal; lia|]. intros i a Hi.
  destruct (Hel i (Z.of_nat i)) as (b & Hb & Hget).
  { apply lookup_seqZ. apply lookup_lt_Some in Hi. lia. }
  congruence.
Qed.

Lemma vector_range_getitem_inj (r : vector_range) n i j v :
  wf r → vector_range_len r = Ok n → 0 ≤ i < n → 0 ≤ j < n →
  vector_range_getitem r i = Ok v → vector_range_getitem r j = Ok v → i = j.
Proof.
  intros Hwf Hn Hi Hj Hgi Hgj.
  pose proof (vector_range_getitem_index r n i v Hwf Hn Hi Hgi).
  pose proof (vector_range_getitem_index r n j v Hwf Hn Hj Hgj).
  congruence.
Qed.

Lemma vector_range_iter_NoDup (r : vector_range) elems :
  wf r → vector_range_iter r = Ok elems → NoDup elems.
Proof.
  intros Hwf. unfold vector_range_iter. intros (n & Hn & H)%bind_Ok.
  apply (mapM_Ok_NoDup _ _ _ H); [apply NoDup_seqZ|].
  intros i j v Hi%elem_of_seqZ Hj%elem_of_seqZ.
  apply (vector_range_getitem_inj r n); [done..|lia|lia].
Qed.

(** The elements are exactly the values that [index] finds. *)
Lemma vector_range_iter_index (r : vector_range) elems v :
  wf r → vector_range_iter r = Ok elems →
  v ∈ elems ↔ ∃ i, vector_range_index r v = Ok i.
Proof.
  intros Hwf Hiter. rewrite (vector_range_iter_elem_of r elems v Hiter). split.
  - intros (n & i & Hn & Hi & Hget). exists i.
    by apply (vector_range_getitem_index r n).
  - intros (i & (n & Hn & Hi & Hget)%vector_range_index_getitem); [|done].
    eauto.
Qed.

(** Iterating an unsliced range never fails. *)
Lemma vector_range_getitem_unsliced (r : vector_range) n i :
  wf r → _slice r = None → vector_range_len r = Ok n → 0 ≤ i < n →
  ∃ v, vector_range_getitem r i = Ok v.
Proof.
  intros Hwf Hs Hn Hi.
  destruct (wf_inv r Hwf) as (r0 & r1 & r2 & Hrs & _).
  destruct (wf_raw_of r r0 r1 r2 n i Hwf Hrs Hn Hi) as (p & Hp & Hpl & Hl & Hnone).
  destruct (Hnone Hs) as [-> Hnl].
  destruct (vector_range_getitem_cases r r0 r1 r2 n i Hwf Hrs Hn Hi)
    as [Herr|(v & p' & Hget & _)]; [|eauto].
  destruct (wf_inv r Hwf) as (? & ? & ? & Hrs' & Hs0 & Hs1 & Hs2 & _).
  rewrite Hrs in Hrs'. injection Hrs' as <- <- <-.
  rewrite (vector_range_getitem_inside r r0 r1 r2 Hrs Hs0 Hs1 Hs2 n i i
             Hn Hi Hp) in Herr by lia.
  destruct (order_place (_order r) (_indexes r)
              (range_start r0 + i `mod` range_len r0 * range_step r0)
              (range_start r1 + (i `div` range_len r0) `mod` range_len r1 * range_step r1)
              (range_start r2 + i `div` (range_len r0 * range_len r1) * range_step r2)
              (wf_order r Hwf) (wf_indexes r Hwf))
    as (a & b & c & Hargs & _).
  unfold raw_coords in Herr. by rewrite Hargs in Herr.
Qed.

Lemma vector_range_iter_unsliced (r : vector_range) :
  wf r → _slice r = None → ∃ elems, vector_range_iter r = Ok elems.
Proof.
  intros Hwf Hs. destruct (wf_len_nonneg r Hwf) as (n & Hn & _).
  unfold vector_range_iter. rewrite Hn. cbn [mbind pyresult_bind].
  apply mapM_Ok_total. intros i Hi%elem_of_seqZ.
  apply (vector_range_getitem_unsliced r n); [done..|lia].
Qed.

(** ** The lattice of an axis order *)

Lemma axis_range_x start stop step r :
  axis_range start stop step "x" = Ok r →
  r = PyRange (x start) (x stop) (x step).
Proof.
  change (axis_range start stop step "x")
    with (range3 (x start) (x stop) (x step)).
  unfold range3. destruct (decide (x step = 0)); [done|]. by intros [= <-].
Qed.
Lemma axis_range_y start stop step r :
  axis_range start stop step "y" = Ok r →
  r = PyRange (y start) (y stop) (y step).
Proof.
  change (axis_range start stop step "y")
    with (range3 (y start) (y stop) (y step)).
  unfold range3. destruct (decide (y step = 0)); [done|]. by intros [= <-].
Qed.
Lemma axis_range_z start stop step r :
  axis_range start stop step "z" = Ok r →
  r = PyRange (z start) (z stop) (z step).
Proof.
  change (axis_range start stop step "z")
    with (range3 (z start) (z stop) (z step)).
  unfold range3. destruct (decide (z step = 0)); [done|]. by intros [= <-].
Qed.

Lemma order_lattice (o : string) (start stop step v : Vector) r0 r1 r2 i j k :
  o ∈ valid_orders →
  mapM (axis_range start stop step) (list_ascii_of_string o)
    = Ok [r0; r1; r2] →
  mapM (getattr v) (list_ascii_of_string o) = Ok [i; j; k] →
  (i ∈ range_elements r0 ∧ j ∈ range_elements r1 ∧ k ∈ range_elements r2)
  ↔ on_lattice start stop step v.
Proof.
  intros Ho Hr Hv. unfold on_lattice.
  order_cases Ho; cbn [list_ascii_of_string] in Hr;
    apply mapM_cons_Ok in Hr as (? & ? & H0 & Hr & [= <- <-]);
    apply mapM_cons_Ok in Hr as (? & ? & H1 & Hr & [= <- <-]);
    apply mapM_cons_Ok in Hr as (? & ? & H2 & Hr & [= <- <-]);
    first [apply axis_range_x in H0|apply axis_range_y in H0
          |apply axis_range_z in H0];
    first [apply axis_range_x in H1|apply axis_range_y in H1
          |apply axis_range_z in H1];
    first [apply axis_range_x in H2|apply axis_range_y in H2
          |apply axis_range_z in H2];
    subst; cbn in Hv; injection Hv as <- <- <-; tauto.
Qed.

Lemma vector_range_index_lattice (r : vector_range) (v : Vector) :
  wf r → _slice r = None →
  (∃ i, vector_range_index r v = Ok i)
  ↔ on_lattice (_start r) (_stop r) (_step r) v.
Proof.
  intros Hwf Hs.
  destruct (wf_inv r Hwf) as (r0 & r1 & r2 & Hrs & Hs0 & Hs1 & Hs2 & _).
  destruct (order_pick (_order r) (_indexes r) v (wf_order r Hwf)
              (wf_indexes r Hwf)) as (i & j & k & Hijk & _).
  pose proof (wf_ranges r Hwf) as Hr. rewrite Hrs in Hr.
  rewrite <-(order_lattice _ _ _ _ _ _ _ _ _ _ _ (wf_order r Hwf) Hr Hijk).
  rewrite <-!range_contains_elements by done.
  rewrite (vector_range_index_unfold r v r0 r1 r2 i j k) by done.
  rewrite Hs. unfold range_index.
  destruct (range_contains r0 i), (range_contains r1 j),
    (range_contains r2 k); cbn; split; try (intros [? [=]]);
    try (intros (? & ? & ?); discriminate); eauto.
Qed.

(** ** Slices of unsliced ranges *)

Lemma mapM_fmap {A B C} (f : B → pyresult C) (g : A → B) (l : list A) :
  mapM f (g <$> l) = mapM (f ∘ g) l.
Proof. induction l as [|a l IH]; [done|]. cbn. by rewrite IH. Qed.

Lemma mapM_ext_in {A B} (f g : A → pyresult B) (l : list A) :
  (∀ a, a ∈ l → f a = g a) → mapM f l = mapM g l.
Proof.
  induction l as [|a l IH]; intros H; [done|]. cbn.
  rewrite (H a) by (by left). rewrite IH; [done|].
  intros a' Ha'. apply H. by right.
Qed.

(** Reading through a window whose raw indices are all valid is reading the
    unsliced range at the raw index. *)
Lemma vector_range_getitem_window (r : vector_range) (w : pyrange) (n i : Z) :
  wf r → _slice r = None → vector_range_len r = Ok n →
  range_step w ≠ 0 → 0 ≤ i < range_len w →
  0 ≤ range_start w + i * range_step w < n →
  vector_range_getitem
    (VectorRange (_start r) (_stop r) (_step r) (_order r) (_ranges r)
       (_indexes r) (Some w)) i
  = vector_range_getitem r (range_start w + i * range_step w).
Proof.
  intros Hwf Hs Hn Hstep Hi Hp.
  destruct (wf_inv r Hwf) as (r0 & r1 & r2 & Hrs & Hs0 & Hs1 & Hs2 & Hprod & _).
  assert (n = range_len r0 * range_len r1 * range_len r2) as Hnl.
  { unfold vector_range_len in Hn. rewrite Hs in Hn. congruence. }
  set (p := range_start w + i * range_step w) in *.
  set (r' := VectorRange (_start r) (_stop r) (_step r) (_order r) (_ranges r)
               (_indexes r) (Some w)).
  rewrite (vector_range_getitem_inside r' r0 r1 r2 Hrs Hs0 Hs1 Hs2
             (range_len w) i p); [|done|done| |lia].
  - rewrite (vector_range_getitem_inside r r0 r1 r2 Hrs Hs0 Hs1 Hs2 n p p);
      [done..| |lia].
    unfold raw_of. by rewrite Hs.
  - unfold raw_of. cbn [_slice]. apply range_getitem_Ok; [done|lia|].
    split; [lia|done].
Qed.

Lemma vector_range_iter_window (r : vector_range) (w : pyrange) elems :
  wf r → _slice r = None → vector_range_iter r = Ok elems →
  range_step w ≠ 0 →
  (∀ p, p ∈ range_elements w → 0 ≤ p < Z.of_nat (length elems)) →
  (r' ← vector_range_init (_start r) (Some (_stop r)) (_step r) (_order r)
          (Some w);
   vector_range_iter r')
  = mapM (λ p, list_getitem elems (Z.to_nat p)) (range_elements w).
Proof.
  intros Hwf Hs Hiter Hstep Hel.
  destruct (vector_range_iter_lookup r elems Hwf Hiter) as [Hn Hget].
  set (n := Z.of_nat (length elems)) in *.
  assert (range_len w ≤ n) as Hle.
  { pose proof (range_len_nonneg w Hstep) as H0.
    destruct (decide (range_len w = 0)) as [|Hne]; [lia|].
    assert (0 ≤ range_start w + 0 * range_step w < n) as Hfirst.
    { apply Hel, elem_of_range_elements. exists 0. lia. }
    assert (0 ≤ range_start w + (range_len w - 1) * range_step w < n) as Hlast.
    { apply Hel, elem_of_range_elements. exists (range_len w - 1). lia. }
    nia. }
  set (r' := VectorRange (_start r) (_stop r) (_step r) (_order r) (_ranges r)
               (_indexes r) (Some w)).
  assert (vector_range_init (_start r) (Some (_stop r)) (_step r) (_order r)
            (Some w) = Ok r') as ->.
  { apply vector_range_init_Ok. split; [apply (wf_order r Hwf)|].
    exists (_ranges r), (_indexes r).
    split; [apply (wf_ranges r Hwf)|]. split; [apply (wf_indexes r Hwf)|].
    split; [|done]. intros _. exists n. split; [|done].
    unfold vector_range_len in Hn. by rewrite Hs in Hn. }
  cbn [mbind pyresult_bind]. unfold vector_range_iter.
  cbn [vector_range_len r' _slice mbind pyresult_bind].
  unfold range_elements. rewrite mapM_fmap. apply mapM_ext_in.
  intros i Hi%elem_of_seqZ. cbn [compose].
  assert (0 ≤ range_start w + i * range_step w < n) as Hp.
  { apply Hel, elem_of_range_elements. exists i. lia. }
  unfold r'. rewrite (vector_range_getitem_window r w n i) by (done || lia).
  unfold list_getitem.
  destruct (lookup_lt_is_Some_2 elems
              (Z.to_nat (range_start w + i * range_step w)) ltac:(lia))
    as [a Ha].
  rewrite Ha. rewrite <-(Hget _ a Ha). f_equal. lia.
Qed.

(** With a positive step the slice of an unsliced range is the list slice
    of its elements; so [r[1:]] is [list(r)[1:]] and [r[:-1]] is
    [list(r)[:-1]]. *)
Lemma vector_range_getslice_forward (r : vector_range) elems (sl : pyslice) :
  wf r → _slice r = None → vector_range_iter r = Ok elems →
  0 < match slice_step sl with None => 1 | Some s => s end →
  vector_range_slice_list r sl = py_list_slice elems sl.
Proof.
  intros Hwf Hs Hiter Hpos.
  destruct (vector_range_iter_lookup r elems Hwf Hiter) as [Hn _].
  unfold vector_range_slice_list, vector_range_getslice, py_list_slice,
    py_slice_indices.
  rewrite Hn. cbn [mbind pyresult_bind].
  set (n := Z.of_nat (length elems)) in *.
  set (step := match slice_step sl with Some s => s | None => 1 end) in *.
  destruct (decide (step < 0)) as [|_]; [lia|].
  destruct (decide (step = 0)) as [|Hstep]; [lia|].
  cbn [mbind pyresult_bind]. unfold range3.
  destruct (decide (step = 0)) as [|_]; [lia|].
  cbn [mbind pyresult_bind].
  set (start := n `min` (0 `max` _)). set (stop := n `min` (0 `max` _)).
  match goal with
  | |- _ = mapM _ (range_elements (PyRange ?a ?b _)) =>
      assert (a = start) as ->;
        [|assert (b = stop) as ->]
  end.
  { unfold start. destruct (slice_start sl) as [s|]; [|lia].
    destruct (decide (s < 0)); lia. }
  { unfold stop. destruct (slice_stop sl) as [s|]; [|lia].
    destruct (decide (s < 0)); lia. }
  apply (vector_range_iter_window r (PyRange start stop step) elems);
    try done.
  intros p (i & Hi & ->)%elem_of_range_elements.
  apply range_len_spec in Hi; [|done]. cbn in *.
  destruct (decide (0 < step)); [|lia].
  assert (0 ≤ start ∧ stop ≤ n) as [? ?] by (unfold start, stop; lia).
  fold n. nia.
Qed.

(** * Main results *)

(** ** The assertions of [tests/test_vector.py], evaluated on the model *)

Example test_vector_range_init :
  (r ← cube 2 default_order; Ok (_start r, _stop r, _step r))
    = Ok (mkVector 0 0 0, mkVector 2 2 2, mkVector 1 1 1).
Proof. reflexivity. Qed.

Example test_vector_range_step_zero :
  vector_range_init (mkVector 1 1 1) None (mkVector 1 1 0) default_order None
    = Raise ValueError.
Proof. reflexivity. Qed.

Example test_vector_range_order_invalid :
  cube 2 "abc" = Raise ValueError.
Proof. reflexivity. Qed.

Example test_vector_range_index :
  (r ← cube 2 default_order; vector_range_index r (mkVector 0 0 0)) = Ok 0 ∧
  (r ← cube 2 default_order;
   r' ← vector_range_getslice r (Slice None (Some (-1)) None);
   vector_range_index r' (mkVector 0 0 0)) = Ok 0 ∧
  (r ← cube 2 default_order; vector_range_index r (mkVector 1 1 1)) = Ok 7 ∧
  (r ← cube 2 default_order;
   r' ← vector_range_getslice r (Slice (Some 1) None None);
   vector_range_index r' (mkVector 1 1 1)) = Ok 6 ∧
  (r ← cube 2 "xyz"; vector_range_index r (mkVector 1 0 0)) = Ok 1 ∧
  (r ← cube 2 "zxy"; vector_range_index r (mkVector 1 0 0)) = Ok 2 ∧
  (r ← cube 2 "zyx"; vector_range_index r (mkVector 1 0 0)) = Ok 4 ∧
  (r ← cube 2 default_order; vector_range_index r (mkVector 2 2 2))
    = Raise ValueError ∧
  (r ← cube 2 default_order;
   r' ← vector_range_getslice r (Slice None (Some (-1)) None);
   vector_range_index r' (mkVector 1 1 1)) = Raise ValueError ∧
  (r ← cube 2 default_order;
   r' ← vector_range_getslice r (Slice (Some 1) None None);
   vector_range_index r' (mkVector 0 0 0)) = Raise ValueError.
Proof. by vm_compute. Qed.

Example test_vector_range_contains_count :
  (r ← cube 2 default_order; vector_range_contains r (mkVector 1 1 1))
    = Ok true ∧
  (r ← cube 2 default_order; vector_range_contains r (mkVector 2 2 2))
    = Ok false ∧
  (r ← cube 2 "xyz"; vector_range_count r (mkVector 1 0 0)) = Ok 1 ∧
  (r ← cube 2 default_order; vector_range_count r (mkVector 2 2 2)) = Ok 0.
Proof. by vm_compute. Qed.

Example test_vector_range_len :
  (cube 0 default_order ≫= vector_range_len) = Ok 0 ∧
  (cube 1 default_order ≫= vector_range_len) = Ok 1 ∧
  (cube 2 default_order ≫= vector_range_len) = Ok 8 ∧
  (cube 3 default_order ≫= vector_range_len) = Ok 27 ∧
  (r ← cube 3 default_order;
   r' ← vector_range_getslice r (Slice (Some 1) None None);
   vector_range_len r') = Ok 26 ∧
  (r ← cube 3 default_order;
   r' ← vector_range_getslice r (Slice None (Some (-2)) None);
   vector_range_len r') = Ok 25.
Proof. by vm_compute. Qed.

Example test_vector_range_ordering :
  (r ← cube 2 "zxy"; vector_range_iter r)
    = Ok [mkVector 0 0 0; mkVector 0 0 1; mkVector 1 0 0; mkVector 1 0 1;
          mkVector 0 1 0; mkVector 0 1 1; mkVector 1 1 0; mkVector 1 1 1] ∧
  (r ← cube 2 "zyx"; vector_range_iter r)
    = Ok [mkVector 0 0 0; mkVector 0 0 1; mkVector 0 1 0; mkVector 0 1 1;
          mkVector 1 0 0; mkVector 1 0 1; mkVector 1 1 0; mkVector 1 1 1] ∧
  (∀ ver, (r1 ← cube 2 "zxy"; r2 ← cube 2 "xyz";
           vector_range_lt ver r1 (IterRange r2)) = Ok true) ∧
  (∀ ver, (r1 ← cube 2 "zxy"; r2 ← cube 2 "zxy";
           vector_range_lt ver r1 (IterRange r2)) = Ok false).
Proof. repeat split; try intros []; by vm_compute. Qed.

Example test_vector_range_reversed :
  (r ← cube 2 default_order; vector_range_reversed r)
    = (r ← cube 2 default_order; reverse <$> vector_range_iter r) ∧
  (r ← cube 2 "xyz"; vector_range_reversed r)
    = (r ← cube 2 "xyz";
       vector_range_slice_list r (Slice None None (Some (-1)))) ∧
  (r ← cube 2 "xyz"; vector_range_reversed r)
    = (r ← vector_range_init (mkVector 1 1 1) (Some (mkVector (-1) (-1) (-1)))
             (mkVector (-1) (-1) (-1)) "xyz" None;
       vector_range_iter r).
Proof. by vm_compute. Qed.

Example test_vector_range_bool :
  (cube 0 default_order ≫= vector_range_bool) = Ok false ∧
  (cube 1 default_order ≫= vector_range_bool) = Ok true ∧
  (r ← cube 1 default_order;
   r' ← vector_range_getslice r (Slice (Some 1) None None);
   vector_range_bool r') = Ok false.
Proof. by vm_compute. Qed.

Example test_vector_range_getitem :
  (r ← cube 2 "xyz"; vector_range_getitem r 0) = Ok (mkVector 0 0 0) ∧
  (r ← cube 2 "xyz"; vector_range_getitem r 1) = Ok (mkVector 1 0 0) ∧
  (r ← cube 2 "xyz"; vector_range_getitem r 7) = Ok (mkVector 1 1 1) ∧
  (r ← cube 2 "xyz"; vector_range_getitem r (-1)) = Ok (mkVector 1 1 1) ∧
  (r ← cube 2 "xyz"; vector_range_getitem r (-8)) = Ok (mkVector 0 0 0) ∧
  (r ← cube 2 "xyz"; vector_range_getitem r 8) = Raise IndexError ∧
  (r ← cube 2 "xyz"; vector_range_getitem r (-9)) = Raise IndexError.
Proof. by vm_compute. Qed.

Example test_vector_coverage :
  (coll_elements <$> rmod 3 3 (SeqRange (range1 10))) = Ok [] ∧
  (coll_elements <$> rmod 3 2 (SeqList [])) = Ok [] ∧
  rmod 0 1 (SeqRange (range1 10)) = Raise ValueError ∧
  rdiv 0 1 = Raise ValueError.
Proof. by vm_compute. Qed.

Example test_vector_arithmetic :
  py_add (PyVec (mkVector 0 0 0)) (PyInt 1) = Ok (PyVec (mkVector 1 1 1)) ∧
  py_add (PyInt 1) (PyVec (mkVector 0 0 0)) = Ok (PyVec (mkVector 1 1 1)) ∧
  py_sub (PyVec (mkVector 1 2 3)) (PyVec (mkVector 1 1 1))
    = Ok (PyVec (mkVector 0 1 2)) ∧
  py_sub (PyVec (mkVector 1 2 3)) (PyInt 1) = Ok (PyVec (mkVector 0 1 2)) ∧
  py_sub (PyInt 1) (PyVec (mkVector 0 0 0)) = Raise TypeError ∧
  py_mul (PyVec (mkVector 1 2 3)) (PyVec (mkVector 3 3 3))
    = Ok (PyVec (mkVector 3 6 9)) ∧
  py_mul (PyVec (mkVector 1 2 3)) (PyInt 3) = Ok (PyVec (mkVector 3 6 9)) ∧
  py_mul (PyInt 3) (PyVec (mkVector 1 2 3)) = Ok (PyVec (mkVector 3 6 9)).
Proof. by vm_compute. Qed.

(** ** Round trip of indexing and lookup *)

(** On every reachable range, an index whose element can be read is found
    again by [index]. *)
Lemma vector_range_roundtrip (r : vector_range) (n i : Z) (v : Vector) :
  reachable r → vector_range_len r = Ok n → 0 ≤ i < n →
  vector_range_getitem r i = Ok v →
  index_of_getitem r i = Ok i.
Proof.
  intros Hr Hn Hi Hget. unfold index_of_getitem. rewrite Hget.
  apply (vector_range_getitem_index r n); [by apply reachable_wf|done..].
Qed.

(** On an unsliced range every index in range can be read, so the round
    trip holds there without further condition. *)
Lemma vector_range_roundtrip_unsliced start stop step order r n i :
  vector_range_init start stop step order None = Ok r →
  vector_range_len r = Ok n → 0 ≤ i < n →
  index_of_getitem r i = Ok i.
Proof.
  intros Hinit Hn Hi.
  assert (wf r) as Hwf by (by eapply vector_range_init_wf).
  assert (_slice r = None) as Hs.
  { by apply vector_range_init_Ok in Hinit as (_ & ? & ? & _ & _ & _ & ->). }
  destruct (vector_range_getitem_unsliced r n i Hwf Hs Hn Hi) as (v & Hv).
  apply (vector_range_roundtrip r n i v); [|done..].
  by eapply reachable_init.
Qed.

(** C1 (defect in the code): the round trip [r.index(r[i]) == i] does not
    hold on every sliced range.  [vector_range(Vector(2, 2, 2))[8::-2]] is
    built with the window [range(8, -1, -2)], whose first raw index 8 lies
    one past the 8 raw indices of the cube; the range has length 5, and
    reading index 0 raises IndexError, so [r.index(r[0])] raises instead of
    returning 0. *)
Theorem C1_roundtrip_breaks_on_overshooting_window :
  ∃ r r',
    cube 2 default_order = Ok r ∧
    vector_range_getslice r (Slice (Some 8) None (Some (-2))) = Ok r' ∧
    reachable r' ∧
    _slice r' = Some (PyRange 8 (-1) (-2)) ∧
    vector_range_len r' = Ok 5 ∧
    index_of_getitem r' 0 = Raise IndexError.
Proof.
  eexists _, _. split; [by vm_compute|]. split; [by vm_compute|].
  split; [|by vm_compute].
  eapply (reachable_getslice _ (Slice (Some 8) None (Some (-2)))).
  - apply (reachable_init (mkVector 2 2 2) None default_step default_order).
    by vm_compute.
  - by vm_compute.
Qed.

(** ** Forward mapping *)

(** C2: on an unsliced range with axis progressions [P0], [P1], [P2] (in
    the order given by [order]) the length is [len P0 * len P1 * len P2]
    and, for every index [i] below it, the element [r[i]] has as its
    attribute named by the first, second and third letter of [order] the
    values [P0[i mod len P0]], [P1[(i div len P0) mod len P1]] and
    [P2[i div (len P0 * len P1)]]; iterating yields every lattice point
    exactly once; and the 2x2x2 unit cube in order "xyz" (also the part of
    the 3x3x3 cube with components below 2) is the sequence (0,0,0),
    (1,0,0), (0,1,0), (1,1,0), (0,0,1), (1,0,1), (0,1,1), (1,1,1). *)
Theorem C2_forward_mapping :
  (∀ start stop step order r,
     vector_range_init start stop step order None = Ok r →
     ∃ P0 P1 P2,
       mapM (axis_range (_start r) (_stop r) (_step r))
         (list_ascii_of_string order) = Ok [P0; P1; P2] ∧
       vector_range_len r = Ok (range_len P0 * range_len P1 * range_len P2) ∧
       (∀ i, 0 ≤ i < range_len P0 * range_len P1 * range_len P2 →
          ∃ v c0 c1 c2,
            vector_range_getitem r i = Ok v ∧
            range_getitem P0 (i `mod` range_len P0) = Ok c0 ∧
            range_getitem P1 ((i `div` range_len P0) `mod` range_len P1)
              = Ok c1 ∧
            range_getitem P2 (i `div` (range_len P0 * range_len P1)) = Ok c2 ∧
            mapM (getattr v) (list_ascii_of_string order) = Ok [c0; c1; c2]) ∧
       ∃ elems,
         vector_range_iter r = Ok elems ∧ NoDup elems ∧
         ∀ v, v ∈ elems ↔ on_lattice (_start r) (_stop r) (_step r) v) ∧
  (r ← cube 2 "xyz"; vector_range_iter r)
    = Ok [mkVector 0 0 0; mkVector 1 0 0; mkVector 0 1 0; mkVector 1 1 0;
          mkVector 0 0 1; mkVector 1 0 1; mkVector 0 1 1; mkVector 1 1 1] ∧
  (r ← cube 3 "xyz"; elems ← vector_range_iter r;
   Ok (filter (λ v, x v < 2 ∧ y v < 2 ∧ z v < 2) elems))
    = Ok [mkVector 0 0 0; mkVector 1 0 0; mkVector 0 1 0; mkVector 1 1 0;
          mkVector 0 0 1; mkVector 1 0 1; mkVector 0 1 1; mkVector 1 1 1].
Proof.
  split; [|split; by vm_compute].
  intros start stop step order r Hinit.
  assert (wf r) as Hwf by (by eapply vector_range_init_wf).
  assert (_slice r = None ∧ _order r = order) as [Hs Ho].
  { by apply vector_range_init_Ok in Hinit as (_ & ? & ? & _ & _ & _ & ->). }
  destruct (wf_inv r Hwf)
    as (P0 & P1 & P2 & Hrs & Hs0 & Hs1 & Hs2 & Hprod & Hl0 & Hl1 & Hl2).
  exists P0, P1, P2.
  assert (vector_range_len r
          = Ok (range_len P0 * range_len P1 * range_len P2)) as Hlen.
  { unfold vector_range_len. by rewrite Hs. }
  split; [rewrite <-Ho, <-Hrs; apply (wf_ranges r Hwf)|].
  split; [done|]. split.
  - intros i Hi.
    destruct (pos_of_product _ _ _ Hl0 Hl1 Hl2 ltac:(lia)) as (Hp0 & Hp1 & Hp2).
    destruct (raw_index_digits _ _ _ Hp0 Hp1 Hp2 i Hi) as (Hd0 & Hd1 & Hd2 & _).
    destruct (vector_range_getitem_cases r P0 P1 P2 _ i Hwf Hrs Hlen Hi)
      as [Herr|(v & p & Hget & Hp & _ & Hcoords)].
    { destruct (vector_range_getitem_unsliced r _ i Hwf Hs Hlen Hi); congruence. }
    unfold raw_of in Hp. rewrite Hs in Hp. injection Hp as <-.
    exists v. do 3 eexists. split; [done|].
    rewrite <-Ho, Hcoords. unfold raw_coords.
    repeat split; apply range_getitem_Ok; try done; lia.
  - destruct (vector_range_iter_unsliced r Hwf Hs) as (elems & Helems).
    exists elems. split; [done|].
    split; [by apply (vector_range_iter_NoDup r)|].
    intros v. rewrite (vector_range_iter_index r elems v Hwf Helems).
    by apply vector_range_index_lattice.
Qed.

Lemma C2_forward_mapping_witness :
  ∃ r, cube 2 "zxy" = Ok r ∧
    ∃ P0 P1 P2,
      mapM (axis_range (_start r) (_stop r) (_step r))
        (list_ascii_of_string "zxy") = Ok [P0; P1; P2] ∧
      vector_range_len r = Ok (range_len P0 * range_len P1 * range_len P2) ∧
      (∀ i, 0 ≤ i < range_len P0 * range_len P1 * range_len P2 →
         ∃ v c0 c1 c2,
           vector_range_getitem r i = Ok v ∧
           range_getitem P0 (i `mod` range_len P0) = Ok c0 ∧
           range_getitem P1 ((i `div` range_len P0) `mod` range_len P1)
             = Ok c1 ∧
           range_getitem P2 (i `div` (range_len P0 * range_len P1)) = Ok c2 ∧
           mapM (getattr v) (list_ascii_of_string "zxy") = Ok [c0; c1; c2]) ∧
      ∃ elems,
        vector_range_iter r = Ok elems ∧ NoDup elems ∧
        ∀ v, v ∈ elems ↔ on_lattice (_start r) (_stop r) (_step r) v.
Proof.
  eexists. split; [by vm_compute|].
  apply (proj1 C2_forward_mapping (mkVector 2 2 2) None default_step "zxy").
  by vm_compute.
Defined.

(** ** Slicing *)

(** C3 (defect in the code): a slice of a slice is not resolved against the
    existing window.  [__getitem__] builds the new window from the bounds
    of the slice alone and passes it to the constructor in place of the old
    one, so on the 2x2x2 cube in order "xyz" the range [r[1:][1:]] has the
    window [range(1, 7)] and starts at [r[1]], while [r[2:]] starts at
    [r[2]]. *)
Theorem C3_slice_of_slice_ignores_window :
  ∃ r r1 r11 r2,
    cube 2 "xyz" = Ok r ∧
    vector_range_getslice r (Slice (Some 1) None None) = Ok r1 ∧
    vector_range_getslice r1 (Slice (Some 1) None None) = Ok r11 ∧
    vector_range_getslice r (Slice (Some 2) None None) = Ok r2 ∧
    _slice r1 = Some (PyRange 1 8 1) ∧
    _slice r11 = Some (PyRange 1 7 1) ∧
    _slice r2 = Some (PyRange 2 8 1) ∧
    vector_range_iter r11
      = Ok [mkVector 1 0 0; mkVector 0 1 0; mkVector 1 1 0;
            mkVector 0 0 1; mkVector 1 0 1; mkVector 0 1 1] ∧
    vector_range_iter r2
      = Ok [mkVector 0 1 0; mkVector 1 1 0; mkVector 0 0 1;
            mkVector 1 0 1; mkVector 0 1 1; mkVector 1 1 1] ∧
    vector_range_iter r11 ≠ vector_range_iter r2.
Proof.
  eexists _, _, _, _.
  split; [by vm_compute|]. split; [by vm_compute|].
  split; [by vm_compute|]. split; [by vm_compute|].
  by vm_compute.
Qed.

(** C4 (defect in the code): with a negative step the bounds are not
    clamped as a list clamps them.  On the 2x2x2 cube in order "xyz",
    [r[:-9:-1]] stops before raw index 0 and has 7 elements, but
    [list(r)[:-9:-1]] is the whole list reversed (8 elements);
    [r[-9::-1]] yields [r[0]] where the list slice is empty; [r[8::-1]]
    fails the constructor's assertion where the list slice is the reversed
    list; and on a range that is already sliced the slice is taken of the
    raw index space ([r[1:][1:]] is not [list(r[1:])[1:]]). *)
Theorem C4_slice_differs_from_list_slice :
  ∃ r elems,
    cube 2 "xyz" = Ok r ∧ vector_range_iter r = Ok elems ∧
    (* r[:-9:-1] *)
    vector_range_slice_list r (Slice None (Some (-9)) (Some (-1)))
      = Ok [mkVector 1 1 1; mkVector 0 1 1; mkVector 1 0 1; mkVector 0 0 1;
            mkVector 1 1 0; mkVector 0 1 0; mkVector 1 0 0] ∧
    py_list_slice elems (Slice None (Some (-9)) (Some (-1)))
      = Ok [mkVector 1 1 1; mkVector 0 1 1; mkVector 1 0 1; mkVector 0 0 1;
            mkVector 1 1 0; mkVector 0 1 0; mkVector 1 0 0; mkVector 0 0 0] ∧
    (* r[-9::-1] *)
    vector_range_slice_list r (Slice (Some (-9)) None (Some (-1)))
      = Ok [mkVector 0 0 0] ∧
    py_list_slice elems (Slice (Some (-9)) None (Some (-1))) = Ok [] ∧
    (* r[8::-1] *)
    vector_range_slice_list r (Slice (Some 8) None (Some (-1)))
      = Raise AssertionError ∧
    py_list_slice elems (Slice (Some 8) None (Some (-1))) = Ok (reverse elems) ∧
    (* r[1:][1:] *)
    ∃ r1 elems1,
      vector_range_getslice r (Slice (Some 1) None None) = Ok r1 ∧
      vector_range_iter r1 = Ok elems1 ∧
      vector_range_slice_list r1 (Slice (Some 1) None None)
        = Ok [mkVector 1 0 0; mkVector 0 1 0; mkVector 1 1 0;
              mkVector 0 0 1; mkVector 1 0 1; mkVector 0 1 1] ∧
      py_list_slice elems1 (Slice (Some 1) None None)
        = Ok [mkVector 0 1 0; mkVector 1 1 0; mkVector 0 0 1;
              mkVector 1 0 1; mkVector 0 1 1; mkVector 1 1 1].
Proof.
  eexists _, _. split; [by vm_compute|]. split; [by vm_compute|].
  do 6 (split; [by vm_compute|]).
  eexists _, _. split; [by vm_compute|]. split; [by vm_compute|].
  by vm_compute.
Qed.

(** ** [rmod] and [rdiv] *)

(** C8 (defect in the code): [rmod] steps through every integer between
    the first element and the stop of [num_range], not through the members
    of [num_range].  For the ascending range [range(0, 10, 2)] and
    [denom = 3], [result = 1] it returns [range(1, 10, 3)], that is 1, 4
    and 7, of which only 4 is a member of [num_range]; the same happens
    for the ascending list [[0, 2, 4]]. *)
Theorem C8_rmod_leaves_stepped_range :
  rmod 3 1 (SeqRange (PyRange 0 10 2)) = Ok (CollRange (PyRange 1 10 3)) ∧
  coll_elements (CollRange (PyRange 1 10 3)) = [1; 4; 7] ∧
  range_elements (PyRange 0 10 2) = [0; 2; 4; 6; 8] ∧
  filter (λ n, n `mod` 3 = 1) (range_elements (PyRange 0 10 2)) = [4] ∧
  (coll_elements <$> rmod 3 1 (SeqList [0; 2; 4])) = Ok [1; 4].
Proof. by vm_compute. Qed.

(** On unit-step ranges both helpers are exact, they never fail for a
    positive [denom], and both raise ValueError otherwise. *)
Lemma rmod_rdiv_correct (denom result a b : Z) :
  (0 < denom →
   (∃ c, rmod denom result (SeqRange (range2 a b)) = Ok c ∧
         ∀ n, n ∈ coll_elements c ↔
              n ∈ range_elements (range2 a b) ∧ n `mod` denom = result) ∧
   (∃ r, rdiv denom result = Ok r ∧
         r = range2 (result * denom) (result * denom + denom) ∧
         ∀ n, n ∈ range_elements r ↔ n `div` denom = result)) ∧
  (denom ≤ 0 →
   rmod denom result (SeqRange (range2 a b)) = Raise ValueError ∧
   rdiv denom result = Raise ValueError).
Proof.
  split.
  - intros Hd. split.
    + destruct (rmod_unit_step denom result a b Hd) as (c & Hc & Hel).
      exists c. split; [done|]. intros n. by rewrite elem_of_range2.
    + destruct (rdiv_spec denom result Hd) as (r & Hr & Hel).
      exists r. split; [done|]. split; [|done].
      unfold rdiv in Hr. destruct (decide (denom ≤ 0)); [done|].
      by injection Hr as <-.
  - intros Hd. split; [by apply rmod_invalid_denom|by apply rdiv_invalid_denom].
Qed.

(** ** Construction *)

Lemma str_index_valid (o : string) :
  o ∈ valid_orders →
  ∃ idxs, mapM (str_index (list_ascii_of_string o))
            (list_ascii_of_string "xyz") = Ok idxs.
Proof. intros Ho. order_cases Ho; by eexists. Qed.

(** For a valid order the comprehension of [__init__] fails exactly on a
    zero step, and then with ValueError. *)
Lemma axis_ranges_cases (o : string) (start stop step : Vector) :
  o ∈ valid_orders →
  (nonzero_step step ∧
   ∃ rs, mapM (axis_range start stop step) (list_ascii_of_string o) = Ok rs) ∨
  (¬ nonzero_step step ∧
   mapM (axis_range start stop step) (list_ascii_of_string o)
     = Raise ValueError).
Proof.
  intros Ho. unfold nonzero_step.
  order_cases Ho; cbn [list_ascii_of_string mapM];
    change (axis_range start stop step "x")
      with (range3 (x start) (x stop) (x step));
    change (axis_range start stop step "y")
      with (range3 (y start) (y stop) (y step));
    change (axis_range start stop step "z")
      with (range3 (z start) (z stop) (z step));
    unfold range3;
    destruct (decide (x step = 0)), (decide (y step = 0)),
      (decide (z step = 0)); cbn;
    first [left; split; [done|by eexists] | right; split; [tauto|done]].
Qed.

(** C5: the constructor raises ValueError exactly when [order] is not one
    of the six permutations or a component of [step] is zero (and then
    returns no range); a range that it returns carries the given
    [start], [stop], [step] and [order], with [start] and [stop] taken
    from the one-argument form when [stop] is omitted; and for a valid
    [order] and a [step] without zero component it returns a range. *)
Theorem C5_construction_validation :
  ∀ start stop step order slice,
    let start' := match stop with None => mkVector 0 0 0 | Some _ => start end in
    let stop' := match stop with None => start | Some stop => stop end in
    (vector_range_init start stop step order slice = Raise ValueError
     ↔ order ∉ valid_orders ∨ ¬ nonzero_step step) ∧
    (order ∉ valid_orders ∨ ¬ nonzero_step step →
     ∀ r, vector_range_init start stop step order slice ≠ Ok r) ∧
    (∀ r, vector_range_init start stop step order slice = Ok r →
       _start r = start' ∧ _stop r = stop' ∧ _step r = step ∧
       _order r = order ∧ _slice r = slice) ∧
    (order ∈ valid_orders ∧ nonzero_step step →
     ∃ r, vector_range_init start stop step order None = Ok r ∧
          _start r = start' ∧ _stop r = stop' ∧ _step r = step ∧
          _order r = order ∧ _slice r = None).
Proof.
  intros start stop step order slice start' stop'.
  assert (vector_range_init start stop step order slice = Raise ValueError
          ↔ order ∉ valid_orders ∨ ¬ nonzero_step step) as Hiff.
  { unfold vector_range_init.
    assert (match stop with
            | Some stop0 => (start, stop0)
            | None => (mkVector 0 0 0, start)
            end = (start', stop')) as -> by (by destruct stop).
    destruct (decide (order ∉ valid_orders)) as [Ho|Ho]; [tauto|].
    apply dec_stable in Ho.
    destruct (axis_ranges_cases order start' stop' step Ho)
      as [[Hnz (rs & Hrs)]|[Hz ->]]; [|tauto].
    rewrite Hrs.
    destruct (order_ranges _ _ _ _ _ Ho Hrs) as (r0 & r1 & r2 & -> & _).
    destruct (str_index_valid order Ho) as (idxs & ->).
    cbn [mbind pyresult_bind]. split; [|tauto]. intros H. exfalso.
    destruct slice as [s|]; [|done].
    destruct (decide (0 < range_len s)); [|done].
    unfold vector_range_len in H. cbn [_slice _ranges fmap list_fmap] in H.
    rewrite product3 in H.
    cbn [mbind pyresult_bind] in H. unfold py_assert in H.
    by destruct (decide (range_len s ≤ range_len r0 * range_len r1 * range_len r2)). }
  split; [done|]. split; [|split].
  - intros Hbad r Hr. apply Hiff in Hbad. congruence.
  - intros r Hr.
    by apply vector_range_init_Ok in Hr as (_ & ? & ? & _ & _ & _ & ->).
  - intros [Ho Hnz].
    destruct (axis_ranges_cases order start' stop' step Ho)
      as [[_ (rs & Hrs)]|[Hz _]]; [|done].
    destruct (str_index_valid order Ho) as (idxs & Hidxs).
    exists (VectorRange start' stop' step order rs idxs None).
    split; [|done]. apply vector_range_init_Ok. split; [done|].
    exists rs, idxs. done.
Qed.

Lemma C5_construction_validation_witness :
  vector_range_init (mkVector 2 2 2) None (mkVector 1 1 0) "zxy" None
    = Raise ValueError ∧
  vector_range_init (mkVector 2 2 2) None default_step "abc" None
    = Raise ValueError ∧
  ∃ r, vector_range_init (mkVector 1 0 1) (Some (mkVector 1 1 1))
         default_step "xyz" None = Ok r ∧
       _start r = mkVector 1 0 1 ∧ _stop r = mkVector 1 1 1 ∧
       _step r = default_step ∧ _order r = "xyz"%string ∧ _slice r = None.
Proof.
  split; [|split].
  - apply (proj1 (C5_construction_validation (mkVector 2 2 2) None
                    (mkVector 1 1 0) "zxy" None)).
    right. unfold nonzero_step. cbn. tauto.
  - apply (proj1 (C5_construction_validation (mkVector 2 2 2) None
                    default_step "abc" None)).
    left. intros H%valid_order_cases. intuition discriminate.
  - apply (proj2 (proj2 (proj2 (C5_construction_validation (mkVector 1 0 1)
                    (Some (mkVector 1 1 1)) default_step "xyz" None)))).
    split; [apply valid_order_cases; tauto|]. unfold nonzero_step. by cbn.
Defined.

(** ** Lookup failures, membership and count *)

Lemma vector_range_contains_index (r : vector_range) (v : Vector) :
  wf r → vector_range_contains r v = Ok (is_ok (vector_range_index r v)).
Proof.
  intros Hwf. unfold vector_range_contains.
  by destruct (vector_range_index_cases r v Hwf) as [[i ->]| ->].
Qed.

(** On every range obtained from the constructor and by slicing,
    [index(v)] either returns an index or raises ValueError, never another
    exception; it returns [i] exactly when [i] is an index of the range
    whose element is [v], hence raises ValueError exactly when [v] is at no
    index (and, when the iteration of the range completes, exactly when [v]
    is not among the iterated elements); and [v in r] is [True] exactly
    when [index(v)] returns. *)
Theorem vector_range_index_found :
  ∀ r v, reachable r →
    ((∃ i, vector_range_index r v = Ok i) ∨
     vector_range_index r v = Raise ValueError) ∧
    (∀ i, vector_range_index r v = Ok i ↔
          ∃ n, vector_range_len r = Ok n ∧ 0 ≤ i < n ∧
               vector_range_getitem r i = Ok v) ∧
    (vector_range_index r v = Raise ValueError ↔
     ¬ ∃ n i, vector_range_len r = Ok n ∧ 0 ≤ i < n ∧
              vector_range_getitem r i = Ok v) ∧
    (∀ elems, vector_range_iter r = Ok elems →
       (vector_range_index r v = Raise ValueError ↔ v ∉ elems)) ∧
    (vector_range_contains r v = Ok true ↔
     ∃ i, vector_range_index r v = Ok i) ∧
    (vector_range_contains r v = Ok false ↔
     vector_range_index r v = Raise ValueError).
Proof.
  intros r v Hwf%reachable_wf.
  assert (∀ i, vector_range_index r v = Ok i ↔
               ∃ n, vector_range_len r = Ok n ∧ 0 ≤ i < n ∧
                    vector_range_getitem r i = Ok v) as Hiff.
  { intros i. split; [by apply vector_range_index_getitem|].
    intros (n & Hn & Hi & Hget). by apply (vector_range_getitem_index r n). }
  assert (vector_range_index r v = Raise ValueError ↔
          ¬ ∃ i, vector_range_index r v = Ok i) as Hnot.
  { destruct (vector_range_index_cases r v Hwf) as [[i Hi]|Herr].
    - rewrite Hi. split; [done|]. intros []. eauto.
    - rewrite Herr. split; [|done]. by intros _ [i Hi]. }
  split; [by apply vector_range_index_cases|]. split; [done|].
  split; [|split; [|split]].
  - rewrite Hnot. apply not_iff_compat. split.
    + intros (i & (n & ?)%Hiff). eauto.
    + intros (n & i & H). exists i. apply Hiff. eauto.
  - intros elems Helems. rewrite Hnot. apply not_iff_compat. symmetry.
    by apply vector_range_iter_index.
  - rewrite vector_range_contains_index by done.
    destruct (vector_range_index r v); cbn; split; try done; eauto.
    by intros [? [=]].
  - rewrite vector_range_contains_index by done.
    destruct (vector_range_index_cases r v Hwf) as [[i ->]| ->]; by cbn.
Qed.

(** The witness: the 2x2x2 cube without its first element, queried for
    that element (a raw member that the window excludes). *)
Lemma vector_range_index_found_witness :
  ∃ r, (r0 ← cube 2 default_order;
        vector_range_getslice r0 (Slice (Some 1) None None)) = Ok r ∧
       reachable r ∧
       vector_range_index r (mkVector 0 0 0) = Raise ValueError ∧
       vector_range_contains r (mkVector 0 0 0) = Ok false.
Proof.
  eexists. split; [by vm_compute|].
  match goal with |- reachable ?r ∧ _ =>
    assert (reachable r) as Hr
  end.
  { eapply (reachable_getslice _ (Slice (Some 1) None None)).
    - apply (reachable_init (mkVector 2 2 2) None default_step default_order).
      by vm_compute.
    - by vm_compute. }
  split; [exact Hr|].
  destruct (vector_range_index_found _ (mkVector 0 0 0) Hr)
    as (_ & _ & _ & _ & _ & Hc).
  assert (vector_range_index
            (VectorRange (mkVector 0 0 0) (mkVector 2 2 2) (mkVector 1 1 1)
               "zxy" [PyRange 0 2 1; PyRange 0 2 1; PyRange 0 2 1]
               [1%nat; 2%nat; 0%nat] (Some (PyRange 1 8 1)))
            (mkVector 0 0 0) = Raise ValueError) as Hi by (by vm_compute).
  split; [exact Hi|]. apply Hc. exact Hi.
Defined.

(** C6 (defect in the code): [index] and [in] find a Vector that the
    range never iterates.  [vector_range(Vector(2, 2, 2))[8::-2]] is built
    with the window [range(8, -1, -2)], whose first raw index 8 lies past
    the 8 raw indices (the clamp of the negative-step branch of
    [__getitem__], the defect of C1): [r[0]] raises IndexError, so the
    iteration of [r] raises before it yields anything, and
    [Vector(0, 0, 0)] is not among the elements [r] iterates; yet
    [r.index(Vector(0, 0, 0))] returns 4 instead of raising ValueError, and
    [Vector(0, 0, 0) in r] is [True]. *)
Theorem C6_index_finds_what_iteration_never_yields :
  ∃ r0 r,
    cube 2 default_order = Ok r0 ∧
    vector_range_getslice r0 (Slice (Some 8) None (Some (-2))) = Ok r ∧
    reachable r ∧
    _slice r = Some (PyRange 8 (-1) (-2)) ∧
    vector_range_len r = Ok 5 ∧
    vector_range_getitem r 0 = Raise IndexError ∧
    vector_range_iter r = Raise IndexError ∧
    vector_range_index r (mkVector 0 0 0) = Ok 4 ∧
    vector_range_contains r (mkVector 0 0 0) = Ok true ∧
    vector_range_count r (mkVector 0 0 0) = Ok 1.
Proof.
  eexists _, _. split; [by vm_compute|]. split; [by vm_compute|].
  split; [|by vm_compute].
  eapply (reachable_getslice _ (Slice (Some 8) None (Some (-2)))).
  - apply (reachable_init (mkVector 2 2 2) None default_step default_order).
    by vm_compute.
  - by vm_compute.
Qed.

(** Examples of the three kinds of absent coordinates. *)
Example index_outside_bounds :
  (r ← cube 2 default_order; vector_range_index r (mkVector 2 2 2))
    = Raise ValueError.
Proof. by vm_compute. Qed.

Example index_off_lattice :
  (r ← vector_range_init (mkVector 0 0 0) (Some (mkVector 4 4 4))
         (mkVector 2 2 2) default_order None;
   vector_range_index r (mkVector 1 0 0)) = Raise ValueError.
Proof. by vm_compute. Qed.

Example index_outside_window :
  (r ← cube 2 default_order;
   r' ← vector_range_getslice r (Slice None (Some (-1)) None);
   vector_range_index r' (mkVector 1 1 1)) = Raise ValueError.
Proof. by vm_compute. Qed.

Lemma NoDup_filter_eq_length {A} `{EqDecision A} (l : list A) (a : A) :
  NoDup l →
  length (filter (λ b, b = a) l) = if decide (a ∈ l) then 1%nat else 0%nat.
Proof.
  induction 1 as [|b l Hb Hnd IH]; [done|].
  rewrite filter_cons. destruct (decide (b = a)) as [->|Hne].
  - cbn. rewrite IH. destruct (decide (a ∈ l)) as [|_]; [done|].
    destruct (decide (a ∈ a :: l)) as [_|Hn]; [done|].
    destruct Hn. by left.
  - rewrite IH. destruct (decide (a ∈ l)) as [Hin|Hnin].
    + destruct (decide (a ∈ b :: l)) as [_|Hn]; [done|].
      destruct Hn. by right.
    + destruct (decide (a ∈ b :: l)) as [Hn|_]; [|done].
      by apply elem_of_cons in Hn as [->|?].
Qed.

(** C9 (as amended, without the cost rider): on every range obtained from
    the constructor and by slicing, no Vector is the element of two
    different indices (so an iteration that completes yields no
    duplicates), and [count(v)] is 1 when [v in r] and 0 otherwise, which
    is the number of occurrences of [v] among the iterated elements. *)
Theorem C9_no_duplicates_count :
  ∀ r, reachable r →
    (∀ n i j v, vector_range_len r = Ok n → 0 ≤ i < n → 0 ≤ j < n →
       vector_range_getitem r i = Ok v → vector_range_getitem r j = Ok v →
       i = j) ∧
    (∀ elems, vector_range_iter r = Ok elems → NoDup elems) ∧
    (∀ v, ∃ b, vector_range_contains r v = Ok b ∧
               vector_range_count r v = Ok (if b then 1 else 0)) ∧
    (∀ elems v, vector_range_iter r = Ok elems →
       vector_range_count r v
         = Ok (Z.of_nat (length (filter (λ e, e = v) elems)))).
Proof.
  intros r Hwf%reachable_wf. split; [|split; [|split]].
  - intros n i j v. by apply vector_range_getitem_inj.
  - intros elems. by apply vector_range_iter_NoDup.
  - intros v. exists (is_ok (vector_range_index r v)).
    unfold vector_range_count. rewrite vector_range_contains_index by done.
    split; [done|]. cbn. by destruct (is_ok (vector_range_index r v)).
  - intros elems v Helems. unfold vector_range_count.
    rewrite vector_range_contains_index by done. cbn.
    rewrite (NoDup_filter_eq_length elems v)
      by (by apply (vector_range_iter_NoDup r)).
    pose proof (vector_range_iter_index r elems v Hwf Helems) as Hin.
    destruct (vector_range_index r v) as [i|e]; cbn.
    + rewrite decide_True; [done|]. apply Hin. eauto.
    + rewrite decide_False; [done|]. intros [i [=]]%Hin.
Qed.

Lemma C9_no_duplicates_count_witness :
  ∃ r, (r0 ← cube 2 default_order;
        vector_range_getslice r0 (Slice None None (Some (-1)))) = Ok r ∧
       reachable r ∧
       (∀ elems, vector_range_iter r = Ok elems → NoDup elems) ∧
       vector_range_count r (mkVector 1 0 1) = Ok 1 ∧
       vector_range_count r (mkVector 2 0 1) = Ok 0.
Proof.
  eexists. split; [by vm_compute|].
  match goal with |- reachable ?r ∧ _ =>
    assert (reachable r) as Hr
  end.
  { eapply (reachable_getslice _ (Slice None None (Some (-1)))).
    - apply (reachable_init (mkVector 2 2 2) None default_step default_order).
      by vm_compute.
    - by vm_compute. }
  split; [exact Hr|].
  destruct (C9_no_duplicates_count _ Hr) as (_ & Hnd & _ & _).
  split; [exact Hnd|]. split; by vm_compute.
Defined.

(** *** The cost of [count] *)

(** [vector_range_index_sets] runs the code of [index] up to its three
    sets: when it returns them, [index] goes on with their intersection,
    and when it raises, [index] raises the same exception. *)
Lemma vector_range_index_sets_spec (r : vector_range) (v : Vector) :
  match vector_range_index_sets r v with
  | Ok (si, sj, sk) =>
      vector_range_index r v =
      try_except
        (let result : gset Z :=
           list_to_set si ∩ list_to_set sj ∩ list_to_set sk in
         py_assert (size result = 1%nat);;
         result ← match elements result with
                  | n :: _ => Ok n
                  | [] => Raise StopIteration
                  end;
         match _slice r with
         | Some s => range_index s result
         | None => Ok result
         end)
        ValueError (Raise ValueError)
  | Raise e => vector_range_index r v = Raise e
  end.
Proof.
  assert (∀ c, coll_to_set c = list_to_set (coll_elements c)) as Hset.
  { intros [s|w]; cbn; [by rewrite list_to_set_elements_L|done]. }
  assert (∀ e, (if decide (e = ValueError) then Raise ValueError
                else Raise e) = (Raise e : pyresult Z)) as Hexn.
  { intros e. by destruct (decide (e = ValueError)) as [->|]. }
  unfold vector_range_index_sets, vector_range_index. cbv zeta.
  destruct (mapM _ _) as [ijk|e]; [|done]. cbn [mbind pyresult_bind].
  destruct ijk as [|i [|j [|k [|? ?]]]]; try done.
  destruct (product _) as [l|e]; [|done]. cbn [mbind pyresult_bind].
  destruct (list_getitem (_ranges r) 0) as [r0|e];
    cbn [mbind pyresult_bind try_except]; [|apply Hexn].
  destruct (range_index r0 i) as [p0|e];
    cbn [mbind pyresult_bind try_except]; [|apply Hexn].
  destruct (rmod (range_len r0) p0 _) as [c0|e];
    cbn [mbind pyresult_bind try_except]; [|apply Hexn].
  destruct (list_getitem (_ranges r) 1) as [r1|e];
    cbn [mbind pyresult_bind try_except]; [|apply Hexn].
  destruct (range_index r1 j) as [p1|e];
    cbn [mbind pyresult_bind try_except]; [|apply Hexn].
  destruct (py_floordiv l (range_len r0)) as [q|e];
    cbn [mbind pyresult_bind try_except]; [|apply Hexn].
  destruct (rmod (range_len r1) p1 _) as [c1|e];
    cbn [mbind pyresult_bind try_except]; [|apply Hexn].
  destruct (mapM (rdiv (range_len r0)) _) as [bs|e];
    cbn [mbind pyresult_bind try_except]; [|apply Hexn].
  destruct (list_getitem (_ranges r) 2) as [r2|e];
    cbn [mbind pyresult_bind try_except]; [|apply Hexn].
  destruct (range_index r2 k) as [p2|e];
    cbn [mbind pyresult_bind try_except]; [|apply Hexn].
  destruct (rdiv (range_len r0 * range_len r1) p2) as [c2|e];
    cbn [mbind pyresult_bind try_except]; [|apply Hexn].
  by rewrite Hset.
Qed.

(** On the line of [n] Vectors [vector_range(Vector(1, 1, n))], [index]
    builds one set of one integer and two sets of [n] integers each. *)
Lemma vector_range_index_sets_line (n : Z) :
  0 < n →
  ∃ r si sj sk,
    vector_range_init (mkVector 1 1 n) None default_step default_order None
    = Ok r ∧
    vector_range_len r = Ok n ∧
    vector_range_index_sets r (mkVector 0 0 0) = Ok (si, sj, sk) ∧
    length si = 1%nat ∧ Z.of_nat (length sj) = n ∧ Z.of_nat (length sk) = n.
Proof.
  intros Hn.
  set (r := VectorRange (mkVector 0 0 0) (mkVector 1 1 n) default_step
              default_order [PyRange 0 n 1; PyRange 0 1 1; PyRange 0 1 1]
              [1; 2; 0]%nat None).
  assert (range_len (PyRange 0 n 1) = n) as Hlen.
  { cbn. destruct (decide (0 < 1)) as [_|]; [|lia].
    destruct (decide (0 < n)) as [_|]; [|lia]. rewrite Z.div_1_r. lia. }
  assert (range_len (PyRange 0 1 1) = 1) as Hlen1 by done.
  exists r, (range_elements (PyRange 0 n n)),
    (range_elements (range2 0 n)), (range_elements (range2 0 n)).
  split; [done|]. split.
  { unfold vector_range_len. cbn [r _slice _ranges fmap list_fmap].
    rewrite product3, Hlen, Hlen1. f_equal. lia. }
  assert (∀ a b c, Z.of_nat (length (range_elements (PyRange a b c)))
                   = 0 `max` range_len (PyRange a b c)) as Hel
    by (intros; apply range_elements_length).
  split; [|split; [|split]].
  - unfold vector_range_index_sets.
    cbn [r _order _ranges default_order list_ascii_of_string].
    change (mapM (getattr (mkVector 0 0 0)) ["z"; "x"; "y"]%char)
      with (Ok [0; 0; 0] : pyresult (list Z)).
    cbn [mbind pyresult_bind fmap list_fmap].
    rewrite product3, Hlen, Hlen1.
    replace (n * 1 * 1) with n by lia.
    cbn [mbind pyresult_bind list_getitem lookup list_lookup].
    rewrite Hlen, Hlen1.
    rewrite (proj2 (range_index_Ok (PyRange 0 n 1) ltac:(done) 0 0))
      by (rewrite Hlen; cbn; lia).
    cbn [mbind pyresult_bind].
    rewrite (rmod_nonempty n 0 (range1 n))
      by (done || lia
          || (change (range1 n) with (PyRange 0 n 1); rewrite Hlen; lia)).
    change (range_step (range1 n)) with 1.
    destruct (decide (0 < 1 ∨ _)) as [_|Hno]; [|destruct Hno; lia].
    cbn [mbind pyresult_bind range_start range_stop range1].
    change (range_index (PyRange 0 1 1) 0) with (Ok 0 : pyresult Z).
    cbn [mbind pyresult_bind]. unfold py_floordiv.
    destruct (decide (n = 0)) as [|_]; [lia|].
    rewrite Z.div_same by lia. cbn [mbind pyresult_bind].
    change (rmod 1 0 (SeqRange (range1 1)))
      with (Ok (CollRange (PyRange 0 1 1))).
    cbn [mbind pyresult_bind coll_elements].
    change (range_elements (PyRange 0 1 1)) with [0].
    rewrite mapM_rdiv by done. cbn [mbind pyresult_bind fmap list_fmap].
    unfold rdiv. destruct (decide (n * 1 ≤ 0)) as [|_]; [lia|].
    cbn [mbind pyresult_bind list_bind coll_elements].
    rewrite app_nil_r.
    assert (0 + (0 - 0 `mod` n) `mod` n = 0) as ->.
    { rewrite (Z.mod_0_l n) by lia. change (0 - 0) with 0.
      by rewrite (Z.mod_0_l n) by lia. }
    replace (0 * n + n) with n by lia.
    replace (0 * (n * 1) + n * 1) with n by lia.
    by replace (0 * (n * 1)) with 0 by lia.
  - apply Nat2Z.inj. rewrite Hel. cbn [range_len].
    destruct (decide (0 < n)) as [_|]; [|lia].
    rewrite Z.div_small by lia. lia.
  - unfold range2. rewrite Hel, Hlen. lia.
  - unfold range2. rewrite Hel, Hlen. lia.
Qed.

(** C9 (counterexample to the cost rider): [count] neither runs in
    constant time nor avoids enumeration.  [count(v)] is
    [1 if v in self else 0], [in] calls [index], and [index] intersects
    three sets of raw indices that it builds in full: on the line
    [vector_range(Vector(1, 1, 1000))] of 1000 Vectors,
    [count(Vector(0, 0, 0))] returns 1 after it has put 2001 integers into
    sets, and on the line of [n] Vectors it puts [2 * n + 1] integers into
    sets, so no bound holds for all ranges. *)
Lemma C9_count_enumerates_raw_indices :
  (∃ r,
     vector_range_init (mkVector 1 1 1000) None default_step default_order
       None = Ok r ∧
     vector_range_len r = Ok 1000 ∧
     vector_range_count r (mkVector 0 0 0) = Ok 1 ∧
     vector_range_count_work r (mkVector 0 0 0) = Ok 2001) ∧
  (∀ bound, ∃ n r work,
     vector_range_init (mkVector 1 1 n) None default_step default_order None
     = Ok r ∧
     vector_range_len r = Ok n ∧
     vector_range_count_work r (mkVector 0 0 0) = Ok work ∧
     work = 2 * n + 1 ∧ bound < work).
Proof.
  assert (∀ n, 0 < n → ∃ r,
            vector_range_init (mkVector 1 1 n) None default_step
              default_order None = Ok r ∧
            vector_range_len r = Ok n ∧
            vector_range_count_work r (mkVector 0 0 0) = Ok (2 * n + 1))
    as Hline.
  { intros n Hn.
    destruct (vector_range_index_sets_line n Hn)
      as (r & si & sj & sk & Hr & Hlen & Hsets & Hsi & Hsj & Hsk).
    exists r. split; [done|]. split; [done|].
    unfold vector_range_count_work. rewrite Hsets.
    cbn [mbind pyresult_bind fst snd]. f_equal. lia. }
  split.
  - destruct (Hline 1000 ltac:(lia)) as (r & Hr & Hlen & Hwork).
    exists r. split; [done|]. split; [done|]. split; [|done].
    vm_compute in Hr. injection Hr as <-. by vm_compute.
  - intros bound.
    destruct (Hline (1 `max` bound) ltac:(lia)) as (r & Hr & Hlen & Hwork).
    exists (1 `max` bound), r, (2 * (1 `max` bound) + 1).
    repeat split; try done. lia.
Qed.

(** ** Ordering *)

Lemma Vector_lt_irrefl (a : Vector) : Vector_lt a a = false.
Proof. unfold Vector_lt. apply bool_decide_eq_false. lia. Qed.

Lemma Vector_lt_total (a b : Vector) :
  a ≠ b → Vector_lt a b = false → Vector_lt b a = true.
Proof.
  unfold Vector_lt. intros Hne Hlt%bool_decide_eq_false.
  apply bool_decide_eq_true.
  destruct a as [ax ay az], b as [bx by' bz]; cbn in *.
  destruct (decide (ax = bx)) as [->|]; [|lia].
  destruct (decide (ay = by')) as [->|]; [|lia].
  destruct (decide (az = bz)) as [->|]; [done|lia].
Qed.

(** Drawing the [i]-th value of an iterable reads the [i]-th element of its
    list, and reports exhaustion past the end. *)
Lemma iter_next_lookup (s : pyiterable) (ys : list Vector) (i : nat) :
  reachable_iterable s → iterable_list s = Ok ys →
  iter_next s (Z.of_nat i) = Ok (ys !! i).
Proof.
  intros Hs Hys. unfold iter_next. destruct s as [r|l]; cbn in *.
  - apply reachable_wf in Hs.
    destruct (vector_range_iter_lookup r ys Hs Hys) as [-> Hget].
    cbn [mbind pyresult_bind].
    destruct (decide (Z.of_nat i < Z.of_nat (length ys))) as [Hi|Hi].
    + destruct (lookup_lt_is_Some_2 ys i ltac:(lia)) as [a Ha].
      by rewrite Ha, (Hget i a Ha).
    + by rewrite lookup_ge_None_2 by lia.
  - injection Hys as <-.
    destruct (decide (Z.of_nat i < Z.of_nat (length l))) as [Hi|Hi].
    + rewrite Nat2Z.id. unfold list_getitem.
      by destruct (lookup_lt_is_Some_2 l i ltac:(lia)) as [a ->].
    + by rewrite lookup_ge_None_2 by lia.
Qed.

Section lt_loop.
Context (ver : py_major) (self other : pyiterable) (xs ys : list Vector).
Context (Hself : ∀ i : nat, iter_next self (Z.of_nat i) = Ok (xs !! i)).
Context (Hother : ∀ i : nat, iter_next other (Z.of_nat i) = Ok (ys !! i)).

Lemma seqZ_of_nat_S (j cnt : nat) :
  seqZ (Z.of_nat j) (Z.of_nat (S cnt))
  = Z.of_nat j :: seqZ (Z.of_nat (S j)) (Z.of_nat cnt).
Proof.
  rewrite seqZ_cons by lia. f_equal. f_equal; lia.
Qed.

(** The loop is decided at the first position where the sides differ. *)
Lemma lt_loop_first_difference (k : nat) (a b : Vector) :
  take k xs = take k ys → xs !! k = Some a → ys !! k = Some b → a ≠ b →
  ∀ (cnt j : nat), (j ≤ k < j + cnt)%nat →
    lt_loop ver self other (seqZ (Z.of_nat j) (Z.of_nat cnt))
    = Ok (Vector_lt a b).
Proof using Hself Hother.
  intros Htake Ha Hb Hne. induction cnt as [|cnt IH]; intros j Hj; [lia|].
  rewrite seqZ_of_nat_S. cbn [lt_loop]. rewrite Hself, Hother.
  cbn [mbind pyresult_bind].
  destruct (decide (j = k)) as [->|Hjk].
  - rewrite Ha, Hb. cbn [fill_lt fill_gt mbind pyresult_bind].
    destruct (Vector_lt a b) eqn:Hlt; [done|].
    by rewrite (Vector_lt_total a b Hne Hlt).
  - assert (xs !! j = ys !! j) as Heq.
    { rewrite <-(lookup_take_lt xs k j), <-(lookup_take_lt ys k j) by lia.
      by rewrite Htake. }
    destruct (lookup_lt_is_Some_2 xs j) as [c Hc].
    { apply lookup_lt_Some in Ha. lia. }
    rewrite <-Heq, Hc. cbn [fill_lt fill_gt mbind pyresult_bind].
    rewrite Vector_lt_irrefl. apply IH. lia.
Qed.

(** Without any difference the loop runs to its end and answers [False]. *)
Lemma lt_loop_equal (cnt j : nat) :
  xs = ys →
  lt_loop ver self other (seqZ (Z.of_nat j) (Z.of_nat cnt)) = Ok false.
Proof using Hself Hother.
  intros <-. revert j. induction cnt as [|cnt IH]; intros j; [done|].
  rewrite seqZ_of_nat_S. cbn [lt_loop]. rewrite Hself, Hother.
  cbn [mbind pyresult_bind].
  destruct (xs !! j) as [c|]; cbn [fill_lt fill_gt mbind pyresult_bind].
  - rewrite Vector_lt_irrefl. apply IH.
  - apply IH.
Qed.
End lt_loop.

(** C7 (as amended): [r1 < r2] is decided at the first position at which
    both sequences have an element and these differ, and is [True] there
    exactly when the element of [r1] is the smaller [(x, y, z)] tuple; when
    the two sequences are equal, [r1 < r2] is [False]. *)
Theorem C7_ordering_first_difference :
  ∀ ver r other xs ys,
    reachable r → reachable_iterable other →
    vector_range_iter r = Ok xs → iterable_list other = Ok ys →
    (∀ k a b,
       take k xs = take k ys → xs !! k = Some a → ys !! k = Some b → a ≠ b →
       vector_range_lt ver r other = Ok (Vector_lt a b)) ∧
    (xs = ys → vector_range_lt ver r other = Ok false).
Proof.
  intros ver r other xs ys Hr Hother Hxs Hys.
  pose proof (λ i, iter_next_lookup (IterRange r) xs i Hr Hxs) as Hnx.
  pose proof (λ i, iter_next_lookup other ys i Hother Hys) as Hny.
  assert (vector_range_len r = Ok (Z.of_nat (length xs))) as Hn.
  { by apply vector_range_iter_lookup; [apply reachable_wf|]. }
  assert (iterable_len other = Ok (Z.of_nat (length ys))) as Hm.
  { destruct other as [r2|l]; cbn in *.
    - by apply vector_range_iter_lookup; [apply reachable_wf|].
    - by injection Hys as <-. }
  unfold vector_range_lt. rewrite Hn, Hm. cbn [mbind pyresult_bind].
  replace (Z.of_nat (length xs) `max` Z.of_nat (length ys))
    with (Z.of_nat (length xs `max` length ys)) by lia.
  change 0 with (Z.of_nat 0). split.
  - intros k a b Htake Ha Hb Hne.
    apply (lt_loop_first_difference ver _ _ xs ys Hnx Hny k a b); try done.
    apply lookup_lt_Some in Ha. lia.
  - by apply lt_loop_equal.
Qed.

Lemma C7_ordering_first_difference_witness :
  ∃ r1 r2 xs ys,
    cube 2 "zxy" = Ok r1 ∧ cube 2 "xyz" = Ok r2 ∧
    reachable r1 ∧ reachable r2 ∧
    vector_range_iter r1 = Ok xs ∧ vector_range_iter r2 = Ok ys ∧
    take 1 xs = take 1 ys ∧
    xs !! 1%nat = Some (mkVector 0 0 1) ∧
    ys !! 1%nat = Some (mkVector 1 0 0) ∧
    vector_range_lt Py3 r1 (IterRange r2) = Ok true.
Proof.
  eexists _, _, _, _.
  split; [by vm_compute|]. split; [by vm_compute|].
  match goal with |- reachable ?r1 ∧ reachable ?r2 ∧ _ =>
    assert (reachable r1) as H1;
      [by apply (reachable_init (mkVector 2 2 2) None default_step "zxy")|];
    assert (reachable r2) as H2;
      [by apply (reachable_init (mkVector 2 2 2) None default_step "xyz")|]
  end.
  split; [exact H1|]. split; [exact H2|].
  split; [by vm_compute|]. split; [by vm_compute|].
  split; [reflexivity|]. split; [reflexivity|]. split; [reflexivity|].
  exact (proj1 (C7_ordering_first_difference Py3 _ (IterRange _) _ _
                  H1 H2 eq_refl eq_refl)
           1%nat (mkVector 0 0 1) (mkVector 1 0 0)
           eq_refl eq_refl eq_refl ltac:(discriminate)).
Defined.

(** C7 (counterexample to the claim as stated): the one-element range
    [vector_range(Vector(1, 1, 1))] is a strict prefix of the two-element
    range [vector_range(Vector(1, 1, 2))], yet [r1 < r2] is not [False]:
    the second round compares the [None] that [zip_longest] fills in with a
    Vector, which raises TypeError on Python 3 and is [True] on Python 2. *)
Lemma C7_strict_prefix_counterexample :
  ∃ r1 r2,
    vector_range_init (mkVector 1 1 1) None default_step default_order None
      = Ok r1 ∧
    vector_range_init (mkVector 1 1 2) None default_step default_order None
      = Ok r2 ∧
    vector_range_iter r1 = Ok [mkVector 0 0 0] ∧
    vector_range_iter r2 = Ok [mkVector 0 0 0; mkVector 0 0 1] ∧
    vector_range_lt Py3 r1 (IterRange r2) = Raise TypeError ∧
    vector_range_lt Py2 r1 (IterRange r2) = Ok true ∧
    ∀ ver, vector_range_lt ver r1 (IterRange r2) ≠ Ok false.
Proof.
  eexists _, _.
  split; [by vm_compute|]. split; [by vm_compute|].
  split; [by vm_compute|]. split; [by vm_compute|].
  split; [by vm_compute|]. split; [by vm_compute|].
  by intros []; vm_compute.
Qed.

(** ** Scalars on the left of a Vector *)

(** C10: for every Vector [v] and integer [s], [s + v] and [s * v] succeed
    and are the broadcasts [v + s] and [v * s], taken through [__radd__]
    and [__rmul__]; [s - v] raises TypeError, because [int.__sub__] does
    not accept a Vector and [Vector] has no [__rsub__]. *)
Theorem C10_scalar_operand_asymmetry :
  ∀ (v : Vector) (s : Z),
    py_add (PyInt s) (PyVec v)
      = Ok (PyVec (mkVector (x v + s) (y v + s) (z v + s))) ∧
    py_add (PyInt s) (PyVec v) = py_add (PyVec v) (PyInt s) ∧
    py_mul (PyInt s) (PyVec v)
      = Ok (PyVec (mkVector (x v * s) (y v * s) (z v * s))) ∧
    py_mul (PyInt s) (PyVec v) = py_mul (PyVec v) (PyInt s) ∧
    py_sub (PyInt s) (PyVec v) = Raise TypeError ∧
    py_sub (PyVec v) (PyInt s)
      = Ok (PyVec (mkVector (x v - s) (y v - s) (z v - s))) ∧
    py_sub (PyInt 1) (PyVec (mkVector 0 0 0)) = Raise TypeError.
Proof. intros [vx vy vz] s. repeat split. Qed.

(** * Further properties of the module *)

(** ** Vector algebra *)

Lemma Vector_eq (a b : Vector) :
  x a = x b → y a = y b → z a = z b → a = b.
Proof. destruct a, b; cbn; congruence. Qed.

(** The cross product is anticommutative, vanishes on equal operands and is
    orthogonal to both operands. *)
Theorem Vector_cross_laws :
  ∀ v w : Vector,
    Vector_cross v w = Vector_neg (Vector_cross w v) ∧
    Vector_cross v v = mkVector 0 0 0 ∧
    Vector_dot v (Vector_cross v w) = 0 ∧
    Vector_dot w (Vector_cross v w) = 0.
Proof.
  intros [vx vy vz] [wx wy wz]. unfold Vector_cross, Vector_dot, Vector_neg.
  cbn. repeat split; try (f_equal; lia); lia.
Qed.

(** The dot product is symmetric, additive in its first argument over
    [__add__], and [v.dot(v)] is zero exactly for the falsy Vector, which
    is [Vector(0, 0, 0)] alone. *)
Theorem Vector_dot_laws :
  ∀ u v w : Vector,
    Vector_dot v w = Vector_dot w v ∧
    (∀ s, Vector_add v (PyVec w) = Ok s →
          Vector_dot s u = Vector_dot v u + Vector_dot w u) ∧
    0 ≤ Vector_dot v v ∧
    (Vector_dot v v = 0 ↔ Vector_bool v = false) ∧
    (Vector_bool v = false ↔ v = mkVector 0 0 0).
Proof.
  intros [ux uy uz] [vx vy vz] [wx wy wz].
  unfold Vector_dot, Vector_bool, py_or. cbn.
  assert (Vbool : bool_decide
            ((if decide ((if decide (vx ≠ 0) then vx else vy) ≠ 0)
              then if decide (vx ≠ 0) then vx else vy else vz) ≠ 0) = false
          ↔ vx = 0 ∧ vy = 0 ∧ vz = 0).
  { rewrite bool_decide_eq_false.
    destruct (decide (vx ≠ 0)); [destruct (decide (vx ≠ 0)); lia|].
    destruct (decide (vy ≠ 0)); lia. }
  split; [lia|]. split; [intros s [= <-]; cbn; lia|]. split; [nia|].
  split.
  - rewrite Vbool. split; [|intros (-> & -> & ->); lia]. intros H.
    assert (vx * vx = 0 ∧ vy * vy = 0 ∧ vz * vz = 0) as (?&?&?) by nia.
    nia.
  - rewrite Vbool. split; [by intros (-> & -> & ->)|].
    by intros [= -> -> ->].
Qed.

(** Negation is an involution and turns subtraction into addition; the
    absolute value ignores the sign and is idempotent. *)
Theorem Vector_neg_abs_laws :
  ∀ v w : Vector,
    Vector_neg (Vector_neg v) = v ∧
    Vector_sub v (PyVec w) = Vector_add v (PyVec (Vector_neg w)) ∧
    Vector_add v (PyVec (Vector_neg v)) = Ok (mkVector 0 0 0) ∧
    Vector_sub v (PyVec v) = Ok (mkVector 0 0 0) ∧
    Vector_abs (Vector_neg v) = Vector_abs v ∧
    Vector_abs (Vector_abs v) = Vector_abs v ∧
    Vector_bool (Vector_abs v) = Vector_bool v ∧
    Vector_pos v = v.
Proof.
  intros [vx vy vz] [wx wy wz].
  unfold Vector_neg, Vector_abs, Vector_sub, Vector_add, Vector_binop,
    Vector_pos, Vector_bool, py_or.
  cbn. repeat split; try (f_equal; lia); try (do 2 f_equal; lia).
  destruct (decide (Z.abs vx ≠ 0)), (decide (vx ≠ 0)); try lia.
  - destruct (decide (Z.abs vx ≠ 0)), (decide (vx ≠ 0)); try lia.
    apply bool_decide_ext. lia.
  - destruct (decide (Z.abs vy ≠ 0)), (decide (vy ≠ 0)); try lia;
      apply bool_decide_ext; lia.
Qed.

(** ** Floor division, remainder and shifts of Vectors *)

(** [v // w] and [v % w] succeed exactly when no component of [w] is zero
    (otherwise both raise ZeroDivisionError); then
    [(v // w) * w + v % w == v], and every component of the remainder lies
    between zero and the divisor, on the divisor's side.  A scalar divisor
    acts as the Vector with that scalar in every component. *)
Theorem Vector_floordiv_mod_laws :
  ∀ v w : Vector,
    (nonzero_step w →
     ∃ q r, Vector_floordiv v (PyVec w) = Ok q ∧
            Vector_mod v (PyVec w) = Ok r ∧
            (p ← Vector_mul q (PyVec w); Vector_add p (PyVec r)) = Ok v ∧
            (0 ≤ x r < x w ∨ x w < x r ≤ 0) ∧
            (0 ≤ y r < y w ∨ y w < y r ≤ 0) ∧
            (0 ≤ z r < z w ∨ z w < z r ≤ 0)) ∧
    (¬ nonzero_step w →
     Vector_floordiv v (PyVec w) = Raise ZeroDivisionError ∧
     Vector_mod v (PyVec w) = Raise ZeroDivisionError) ∧
    (∀ s, Vector_floordiv v (PyInt s)
            = Vector_floordiv v (PyVec (mkVector s s s)) ∧
          Vector_mod v (PyInt s) = Vector_mod v (PyVec (mkVector s s s))).
Proof.
  intros [vx vy vz] [wx wy wz].
  unfold nonzero_step, Vector_floordiv, Vector_mod, Vector_binop_raising,
    py_floordiv, py_mod, Vector_mul, Vector_add, Vector_binop.
  cbn. split; [|split].
  - intros (Hx & Hy & Hz).
    destruct (decide (wx = 0)), (decide (wy = 0)), (decide (wz = 0));
      try done. cbn.
    do 2 eexists. split; [done|]. split; [done|]. cbn.
    pose proof (Z.div_mod vx wx Hx). pose proof (Z.div_mod vy wy Hy).
    pose proof (Z.div_mod vz wz Hz).
    split; [f_equal; f_equal; lia|].
    repeat split.
    + destruct (Z.lt_ge_cases 0 wx);
        [left; apply Z.mod_pos_bound|right; apply Z.mod_neg_bound]; lia.
    + destruct (Z.lt_ge_cases 0 wy);
        [left; apply Z.mod_pos_bound|right; apply Z.mod_neg_bound]; lia.
    + destruct (Z.lt_ge_cases 0 wz);
        [left; apply Z.mod_pos_bound|right; apply Z.mod_neg_bound]; lia.
  - intros Hz.
    destruct (decide (wx = 0)), (decide (wy = 0)), (decide (wz = 0));
      cbn; try done. tauto.
  - intros s.
    by destruct (decide (s = 0)).
Qed.

Lemma Vector_floordiv_mod_laws_witness :
  ∃ q r, Vector_floordiv (mkVector 7 (-7) 7) (PyVec (mkVector 2 2 (-2)))
           = Ok q ∧
         Vector_mod (mkVector 7 (-7) 7) (PyVec (mkVector 2 2 (-2))) = Ok r ∧
         q = mkVector 3 (-4) (-4) ∧ r = mkVector 1 1 (-1).
Proof.
  destruct (proj1 (Vector_floordiv_mod_laws (mkVector 7 (-7) 7)
                     (mkVector 2 2 (-2))))
    as (q & r & Hq & Hr & _).
  { unfold nonzero_step. cbn. lia. }
  exists q, r. split; [exact Hq|]. split; [exact Hr|].
  cbv in Hq, Hr. split; congruence.
Defined.

(** For a count [n >= 0], [v << n] multiplies every component by [2 ** n]
    and [(v << n) >> n] gives [v] back, while [v >> n] is the floor
    division by [2 ** n]; a negative count raises ValueError. *)
Theorem Vector_shift_laws :
  ∀ (v : Vector) (n : Z),
    (0 ≤ n →
     Vector_lshift v (PyInt n) = Vector_mul v (PyInt (2 ^ n)) ∧
     (s ← Vector_lshift v (PyInt n); Vector_rshift s (PyInt n)) = Ok v ∧
     Vector_rshift v (PyInt n) = Vector_floordiv v (PyInt (2 ^ n))) ∧
    (n < 0 →
     Vector_lshift v (PyInt n) = Raise ValueError ∧
     Vector_rshift v (PyInt n) = Raise ValueError).
Proof.
  intros [vx vy vz] n.
  unfold Vector_lshift, Vector_rshift, Vector_floordiv, Vector_binop_raising,
    py_lshift, py_rshift, py_floordiv, Vector_mul, Vector_binop.
  cbn. split.
  - intros Hn. destruct (decide (n < 0)); [lia|]. cbn.
    assert (0 < 2 ^ n) by (by apply Z.pow_pos_nonneg).
    destruct (decide (2 ^ n = 0)); [lia|]. cbn.
    destruct (decide (n < 0)); [lia|]. cbn.
    destruct (decide (AttributeError = AttributeError)); [|done]. cbn.
    rewrite !Z.shiftr_shiftl_l, Z.sub_diag, !Z.shiftl_0_r by done.
    rewrite !Z.shiftl_mul_pow2, !Z.shiftr_div_pow2 by done. done.
  - intros Hn. by destruct (decide (n < 0)); [|lia].
Qed.

Lemma Vector_shift_laws_witness :
  Vector_lshift (mkVector 1 (-2) 3) (PyInt 4)
    = Vector_mul (mkVector 1 (-2) 3) (PyInt (2 ^ 4)) ∧
  Vector_rshift (mkVector 1 (-2) 3) (PyInt (-1)) = Raise ValueError.
Proof.
  split.
  - apply (proj1 (Vector_shift_laws (mkVector 1 (-2) 3) 4)). lia.
  - apply (proj2 (Vector_shift_laws (mkVector 1 (-2) 3) (-1))). lia.
Defined.

(** ** The string form of a Vector *)

Lemma string_of_uint_digits (d : Decimal.uint) :
  Forall is_digit (list_ascii_of_string (NilEmpty.string_of_uint d)).
Proof.
  induction d; cbn; constructor; try done;
    unfold is_digit; cbn; set_solver.
Qed.

Lemma uint_of_string_digits (s : string) (d : Decimal.uint) :
  NilEmpty.uint_of_string s = Some d →
  Forall is_digit (list_ascii_of_string s).
Proof. intros <-%NilEmpty.sus. apply string_of_uint_digits. Qed.

Lemma is_digit_cases (c : ascii) :
  is_digit c →
  is_space c = false ∧ c ≠ ","%char ∧ c ≠ "_"%char ∧ c ≠ "-"%char ∧
  c ≠ "+"%char.
Proof.
  unfold is_digit. cbn. rewrite !elem_of_cons, elem_of_nil.
  intros H. repeat destruct H as [->|H]; try done.
Qed.

Lemma break_at_app (sep : ascii) (a r : list ascii) :
  sep ∉ a → break_at sep (a ++ sep :: r) = (a, Some r).
Proof.
  induction a as [|c a IH]; intros Hnin; cbn.
  - by destruct (decide (sep = sep)).
  - apply not_elem_of_cons in Hnin as [Hne Hnin].
    destruct (decide (c = sep)); [congruence|]. by rewrite IH.
Qed.

Lemma break_at_None (sep : ascii) (a : list ascii) :
  sep ∉ a → break_at sep a = (a, None).
Proof.
  induction a as [|c a IH]; intros Hnin; cbn; [done|].
  apply not_elem_of_cons in Hnin as [Hne Hnin].
  destruct (decide (c = sep)); [congruence|]. by rewrite IH.
Qed.

(** What [break_at] returns puts the text back together. *)
Lemma break_at_spec (sep : ascii) (s : list ascii) :
  (sep ∉ fst (break_at sep s)) ∧
  s = fst (break_at sep s)
      ++ match snd (break_at sep s) with Some r => sep :: r | None => [] end.
Proof.
  induction s as [|c s [IH1 IH2]]; cbn.
  - split; [apply not_elem_of_nil|done].
  - destruct (decide (c = sep)) as [->|Hne]; cbn.
    + split; [apply not_elem_of_nil|done].
    + destruct (break_at sep s) as [a r]; cbn in *. split.
      * apply not_elem_of_cons. split; [congruence|done].
      * by f_equal.
Qed.

Lemma str_split_no_sep (sep : ascii) (k : nat) (s : list ascii) :
  sep ∉ s → str_split sep k s = [s].
Proof. intros H. destruct k; cbn; [done|]. by rewrite break_at_None. Qed.

Lemma str_split_Forall (P : ascii → Prop) (sep : ascii) (k : nat) s :
  P sep → Forall P (concat (str_split sep k s)) → Forall P s.
Proof.
  intros Hsep. revert s. induction k as [|k IH]; intros s; cbn.
  - by rewrite app_nil_r.
  - destruct (break_at_spec sep s) as [_ Hs].
    destruct (break_at sep s) as [a [r|]]; cbn in *.
    + intros [Ha Hr]%Forall_app. rewrite Hs.
      apply Forall_app. split; [done|]. constructor; [done|]. by apply IH.
    + rewrite !app_nil_r in *. by rewrite <-Hs.
Qed.

Lemma lstrip_spec (s : list ascii) :
  ∃ pad, Forall (λ c, is_space c = true) pad ∧ s = pad ++ lstrip s.
Proof.
  induction s as [|c s (pad & Hpad & Hs)]; [by exists []|]. cbn.
  destruct (is_space c) eqn:Hc.
  - exists (c :: pad). split; [by constructor|]. cbn. by f_equal.
  - by exists [].
Qed.

Lemma lstrip_app (pad s : list ascii) :
  Forall (λ c, is_space c = true) pad → lstrip (pad ++ s) = lstrip s.
Proof. induction 1 as [|c pad Hc _ IH]; [done|]. cbn. by rewrite Hc. Qed.

Lemma lstrip_head (c : ascii) (s : list ascii) :
  is_space c = false → lstrip (c :: s) = c :: s.
Proof. intros Hc. cbn. by rewrite Hc. Qed.

Lemma py_strip_spec (s : list ascii) :
  ∃ p1 p2, Forall (λ c, is_space c = true) p1 ∧
           Forall (λ c, is_space c = true) p2 ∧
           s = p1 ++ py_strip s ++ p2.
Proof.
  destruct (lstrip_spec s) as (p1 & Hp1 & Hs).
  destruct (lstrip_spec (reverse (lstrip s))) as (p2 & Hp2 & Hr).
  exists p1, (reverse p2). split; [done|]. split; [by apply Forall_reverse|].
  unfold py_strip. rewrite <-reverse_app, <-Hr, reverse_involutive. done.
Qed.

(** Stripping removes the padding around text that neither starts nor ends
    with whitespace. *)
Lemma py_strip_padded (p1 p2 s : list ascii) (a b : ascii) (m : list ascii) :
  Forall (λ c, is_space c = true) p1 → Forall (λ c, is_space c = true) p2 →
  is_space a = false → is_space b = false →
  s = a :: m → (∃ m', s = m' ++ [b]) →
  py_strip (p1 ++ s ++ p2) = s.
Proof.
  intros Hp1 Hp2 Ha Hb -> [m' Hm']. unfold py_strip.
  rewrite lstrip_app, <-app_comm_cons, lstrip_head by done.
  rewrite app_comm_cons, Hm', reverse_app, reverse_app. cbn.
  rewrite lstrip_app by (by apply Forall_reverse).
  rewrite lstrip_head by done.
  by rewrite reverse_cons, reverse_involutive.
Qed.

(** The text of an integer: an optional minus sign and a non-empty run of
    digits that [Z.of_int] reads back; the digits are the text of the
    absolute value. *)
Lemma int_text_shape (n : Z) :
  ∃ d, int_text n
       = (if decide (n < 0) then ["-"%char] else [])
         ++ list_ascii_of_string (NilEmpty.string_of_uint d) ∧
       int_text (Z.abs n) = list_ascii_of_string (NilEmpty.string_of_uint d) ∧
       list_ascii_of_string (NilEmpty.string_of_uint d) ≠ [] ∧
       Z.of_int (if decide (n < 0) then Decimal.Neg d else Decimal.Pos d) = n.
Proof.
  unfold int_text. destruct n as [|p|p].
  - exists (Decimal.D0 Decimal.Nil). by cbn.
  - exists (Pos.to_uint p). pose proof (DecimalPos.Unsigned.to_uint_nonnil p) as Hnn.
    destruct (decide (Z.pos p < 0)) as [|_]; [lia|].
    split; [|split; [|split]].
    + cbn. unfold NilZero.string_of_uint. by destruct (Pos.to_uint p).
    + change (Z.abs (Z.pos p)) with (Z.pos p). cbn [Z.to_int].
      cbn [NilZero.string_of_int]. unfold NilZero.string_of_uint.
      by destruct (Pos.to_uint p).
    + by destruct (Pos.to_uint p).
    + apply (DecimalZ.of_to (Z.pos p)).
  - exists (Pos.to_uint p). pose proof (DecimalPos.Unsigned.to_uint_nonnil p) as Hnn.
    destruct (decide (Z.neg p < 0)) as [_|]; [|lia].
    split; [|split; [|split]].
    + cbn. unfold NilZero.string_of_uint. by destruct (Pos.to_uint p).
    + change (Z.abs (Z.neg p)) with (Z.pos p). cbn [Z.to_int].
      cbn [NilZero.string_of_int]. unfold NilZero.string_of_uint.
      by destruct (Pos.to_uint p).
    + by destruct (Pos.to_uint p).
    + apply (DecimalZ.of_to (Z.neg p)).
Qed.

Lemma int_text_no_comma (n : Z) : ","%char ∉ int_text n.
Proof.
  destruct (int_text_shape n) as (d & -> & _ & _ & _).
  intros [Hin|Hin]%elem_of_app.
  - destruct (decide (n < 0)); [|by apply elem_of_nil in Hin].
    by apply list_elem_of_singleton in Hin.
  - pose proof (string_of_uint_digits d) as Hd.
    rewrite Forall_forall in Hd. apply Hd, is_digit_cases in Hin. tauto.
Qed.

(** [int] reads the text of an integer back, whatever whitespace is put
    around it, unless the interpreter's limit refuses its digits. *)
Lemma py_int_text (m n : Z) (p1 p2 : list ascii) :
  Forall (λ c, is_space c = true) p1 → Forall (λ c, is_space c = true) p2 →
  py_int m (p1 ++ int_text n ++ p2)
  = if decide (exceeds_max_str_digits m (num_digits n))
    then Raise ValueError else Ok n.
Proof.
  intros Hp1 Hp2.
  destruct (int_text_shape n) as (d & Hs & Habs & Hne & Hval).
  pose proof (string_of_uint_digits d) as Hd.
  unfold num_digits. rewrite Habs.
  set (digs := list_ascii_of_string (NilEmpty.string_of_uint d)) in *.
  destruct digs as [|c0 digs'] eqn:Hdigs; [done|].
  assert (∃ m' b, c0 :: digs' = m' ++ [b]) as (m' & b & Hlast).
  { destruct (@exists_last _ (c0 :: digs') ltac:(done)) as (m' & b & ->).
    eauto. }
  assert (is_digit c0) as Hc0 by (by inv Hd).
  assert (is_digit b) as Hb.
  { rewrite Hlast in Hd. apply Forall_app in Hd as [_ Hd]. by inv Hd. }
  apply is_digit_cases in Hc0 as (Hc0s & _ & _ & Hc0m & Hc0p).
  apply is_digit_cases in Hb as (Hbs & _).
  assert ("_"%char ∉ c0 :: digs') as Hus.
  { intros Hin. rewrite Forall_forall in Hd.
    apply Hd, is_digit_cases in Hin. tauto. }
  unfold py_int.
  assert (py_strip (p1 ++ int_text n ++ p2) = int_text n) as ->.
  { rewrite Hs. destruct (decide (n < 0)).
    - apply (py_strip_padded p1 p2 _ "-"%char b (c0 :: digs')); try done.
      exists ("-"%char :: m'). cbn. by rewrite Hlast.
    - apply (py_strip_padded p1 p2 _ c0 b digs'); try done. eauto. }
  rewrite Hs.
  destruct (decide (n < 0)); cbn [app].
  - destruct (decide ("-"%char = "-"%char)); [|done].
    rewrite str_split_no_sep by done. cbn [forallb concat].
    rewrite bool_decide_eq_true_2 by done. cbn [andb].
    rewrite app_nil_r, <-Hdigs. unfold digs.
    rewrite string_of_list_ascii_of_string, NilEmpty.usu. by rewrite Hval.
  - destruct (decide (c0 = "-"%char)); [done|].
    destruct (decide (c0 = "+"%char)); [done|].
    rewrite str_split_no_sep by done. cbn [forallb concat].
    rewrite bool_decide_eq_true_2 by done. cbn [andb].
    rewrite app_nil_r, <-Hdigs. unfold digs.
    rewrite string_of_list_ascii_of_string, NilEmpty.usu. by rewrite Hval.
Qed.

(** *** The number of digits and the size of the number *)

Lemma length_string_of_uint (d : Decimal.uint) :
  length (list_ascii_of_string (NilEmpty.string_of_uint d))
  = Decimal.nb_digits d.
Proof. induction d; cbn; by f_equal. Qed.

(** The accumulator of [Pos.of_uint_acc] is shifted by one decimal place
    for every digit read. *)
Lemma of_uint_acc_bounds (d : Decimal.uint) (acc : positive) :
  Z.pos acc * 10 ^ Z.of_nat (Decimal.nb_digits d)
  ≤ Z.pos (Pos.of_uint_acc d acc)
  < (Z.pos acc + 1) * 10 ^ Z.of_nat (Decimal.nb_digits d).
Proof.
  revert acc. induction d as [|d IH|d IH|d IH|d IH|d IH|d IH|d IH|d IH|d IH|d IH];
    intros acc; cbn [Pos.of_uint_acc Decimal.nb_digits];
    [cbn; lia|..];
    rewrite Nat2Z.inj_succ, Z.pow_succ_r by lia;
    match goal with
    | |- _ ≤ Z.pos (Pos.of_uint_acc d ?a) < _ =>
        specialize (IH a);
        assert (0 < 10 ^ Z.of_nat (Decimal.nb_digits d))
          by (apply Z.pow_pos_nonneg; lia);
        nia
    end.
Qed.

(** A text of digits without a leading zero denotes a number between the
    powers of ten of its length. *)
Lemma of_uint_bounds (d : Decimal.uint) :
  d ≠ Decimal.Nil → Decimal.nzhead d = d →
  10 ^ (Z.of_nat (Decimal.nb_digits d) - 1) ≤ Z.of_N (Pos.of_uint d)
  < 10 ^ Z.of_nat (Decimal.nb_digits d).
Proof.
  intros Hnil Hnz.
  destruct d as [|d|d|d|d|d|d|d|d|d|d]; [done|..];
    [exfalso; cbn in Hnz;
     pose proof (nb_digits_nzhead d) as Hle; rewrite Hnz in Hle;
     cbn in Hle; lia|..];
    cbn [Pos.of_uint Decimal.nb_digits Z.of_N];
    rewrite Nat2Z.inj_succ, Z.pow_succ_r by lia;
    replace (Z.succ (Z.of_nat (Decimal.nb_digits d)) - 1)
      with (Z.of_nat (Decimal.nb_digits d)) by lia;
    match goal with
    | |- _ ≤ Z.pos (Pos.of_uint_acc d ?a) < _ =>
        pose proof (of_uint_acc_bounds d a);
        assert (0 < 10 ^ Z.of_nat (Decimal.nb_digits d))
          by (apply Z.pow_pos_nonneg; lia);
        nia
    end.
Qed.

(** [n] has [num_digits n] digits: it lies between the powers of ten. *)
Lemma num_digits_bounds (n : Z) :
  (0 < num_digits n)%nat ∧
  Z.abs n < 10 ^ Z.of_nat (num_digits n) ∧
  (n ≠ 0 → 10 ^ (Z.of_nat (num_digits n) - 1) ≤ Z.abs n).
Proof.
  unfold num_digits, int_text.
  destruct (Z.abs n) as [|p|p] eqn:Habs; [|clear Habs|lia].
  { cbn. split; [lia|]. split; [lia|]. lia. }
  cbn [Z.to_int NilZero.string_of_int].
  pose proof (DecimalPos.Unsigned.to_uint_nonnil p) as Hnn.
  assert (NilZero.string_of_uint (Pos.to_uint p)
          = NilEmpty.string_of_uint (Pos.to_uint p)) as ->.
  { unfold NilZero.string_of_uint. by destruct (Pos.to_uint p). }
  rewrite length_string_of_uint.
  assert (Decimal.nzhead (Pos.to_uint p) = Pos.to_uint p) as Hnz.
  { pose proof (DecimalPos.Unsigned.to_of (Pos.to_uint p)) as Hto.
    rewrite DecimalPos.Unsigned.of_to in Hto. cbn [N.to_uint] in Hto.
    unfold Decimal.unorm in Hto.
    destruct (Decimal.nzhead (Pos.to_uint p)) eqn:Hh; try done.
    exfalso. by apply (Unsigned.to_uint_nonzero p). }
  pose proof (of_uint_bounds _ Hnn Hnz) as Hb.
  rewrite DecimalPos.Unsigned.of_to in Hb. cbn [Z.of_N] in Hb.
  split; [|lia].
  destruct (Decimal.nb_digits (Pos.to_uint p)) eqn:Hnb; [|lia].
  by apply nb_digits_0 in Hnb.
Qed.

(** [n] has at most [k] digits exactly when [|n| < 10 ^ k]. *)
Lemma num_digits_le (n : Z) (k : Z) :
  0 < k → Z.of_nat (num_digits n) ≤ k ↔ Z.abs n < 10 ^ k.
Proof.
  intros Hk. destruct (num_digits_bounds n) as (Hpos & Hlt & Hge). split.
  - intros Hle. eapply Z.lt_le_trans; [exact Hlt|].
    apply Z.pow_le_mono_r; lia.
  - intros Hn. destruct (decide (n = 0)) as [->|Hne].
    + change (num_digits 0) with 1%nat. lia.
    + specialize (Hge Hne). apply Z.nlt_ge. intros Hgt.
      assert (10 ^ k ≤ 10 ^ (Z.of_nat (num_digits n) - 1)); [|lia].
      apply Z.pow_le_mono_r; lia.
Qed.

(** The interpreter's limit refuses [n] exactly when the limit is set and
    [|n|] reaches ten to the power of the limit. *)
Lemma exceeds_max_str_digits_num (m n : Z) :
  exceeds_max_str_digits m (num_digits n)
  ↔ 0 < m ∧ 10 ^ (m `max` max_str_digits_threshold) ≤ Z.abs n.
Proof.
  unfold exceeds_max_str_digits.
  pose proof (num_digits_le n (m `max` max_str_digits_threshold)
                ltac:(unfold max_str_digits_threshold; lia)) as Hle.
  unfold max_str_digits_threshold in *. lia.
Qed.

Lemma py_int_cases (m : Z) (s : list ascii) :
  (∃ n, py_int m s = Ok n) ∨ py_int m s = Raise ValueError.
Proof.
  unfold py_int.
  destruct (match py_strip s with
            | [] => (false, py_strip s)
            | c :: b =>
                if decide (c = "-"%char) then (true, b)
                else if decide (c = "+"%char) then (false, b)
                else (false, py_strip s)
            end) as [neg body].
  destruct (forallb _ _); [|by right].
  destruct (NilEmpty.uint_of_string _); [|by right].
  destruct (decide (exceeds_max_str_digits _ _)); eauto.
Qed.

(** Digits and underscores hold no comma. *)
Lemma int_body_no_comma (body : list ascii) (d : Decimal.uint) :
  NilEmpty.uint_of_string
    (string_of_list_ascii (concat (str_split "_" (length body) body)))
  = Some d →
  ","%char ∉ body.
Proof.
  intros Hd%uint_of_string_digits.
  rewrite list_ascii_of_string_of_list_ascii in Hd.
  assert (Forall (λ c, c ≠ ","%char) body) as Hall.
  { apply (str_split_Forall _ "_"%char (length body)); [done|].
    eapply Forall_impl; [exact Hd|]. intros c Hc%is_digit_cases. tauto. }
  intros Hin. rewrite Forall_forall in Hall. by apply Hall in Hin.
Qed.

(** A text that [int] accepts holds no comma. *)
Lemma py_int_no_comma (m : Z) (s : list ascii) (n : Z) :
  py_int m s = Ok n → ","%char ∉ s.
Proof.
  unfold py_int. intros H.
  destruct (py_strip_spec s) as (p1 & p2 & Hp1 & Hp2 & Hs).
  assert (∀ p, Forall (λ c, is_space c = true) p → ","%char ∉ p) as Hpad.
  { intros p Hp Hin. rewrite Forall_forall in Hp. by apply Hp in Hin. }
  assert (","%char ∉ py_strip s) as Hstrip.
  { destruct (py_strip s) as [|c b] eqn:Hst; [apply not_elem_of_nil|].
    destruct (decide (c = "-"%char)) as [->|Hm].
    - apply not_elem_of_cons. split; [done|].
      destruct (forallb _ _); [|done].
      destruct (NilEmpty.uint_of_string _) as [d|] eqn:Hd; [|done].
      by apply (int_body_no_comma b d).
    - destruct (decide (c = "+"%char)) as [->|Hp].
      + apply not_elem_of_cons. split; [done|].
        destruct (forallb _ _); [|done].
        destruct (NilEmpty.uint_of_string _) as [d|] eqn:Hd; [|done].
        by apply (int_body_no_comma b d).
      + destruct (forallb _ _); [|done].
        destruct (NilEmpty.uint_of_string _) as [d|] eqn:Hd; [|done].
        by apply (int_body_no_comma (c :: b) d). }
  rewrite Hs. rewrite !not_elem_of_app. auto.
Qed.

Lemma replicate_space (k : nat) :
  Forall (λ c, is_space c = true) (replicate k " "%char).
Proof. by apply Forall_replicate. Qed.

Lemma str_split_three (f1 f2 f3 : list ascii) :
  ","%char ∉ f1 → ","%char ∉ f2 →
  str_split "," 2 (f1 ++ ","%char :: f2 ++ ","%char :: f3) = [f1; f2; f3].
Proof.
  intros H1 H2. cbn. rewrite break_at_app by done.
  by rewrite break_at_app by done.
Qed.

(** [str] of an integer returns its text unless the limit is set and the
    number reaches ten to the power of the limit. *)
Lemma py_str_int_cases (m n : Z) :
  (m ≤ 0 ∨ Z.abs n < 10 ^ (m `max` max_str_digits_threshold) →
   py_str_int m n = Ok (int_text n) ∧
   ¬ exceeds_max_str_digits m (num_digits n)) ∧
  (¬ (m ≤ 0 ∨ Z.abs n < 10 ^ (m `max` max_str_digits_threshold)) →
   py_str_int m n = Raise ValueError).
Proof.
  unfold py_str_int. pose proof (exceeds_max_str_digits_num m n) as Hex.
  destruct (decide (exceeds_max_str_digits m (num_digits n))) as [He|He].
  - split; [|done]. intros Hfit. apply Hex in He. lia.
  - split; [done|]. intros Hfit. destruct He. apply Hex. lia.
Qed.

(** Parsing the text of a Vector gives the Vector back:
    [Vector.from_string(str(v)) == v], also when blanks surround the three
    numbers, as in ['1, 2, 3'], for every Vector whose components the
    interpreter converts to text: with the limit [m] of the interpreter
    set (4300 by default), those of at most [max(m, 640)] digits, that is
    [|n| < 10 ** max(m, 640)]; every integer when the limit is off.  For
    any other Vector [str(v)] raises ValueError. *)
Theorem Vector_from_string_str :
  ∀ (m : Z) (v : Vector) (k1 k2 k3 k4 k5 k6 : nat),
    let fits n := m ≤ 0 ∨ Z.abs n < 10 ^ (m `max` max_str_digits_threshold) in
    (fits (x v) ∧ fits (y v) ∧ fits (z v) →
     Vector_str m v
     = Ok (int_text (x v) ++ ","%char :: int_text (y v)
           ++ ","%char :: int_text (z v)) ∧
     (s ← Vector_str m v; Vector_from_string m s) = Ok v ∧
     Vector_from_string m
       ((replicate k1 " "%char ++ int_text (x v) ++ replicate k2 " "%char)
        ++ ","%char ::
        (replicate k3 " "%char ++ int_text (y v) ++ replicate k4 " "%char)
        ++ ","%char ::
        (replicate k5 " "%char ++ int_text (z v) ++ replicate k6 " "%char))
     = Ok v) ∧
    (¬ (fits (x v) ∧ fits (y v) ∧ fits (z v)) →
     Vector_str m v = Raise ValueError ∧
     (s ← Vector_str m v; Vector_from_string m s) = Raise ValueError).
Proof.
  intros m v k1 k2 k3 k4 k5 k6 fits.
  destruct (py_str_int_cases m (x v)) as [Hx Hx'].
  destruct (py_str_int_cases m (y v)) as [Hy Hy'].
  destruct (py_str_int_cases m (z v)) as [Hz Hz'].
  fold (fits (x v)) in Hx, Hx'. fold (fits (y v)) in Hy, Hy'.
  fold (fits (z v)) in Hz, Hz'. split.
  - intros (Hfx & Hfy & Hfz).
    destruct (Hx Hfx) as [Hsx Hnx]. destruct (Hy Hfy) as [Hsy Hny].
    destruct (Hz Hfz) as [Hsz Hnz].
    assert (∀ k1 k2 k3 k4 k5 k6 : nat,
      Vector_from_string m
        ((replicate k1 " "%char ++ int_text (x v) ++ replicate k2 " "%char)
         ++ ","%char ::
         (replicate k3 " "%char ++ int_text (y v) ++ replicate k4 " "%char)
         ++ ","%char ::
         (replicate k5 " "%char ++ int_text (z v) ++ replicate k6 " "%char))
      = Ok v) as Hpad.
    { intros j1 j2 j3 j4 j5 j6. unfold Vector_from_string.
      assert (∀ k, ","%char ∉ replicate k " "%char) as Hsp.
      { intros k [[=] _]%elem_of_replicate. }
      rewrite str_split_three
        by (rewrite !not_elem_of_app; auto using int_text_no_comma).
      rewrite !py_int_text by apply replicate_space.
      destruct (decide (exceeds_max_str_digits m (num_digits (x v))));
        [done|].
      destruct (decide (exceeds_max_str_digits m (num_digits (y v))));
        [done|].
      destruct (decide (exceeds_max_str_digits m (num_digits (z v))));
        [done|].
      cbn. by destruct v. }
    assert (Vector_str m v
            = Ok (int_text (x v) ++ ","%char :: int_text (y v)
                  ++ ","%char :: int_text (z v))) as Hstr.
    { unfold Vector_str. by rewrite Hsx, Hsy, Hsz. }
    split; [done|]. split; [|apply Hpad].
    rewrite Hstr. cbn [mbind pyresult_bind].
    specialize (Hpad 0 0 0 0 0 0)%nat. cbn [replicate app] in Hpad.
    rewrite !app_nil_r in Hpad. exact Hpad.
  - intros Hnot.
    assert (Vector_str m v = Raise ValueError) as Hstr.
    { unfold Vector_str.
      destruct (decide (fits (x v))) as [Hfx|Hfx]; [|by rewrite Hx'].
      destruct (Hx Hfx) as [-> _]. cbn [mbind pyresult_bind].
      destruct (decide (fits (y v))) as [Hfy|Hfy]; [|by rewrite Hy'].
      destruct (Hy Hfy) as [-> _]. cbn [mbind pyresult_bind].
      destruct (decide (fits (z v))) as [Hfz|Hfz]; [|by rewrite Hz'].
      by destruct Hnot. }
    by rewrite Hstr.
Qed.

Lemma Vector_from_string_str_witness :
  (s ← Vector_str default_max_str_digits (mkVector 10 (-2) 0);
   Vector_from_string default_max_str_digits s) = Ok (mkVector 10 (-2) 0) ∧
  Vector_str default_max_str_digits (mkVector (10 ^ 4300) 0 0)
  = Raise ValueError.
Proof.
  assert (0 < 10 ^ 4300) as Hbig by (apply Z.pow_pos_nonneg; lia).
  assert (∀ n, Z.abs n < 10 → Z.abs n < 10 ^ 4300) as Hsmall.
  { intros n Hn. eapply Z.lt_le_trans; [exact Hn|].
    change 10 with (10 ^ 1) at 1. apply Z.pow_le_mono_r; lia. }
  split.
  - apply (proj1 (Vector_from_string_str default_max_str_digits
                    (mkVector 10 (-2) 0) 0 0 0 0 0 0)).
    change (default_max_str_digits `max` max_str_digits_threshold)
      with 4300.
    cbn [x y z].
    repeat split; right.
    + eapply Z.lt_le_trans; [|apply (Z.pow_le_mono_r 10 2 4300); lia]. lia.
    + apply Hsmall. lia.
    + apply Hsmall. lia.
  - apply (proj2 (Vector_from_string_str default_max_str_digits
                    (mkVector (10 ^ 4300) 0 0) 0 0 0 0 0 0)).
    change (default_max_str_digits `max` max_str_digits_threshold)
      with 4300.
    cbn [x y z]. unfold default_max_str_digits.
    revert Hbig. generalize (10 ^ 4300). intros big Hbig [[H|H] _]; lia.
Defined.

(** [Vector.from_string] returns a Vector or raises ValueError.  It raises
    when the text has fewer than two commas; when it returns, the text has
    exactly two commas and [int] reads the three fields between them as the
    components. *)
Theorem Vector_from_string_fields :
  ∀ (m : Z) (s : list ascii),
    ((∃ v, Vector_from_string m s = Ok v) ∨
     Vector_from_string m s = Raise ValueError) ∧
    ((length (filter (λ c, c = ","%char) s) < 2)%nat →
     Vector_from_string m s = Raise ValueError) ∧
    (∀ v, Vector_from_string m s = Ok v →
       length (filter (λ c, c = ","%char) s) = 2%nat ∧
       ∃ sx sy sz,
         s = sx ++ ","%char :: sy ++ ","%char :: sz ∧
         py_int m sx = Ok (x v) ∧ py_int m sy = Ok (y v) ∧
         py_int m sz = Ok (z v)).
Proof.
  intros m s.
  assert (∀ l : list ascii, ","%char ∉ l →
            filter (λ c, c = ","%char) l = []) as Hnone.
  { intros l Hl. induction l as [|c l IH]; [done|].
    apply not_elem_of_cons in Hl as [Hne Hl].
    rewrite filter_cons_False by congruence. by apply IH. }
  unfold Vector_from_string. cbn [str_split].
  destruct (break_at_spec ","%char s) as [Hn1 Hs1].
  destruct (break_at ","%char s) as [f1 [r1|]]; cbn [fst snd] in *; cycle 1.
  { split; [by right|]. split; [done|]. done. }
  destruct (break_at_spec ","%char r1) as [Hn2 Hs2].
  destruct (break_at ","%char r1) as [f2 [r2|]]; cbn [fst snd] in *; cycle 1.
  { split; [by right|]. split; [done|]. done. }
  split; [|split].
  - destruct (py_int_cases m f1) as [[a ->]| ->]; [|by right].
    destruct (py_int_cases m f2) as [[b ->]| ->]; [|by right].
    destruct (py_int_cases m r2) as [[c ->]| ->]; [|by right].
    left. by eexists.
  - intros Hlt. exfalso. revert Hlt. rewrite Hs1, Hs2.
    rewrite filter_app, filter_cons_True, filter_app, filter_cons_True
      by done.
    rewrite length_app. cbn [length]. rewrite length_app. cbn [length]. lia.
  - intros v Hv.
    destruct (py_int m f1) as [a|] eqn:Ha; [|done].
    destruct (py_int m f2) as [b|] eqn:Hb; [|done].
    destruct (py_int m r2) as [c|] eqn:Hc; [|done].
    cbn in Hv. injection Hv as <-. cbn [x y z].
    pose proof (py_int_no_comma _ _ _ Hc) as Hnc. split.
    + rewrite Hs1, Hs2.
      rewrite filter_app, filter_cons_True, filter_app, filter_cons_True
        by done.
      rewrite (Hnone f1), (Hnone f2), (Hnone r2) by done. done.
    + exists f1, f2, r2. split; [by rewrite Hs1, Hs2|done].
Qed.

Lemma Vector_from_string_fields_witness :
  Vector_from_string default_max_str_digits (list_ascii_of_string "1")
  = Raise ValueError ∧
  Vector_from_string default_max_str_digits (list_ascii_of_string "(1,2,3)")
  = Raise ValueError ∧
  length (filter (λ c, c = ","%char) (list_ascii_of_string "1, 2, 3"))
    = 2%nat.
Proof.
  split; [|split].
  - apply (proj1 (proj2 (Vector_from_string_fields default_max_str_digits
                           (list_ascii_of_string "1")))).
    vm_compute. lia.
  - reflexivity.
  - apply (proj2 (proj2 (Vector_from_string_fields default_max_str_digits
                           (list_ascii_of_string "1, 2, 3")))
             (mkVector 1 2 3)).
    reflexivity.
Defined.

(** [int] of the model on texts whose value the interpreter gives. *)
Example py_int_examples :
  let int := py_int default_max_str_digits in
  int (list_ascii_of_string "42") = Ok 42 ∧
  int (list_ascii_of_string "  -17 ") = Ok (-17) ∧
  int (list_ascii_of_string "+007") = Ok 7 ∧
  int (list_ascii_of_string "1_000") = Ok 1000 ∧
  int (list_ascii_of_string "-0") = Ok 0 ∧
  int (list_ascii_of_string "") = Raise ValueError ∧
  int (list_ascii_of_string "-") = Raise ValueError ∧
  int (list_ascii_of_string "- 1") = Raise ValueError ∧
  int (list_ascii_of_string "1__0") = Raise ValueError ∧
  int (list_ascii_of_string "_1") = Raise ValueError ∧
  int (list_ascii_of_string "1_") = Raise ValueError ∧
  int (list_ascii_of_string "1 2") = Raise ValueError ∧
  int (list_ascii_of_string "1.5") = Raise ValueError ∧
  int (list_ascii_of_string "(1") = Raise ValueError.
Proof. by vm_compute. Qed.

(** The interpreter's limit at its default, on texts that need no long
    arithmetic: 4301 digits are refused, leading zeros and digits between
    underscores are counted, the sign and the blanks are not, and nothing
    is refused with the limit off; at the smallest limit that can be set,
    640 digits pass in both directions and 641 do not. *)
Example max_str_digits_examples :
  py_int default_max_str_digits (replicate 4301 "1"%char)
  = Raise ValueError ∧
  py_int default_max_str_digits (replicate 4301 "0"%char)
  = Raise ValueError ∧
  py_int default_max_str_digits
    (replicate 4300 "0"%char ++ list_ascii_of_string "_0")
  = Raise ValueError ∧
  py_int default_max_str_digits
    (list_ascii_of_string " -" ++ replicate 4300 "0"%char
     ++ list_ascii_of_string " ") = Ok 0 ∧
  py_int 0 (replicate 4301 "0"%char) = Ok 0 ∧
  py_int 640 (replicate 640 "9"%char) = Ok (10 ^ 640 - 1) ∧
  py_int 640 (replicate 641 "9"%char) = Raise ValueError ∧
  py_str_int 640 (10 ^ 640 - 1) = Ok (replicate 640 "9"%char) ∧
  py_str_int 640 (10 ^ 640) = Raise ValueError ∧
  py_str_int 640 (- 10 ^ 640) = Raise ValueError ∧
  is_ok (py_str_int 0 (10 ^ 640)) = true.
Proof. by vm_compute. Qed.

(** ** Reversed iteration *)

Lemma mapM_Ok_Forall2 {A B} (f : A → pyresult B) l k :
  mapM f l = Ok k ↔ Forall2 (λ a b, f a = Ok b) l k.
Proof.
  revert k. induction l as [|a l IH]; intros k.
  - rewrite mapM_nil_Ok. split; [intros ->; constructor|by inv 1].
  - rewrite mapM_cons_Ok. split.
    + intros (b & k' & Hb & Hk' & ->). constructor; [done|by apply IH].
    + inv 1 as [|? b ? k' Hb Hk']. exists b, k'. by rewrite IH.
Qed.

Lemma vector_range_reversed_spec (r : vector_range) (ys : list Vector) :
  vector_range_reversed r = Ok ys ↔ vector_range_iter r = Ok (reverse ys).
Proof.
  unfold vector_range_reversed, vector_range_iter.
  destruct (vector_range_len r) as [n|e]; [|done]. cbn [mbind pyresult_bind].
  rewrite !mapM_Ok_Forall2. split.
  - intros H%Forall2_reverse. by rewrite reverse_involutive in H.
  - intros H%Forall2_reverse. by rewrite reverse_involutive in H.
Qed.

(** [list(reversed(r))] is the reverse of [list(r)]: either both complete,
    and then each is the other reversed (so reversing twice gives [list(r)]
    back and the two have the same length), or neither does. *)
Theorem vector_range_reversed_iter :
  ∀ (r : vector_range) (xs ys : list Vector),
    (vector_range_reversed r = Ok ys ↔ vector_range_iter r = Ok (reverse ys)) ∧
    (vector_range_iter r = Ok xs ↔ vector_range_reversed r = Ok (reverse xs)) ∧
    (vector_range_iter r = Ok xs → vector_range_reversed r = Ok ys →
     ys = reverse xs ∧ length ys = length xs) ∧
    (is_ok (vector_range_reversed r) = is_ok (vector_range_iter r)).
Proof.
  intros r xs ys. split; [apply vector_range_reversed_spec|].
  split; [by rewrite vector_range_reversed_spec, reverse_involutive|].
  split.
  - intros Hxs Hys%vector_range_reversed_spec.
    assert (xs = reverse ys) as -> by congruence.
    by rewrite reverse_involutive, length_reverse.
  - destruct (vector_range_reversed r) as [ys'|] eqn:Hrev.
    + apply vector_range_reversed_spec in Hrev. by rewrite Hrev.
    + destruct (vector_range_iter r) as [xs'|] eqn:Hit; [|done].
      rewrite <-(reverse_involutive xs') in Hit.
      apply vector_range_reversed_spec in Hit. congruence.
Qed.

Lemma range_len_range2 (a b : Z) :
  range_len (range2 a b) = if decide (a < b) then b - a else 0.
Proof.
  unfold range_len, range2. destruct (decide (0 < 1)); [|lia].
  destruct (decide (a < b)); [rewrite Z.div_1_r|]; lia.
Qed.

(** Reading a list at the indices of a unit-step range of valid indices
    takes the corresponding stretch of the list. *)
Lemma mapM_getitem_stretch {A} (l : list A) (a len : nat) :
  (a + len ≤ length l)%nat →
  mapM (λ p, list_getitem l (Z.to_nat p))
    (range_elements (range2 (Z.of_nat a) (Z.of_nat (a + len))))
  = Ok (take len (drop a l)).
Proof.
  intros Hle. apply mapM_Ok_Forall2.
  assert (range_len (range2 (Z.of_nat a) (Z.of_nat (a + len)))
          = Z.of_nat len) as Hlen.
  { rewrite range_len_range2.
    destruct (decide (Z.of_nat a < Z.of_nat (a + len))); lia. }
  unfold range_elements. rewrite Hlen. apply Forall2_fmap_l.
  apply Forall2_same_length_lookup. split.
  - rewrite length_seqZ, length_take, length_drop. lia.
  - intros i p b [-> Hi]%lookup_seqZ Hb.
    cbn [compose range_start range_step range2].
    rewrite lookup_take_lt, lookup_drop in Hb by lia.
    unfold list_getitem.
    replace (Z.to_nat (Z.of_nat a + (0 + Z.of_nat i) * 1)) with (a + i)%nat
      by lia.
    by rewrite Hb.
Qed.

(** Reading a list at the indices [n - 1, ..., 0] reverses it. *)
Lemma mapM_getitem_backwards {A} (l : list A) :
  mapM (λ p, list_getitem l (Z.to_nat p))
    (range_elements (PyRange (Z.of_nat (length l) - 1) (-1) (-1)))
  = Ok (reverse l).
Proof.
  apply mapM_Ok_Forall2.
  assert (range_len (PyRange (Z.of_nat (length l) - 1) (-1) (-1))
          = Z.of_nat (length l)) as Hlen.
  { unfold range_len. destruct (decide (0 < -1)); [lia|].
    destruct (decide (-1 < Z.of_nat (length l) - 1)); [|lia].
    change (- -1) with 1. rewrite Z.div_1_r. lia. }
  unfold range_elements. rewrite Hlen. apply Forall2_fmap_l.
  apply Forall2_same_length_lookup. split.
  - rewrite length_seqZ, length_reverse. lia.
  - intros i p b [-> Hi]%lookup_seqZ Hb.
    cbn [compose range_start range_step].
    rewrite reverse_lookup in Hb by lia. unfold list_getitem.
    replace (Z.to_nat (Z.of_nat (length l) - 1 + (0 + Z.of_nat i) * -1))
      with (length l - S i)%nat by lia.
    by rewrite Hb.
Qed.

(** On a range returned by the constructor, the slice [r[::-1]] iterates
    the elements of [r] in reverse, as [reversed(r)] does. *)
Theorem vector_range_reverse_slice :
  ∀ start stop step order r elems,
    vector_range_init start stop step order None = Ok r →
    vector_range_iter r = Ok elems →
    vector_range_slice_list r (Slice None None (Some (-1)))
      = Ok (reverse elems) ∧
    vector_range_reversed r = Ok (reverse elems).
Proof.
  intros start stop step order r elems Hinit Hiter.
  assert (wf r) as Hwf by (by eapply vector_range_init_wf).
  assert (_slice r = None) as Hs.
  { by apply vector_range_init_Ok in Hinit as (_ & ? & ? & _ & _ & _ & ->). }
  split; [|by apply vector_range_reversed_spec; rewrite reverse_involutive].
  destruct (vector_range_iter_lookup r elems Hwf Hiter) as [Hn _].
  unfold vector_range_slice_list, vector_range_getslice.
  rewrite Hn. cbn [mbind pyresult_bind slice_start slice_stop slice_step].
  destruct (decide (-1 < 0)); [|lia]. unfold range3.
  destruct (decide (-1 = 0)); [lia|]. cbn [mbind pyresult_bind].
  replace (Z.of_nat (length elems) `min` (Z.of_nat (length elems) - 1))
    with (Z.of_nat (length elems) - 1) by lia.
  replace (Z.of_nat (length elems) `min` (-1)) with (-1) by lia.
  rewrite (vector_range_iter_window r _ elems Hwf Hs Hiter); [|done|].
  - apply mapM_getitem_backwards.
  - intros p (i & Hi & ->)%elem_of_range_elements.
    apply range_len_spec in Hi; [|done].
    cbn [range_start range_stop range_step] in *.
    destruct (decide (0 < -1)); lia.
Qed.

Lemma vector_range_reverse_slice_witness :
  ∃ r elems,
    cube 2 "xyz" = Ok r ∧ vector_range_iter r = Ok elems ∧
    vector_range_slice_list r (Slice None None (Some (-1)))
      = Ok (reverse elems).
Proof.
  eexists _, _. split; [by vm_compute|]. split; [by vm_compute|].
  apply (vector_range_reverse_slice (mkVector 2 2 2) None default_step "xyz");
    by vm_compute.
Defined.

(** ** Equality of ranges *)

Lemma range_eq_spec (a b : pyrange) :
  range_eq a b = true →
  range_len a = range_len b ∧
  ∀ i, 0 ≤ i < range_len a →
    range_start a + i * range_step a = range_start b + i * range_step b.
Proof.
  unfold range_eq. intros H.
  destruct (decide (range_len a ≠ range_len b)) as [|Hlen]; [done|].
  apply dec_stable in Hlen. split; [done|]. intros i Hi.
  destruct (decide (range_len a = 0)); [lia|].
  destruct (decide (range_start a ≠ range_start b)) as [|Hst]; [done|].
  apply dec_stable in Hst. rewrite Hst.
  destruct (decide (range_len a = 1)) as [Hone|_].
  - assert (i = 0) as -> by lia. lia.
  - apply bool_decide_eq_true in H. by rewrite H.
Qed.

Lemma range_eq_getitem (a b : pyrange) (i : Z) :
  range_eq a b = true → 0 ≤ i < range_len a →
  range_getitem a i = range_getitem b i.
Proof.
  intros [Hlen Hel]%range_eq_spec Hi. unfold range_getitem.
  rewrite <-Hlen. destruct (decide (i < 0)); [lia|].
  destruct (decide (0 ≤ i < range_len a)); [|lia]. by rewrite Hel.
Qed.

(** Two ranges that pass the identity test of [__eq__] iterate alike. *)
Lemma vector_range_identical_iter (r o : vector_range) :
  wf r → wf o →
  _start r = _start o → _stop r = _stop o → _step r = _step o →
  _order r = _order o → slice_eq (_slice r) (_slice o) = true →
  vector_range_iter r = vector_range_iter o.
Proof.
  intros Hr Ho Hstart Hstop Hstep Horder Hslice.
  assert (_ranges r = _ranges o) as Hranges.
  { pose proof (wf_ranges r Hr) as H1. pose proof (wf_ranges o Ho) as H2.
    rewrite Hstart, Hstop, Hstep, Horder in H1. congruence. }
  assert (_indexes r = _indexes o) as Hindexes.
  { pose proof (wf_indexes r Hr) as H1. pose proof (wf_indexes o Ho) as H2.
    rewrite Horder in H1. congruence. }
  destruct r as [s1 t1 p1 o1 rs1 is1 sl1], o as [s2 t2 p2 o2 rs2 is2 sl2].
  cbn in *. subst.
  destruct sl1 as [a|], sl2 as [b|]; try done.
  destruct (range_eq_spec a b Hslice) as [Hlen _].
  unfold vector_range_iter, vector_range_len. cbn [_slice mbind pyresult_bind].
  rewrite <-Hlen. apply mapM_ext_in. intros i Hi%elem_of_seqZ.
  unfold vector_range_getitem, vector_range_len.
  cbn [_slice _ranges _indexes mbind pyresult_bind]. rewrite <-Hlen.
  destruct (decide (i < 0)); [lia|].
  destruct (decide (¬ 0 ≤ i < range_len a)); [done|].
  by rewrite (range_eq_getitem a b i) by (done || lia).
Qed.

Section eq_loop.
Context (self other : pyiterable) (xs ys : list Vector).
Context (Hself : ∀ i : nat, iter_next self (Z.of_nat i) = Ok (xs !! i)).
Context (Hother : ∀ i : nat, iter_next other (Z.of_nat i) = Ok (ys !! i)).

(** The loop answers [True] exactly when no position differs. *)
Lemma eq_loop_spec (cnt j : nat) :
∃ b, eq_loop self other (seqZ (Z.of_nat j) (Z.of_nat cnt)) = Ok b ∧
     (b = true ↔ ∀ i, (j ≤ i < j + cnt)%nat → xs !! i = ys !! i).
Proof using Hself Hother.
revert j. induction cnt as [|cnt IH]; intros j.
- exists true. split; [done|]. split; [|done]. intros _ i Hi. lia.
- rewrite seqZ_of_nat_S. cbn [eq_loop]. rewrite Hself, Hother.
  cbn [mbind pyresult_bind].
  destruct (decide (xs !! j ≠ ys !! j)) as [Hne|Heq].
  + exists false. split; [done|]. split; [done|].
    intros Hall. destruct Hne. apply Hall. lia.
  + apply dec_stable in Heq. destruct (IH (S j)) as (b & Hb & Hiff).
    exists b. split; [done|]. rewrite Hiff. split.
    * intros Hall i Hi. destruct (decide (i = j)) as [->|]; [done|].
      apply Hall. lia.
    * intros Hall i Hi. apply Hall. lia.
Qed.
End eq_loop.

(** What [__eq__] decides: the identity shortcut and the element loop
    agree with the equality of the two element lists. *)
Lemma vector_range_eq_spec :
  ∀ r other xs ys,
    reachable r → reachable_iterable other →
    vector_range_iter r = Ok xs → iterable_list other = Ok ys →
    vector_range_eq r other = Ok (bool_decide (xs = ys)).
Proof.
  intros r other xs ys Hr Hother Hxs Hys.
  { unfold vector_range_eq.
    destruct (match other with
              | IterRange o => _
              | IterList _ => false
              end) eqn:Hid.
    - destruct other as [o|l]; [|done].
      apply andb_prop in Hid as [Hid Hsl].
      apply andb_prop in Hid as [Hid Hord].
      apply andb_prop in Hid as [Hid Hstep].
      apply andb_prop in Hid as [Hstart Hstop].
      apply bool_decide_eq_true in Hstart, Hstop, Hstep, Hord.
      cbn in Hother, Hys.
      rewrite (vector_range_identical_iter r o) in Hxs
        by (done || by apply reachable_wf).
      rewrite bool_decide_eq_true_2; [done|congruence].
    - pose proof (λ i, iter_next_lookup (IterRange r) xs i Hr Hxs) as Hnx.
      pose proof (λ i, iter_next_lookup other ys i Hother Hys) as Hny.
      assert (vector_range_len r = Ok (Z.of_nat (length xs))) as ->.
      { by apply vector_range_iter_lookup; [apply reachable_wf|]. }
      assert (iterable_len other = Ok (Z.of_nat (length ys))) as ->.
      { destruct other as [r2|l]; cbn in *.
        - by apply vector_range_iter_lookup; [apply reachable_wf|].
        - by injection Hys as <-. }
      cbn [mbind pyresult_bind].
      destruct (decide (Z.of_nat (length xs) ≠ Z.of_nat (length ys)))
        as [Hne|Hlen].
      + rewrite bool_decide_eq_false_2; [done|]. intros ->. lia.
      + apply dec_stable in Hlen.
        replace (Z.of_nat (length xs) `max` Z.of_nat (length ys))
          with (Z.of_nat (length xs)) by lia.
        change 0 with (Z.of_nat 0).
        destruct (eq_loop_spec _ _ xs ys Hnx Hny (length xs) 0)
          as (b & -> & Hiff).
        f_equal. apply eq_true_iff_eq. rewrite Hiff, bool_decide_eq_true.
        split.
        * intros Hall. apply list_eq. intros i.
          destruct (decide (i < length xs)%nat); [apply Hall; lia|].
          by rewrite !lookup_ge_None_2 by lia.
        * by intros ->. }
Qed.

(** For a range and a list or range whose iterations complete, [r == other]
    is [True] exactly when the two yield the same Vectors in the same order
    (so a range equals the list of its elements, and two ranges that differ
    in [order] are equal only when their sequences coincide); [!=] is the
    negation. *)
Theorem vector_range_eq_lists :
  ∀ r other xs ys,
    reachable r → reachable_iterable other →
    vector_range_iter r = Ok xs → iterable_list other = Ok ys →
    vector_range_eq r other = Ok (bool_decide (xs = ys)) ∧
    vector_range_ne r other = Ok (bool_decide (xs ≠ ys)).
Proof.
  intros r other xs ys Hr Hother Hxs Hys.
  pose proof (vector_range_eq_spec r other xs ys Hr Hother Hxs Hys) as Heq.
  split; [done|]. unfold vector_range_ne. rewrite Heq. cbn. f_equal.
  by destruct (decide (xs = ys));
    rewrite ?bool_decide_eq_true_2, ?bool_decide_eq_false_2 by done;
    [rewrite bool_decide_eq_false_2 by tauto
    |rewrite bool_decide_eq_true_2 by done].
Qed.

Lemma vector_range_eq_lists_witness :
  ∃ r1 r2 l,
    cube 2 "xyz" = Ok r1 ∧ cube 2 "zxy" = Ok r2 ∧
    vector_range_iter r1 = Ok l ∧
    vector_range_eq r1 (IterList l) = Ok true ∧
    vector_range_eq r1 (IterRange r2) = Ok false ∧
    vector_range_ne r1 (IterRange r2) = Ok true.
Proof.
  eexists _, _, _.
  split; [by vm_compute|]. split; [by vm_compute|]. split; [by vm_compute|].
  match goal with |- vector_range_eq ?r1 _ = _ ∧ vector_range_eq _ (IterRange ?r2) = _ ∧ _ =>
    assert (reachable r1) as H1;
      [by apply (reachable_init (mkVector 2 2 2) None default_step "xyz")|];
    assert (reachable r2) as H2;
      [by apply (reachable_init (mkVector 2 2 2) None default_step "zxy")|]
  end.
  split.
  - exact (proj1 (vector_range_eq_lists _ (IterList _) _ _ H1 I
                    eq_refl eq_refl)).
  - exact (vector_range_eq_lists _ (IterRange _) _ _ H1 H2 eq_refl eq_refl).
Defined.

(** ** [__lt__] on sequences of equal length *)

Lemma Vector_lt_asym (a b : Vector) :
  Vector_lt a b = true → Vector_lt b a = false.
Proof.
  unfold Vector_lt. intros H%bool_decide_eq_true.
  apply bool_decide_eq_false. lia.
Qed.

Lemma Vector_lt_trans (a b c : Vector) :
  Vector_lt a b = true → Vector_lt b c = true → Vector_lt a c = true.
Proof.
  unfold Vector_lt. intros H1%bool_decide_eq_true H2%bool_decide_eq_true.
  apply bool_decide_eq_true. lia.
Qed.

Lemma Vector_lt_neither (a b : Vector) :
  Vector_lt a b = false → Vector_lt b a = false → a = b.
Proof.
  intros H1 H2. destruct (decide (a = b)) as [|Hne]; [done|].
  pose proof (Vector_lt_total a b Hne H1). congruence.
Qed.

Lemma lex_lt_irrefl (xs : list Vector) : lex_lt xs xs = false.
Proof. induction xs as [|a xs IH]; [done|]. cbn. by rewrite Vector_lt_irrefl. Qed.

Lemma lex_lt_asym (xs ys : list Vector) :
  lex_lt xs ys = true → lex_lt ys xs = false.
Proof.
  revert ys. induction xs as [|a xs IH]; intros [|b ys]; cbn; try done.
  destruct (Vector_lt a b) eqn:Hab.
  - intros _. by rewrite (Vector_lt_asym a b Hab).
  - destruct (Vector_lt b a); [done|]. apply IH.
Qed.

Lemma lex_lt_trans (xs ys zs : list Vector) :
  length xs = length ys → length ys = length zs →
  lex_lt xs ys = true → lex_lt ys zs = true → lex_lt xs zs = true.
Proof.
  revert ys zs. induction xs as [|a xs IH]; intros [|b ys] [|c zs]; cbn;
    try done.
  intros [= Hl1] [= Hl2].
  destruct (Vector_lt a b) eqn:Hab.
  - intros _. destruct (Vector_lt b c) eqn:Hbc.
    + intros _. by rewrite (Vector_lt_trans a b c).
    + destruct (Vector_lt c b) eqn:Hcb; [done|]. intros _.
      rewrite <-(Vector_lt_neither b c Hbc Hcb). by rewrite Hab.
  - destruct (Vector_lt b a) eqn:Hba; [done|].
    rewrite (Vector_lt_neither a b Hab Hba). intros Hxy.
    destruct (Vector_lt b c); [done|].
    destruct (Vector_lt c b); [done|]. by apply IH.
Qed.

Lemma lex_lt_neither (xs ys : list Vector) :
  length xs = length ys →
  lex_lt xs ys = false → lex_lt ys xs = false → xs = ys.
Proof.
  revert ys. induction xs as [|a xs IH]; intros [|b ys]; cbn; try done.
  intros [= Hl].
  destruct (Vector_lt a b) eqn:Hab; [done|].
  destruct (Vector_lt b a) eqn:Hba; [done|].
  intros H1 H2. rewrite (Vector_lt_neither a b Hab Hba). f_equal.
  by apply IH.
Qed.

Section lt_loop_lex.
Context (ver : py_major) (self other : pyiterable) (xs ys : list Vector).
Context (Hself : ∀ i : nat, iter_next self (Z.of_nat i) = Ok (xs !! i)).
Context (Hother : ∀ i : nat, iter_next other (Z.of_nat i) = Ok (ys !! i)).
Context (Hlen : length xs = length ys).

(** On sequences of one length the loop of [__lt__] never meets a fill
  value and computes the lexicographic order. *)
Lemma lt_loop_lex (cnt j : nat) :
(j + cnt = length xs)%nat →
lt_loop ver self other (seqZ (Z.of_nat j) (Z.of_nat cnt))
= Ok (lex_lt (drop j xs) (drop j ys)).
Proof using Hself Hother Hlen.
revert j. induction cnt as [|cnt IH]; intros j Hj.
- rewrite !drop_ge by lia. done.
- rewrite seqZ_of_nat_S. cbn [lt_loop]. rewrite Hself, Hother.
  destruct (lookup_lt_is_Some_2 xs j ltac:(lia)) as [a Ha].
  destruct (lookup_lt_is_Some_2 ys j ltac:(lia)) as [b Hb].
  rewrite Ha, Hb, (drop_S xs a j Ha), (drop_S ys b j Hb).
  cbn [mbind pyresult_bind fill_lt fill_gt lex_lt].
  destruct (Vector_lt a b); [done|].
  destruct (Vector_lt b a); [done|]. apply IH. lia.
Qed.
End lt_loop_lex.

Lemma vector_range_lt_lex ver r other xs ys :
  reachable r → reachable_iterable other →
  vector_range_iter r = Ok xs → iterable_list other = Ok ys →
  length xs = length ys →
  vector_range_lt ver r other = Ok (lex_lt xs ys).
Proof.
  intros Hr Hother Hxs Hys Hlen.
  pose proof (λ i, iter_next_lookup (IterRange r) xs i Hr Hxs) as Hnx.
  pose proof (λ i, iter_next_lookup other ys i Hother Hys) as Hny.
  unfold vector_range_lt.
  assert (vector_range_len r = Ok (Z.of_nat (length xs))) as ->.
  { by apply vector_range_iter_lookup; [apply reachable_wf|]. }
  assert (iterable_len other = Ok (Z.of_nat (length ys))) as ->.
  { destruct other as [r2|l]; cbn in *.
    - by apply vector_range_iter_lookup; [apply reachable_wf|].
    - by injection Hys as <-. }
  cbn [mbind pyresult_bind].
  replace (Z.of_nat (length xs) `max` Z.of_nat (length ys))
    with (Z.of_nat (length xs)) by lia.
  change 0 with (Z.of_nat 0).
  by rewrite (lt_loop_lex ver _ _ xs ys Hnx Hny Hlen (length xs) 0).
Qed.

(** On ranges of one length whose iterations complete, [<] is a strict
    order that never raises: no range is less than itself, [r1 < r2]
    excludes [r2 < r1], [r1 < r2 < r3] gives [r1 < r3], and when neither
    [r1 < r2] nor [r2 < r1] the two are equal by [==]. *)
Theorem vector_range_lt_strict_order :
  ∀ ver r1 r2 r3 xs ys zs,
    reachable r1 → reachable r2 → reachable r3 →
    vector_range_iter r1 = Ok xs → vector_range_iter r2 = Ok ys →
    vector_range_iter r3 = Ok zs →
    length xs = length ys → length ys = length zs →
    vector_range_lt ver r1 (IterRange r1) = Ok false ∧
    (∃ b, vector_range_lt ver r1 (IterRange r2) = Ok b) ∧
    (vector_range_lt ver r1 (IterRange r2) = Ok true →
     vector_range_lt ver r2 (IterRange r1) = Ok false) ∧
    (vector_range_lt ver r1 (IterRange r2) = Ok true →
     vector_range_lt ver r2 (IterRange r3) = Ok true →
     vector_range_lt ver r1 (IterRange r3) = Ok true) ∧
    (vector_range_lt ver r1 (IterRange r2) = Ok false →
     vector_range_lt ver r2 (IterRange r1) = Ok false →
     vector_range_eq r1 (IterRange r2) = Ok true).
Proof.
  intros ver r1 r2 r3 xs ys zs H1 H2 H3 Hxs Hys Hzs Hl1 Hl2.
  rewrite (vector_range_lt_lex ver r1 (IterRange r1) xs xs) by done.
  rewrite (vector_range_lt_lex ver r1 (IterRange r2) xs ys) by done.
  rewrite (vector_range_lt_lex ver r2 (IterRange r1) ys xs) by done.
  rewrite (vector_range_lt_lex ver r2 (IterRange r3) ys zs) by done.
  rewrite (vector_range_lt_lex ver r1 (IterRange r3) xs zs)
    by (done || congruence).
  rewrite (vector_range_eq_spec r1 (IterRange r2) xs ys H1 H2 Hxs Hys).
  split; [by rewrite lex_lt_irrefl|]. split; [eauto|].
  split; [intros [= H]; by rewrite (lex_lt_asym xs ys)|].
  split; [intros [= Ha] [= Hb]; by rewrite (lex_lt_trans xs ys zs)|].
  intros [= Ha] [= Hb].
  by rewrite bool_decide_eq_true_2 by (by apply lex_lt_neither).
Qed.

Lemma vector_range_lt_strict_order_witness :
  ∃ r1 r2,
    cube 2 "zxy" = Ok r1 ∧ cube 2 "xyz" = Ok r2 ∧
    vector_range_lt Py3 r1 (IterRange r1) = Ok false ∧
    (vector_range_lt Py3 r1 (IterRange r2) = Ok true →
     vector_range_lt Py3 r2 (IterRange r1) = Ok false).
Proof.
  eexists _, _. split; [by vm_compute|]. split; [by vm_compute|].
  match goal with |- vector_range_lt _ ?r1 _ = _ ∧ (vector_range_lt _ _ (IterRange ?r2) = _ → _) =>
    assert (reachable r1) as H1;
      [by apply (reachable_init (mkVector 2 2 2) None default_step "zxy")|];
    assert (reachable r2) as H2;
      [by apply (reachable_init (mkVector 2 2 2) None default_step "xyz")|]
  end.
  destruct (vector_range_lt_strict_order Py3 _ _ _ _ _ _ H1 H2 H2
              eq_refl eq_refl eq_refl eq_refl eq_refl)
    as (Hirr & _ & Hasym & _).
  split; [exact Hirr|exact Hasym].
Defined.

(** ** The axes of an unsliced range *)

(** For a valid order the three attribute names of [order] are [x], [y]
    and [z] in some arrangement. *)
Lemma order_axes (o : string) :
  o ∈ valid_orders →
  ∃ f0 f1 f2 : Vector → Z,
    (∀ v, mapM (getattr v) (list_ascii_of_string o) = Ok [f0 v; f1 v; f2 v]) ∧
    (∀ start stop step rs,
       mapM (axis_range start stop step) (list_ascii_of_string o) = Ok rs →
       rs = [PyRange (f0 start) (f0 stop) (f0 step);
             PyRange (f1 start) (f1 stop) (f1 step);
             PyRange (f2 start) (f2 stop) (f2 step)]) ∧
    (∀ P : (Vector → Z) → Prop, P f0 ∧ P f1 ∧ P f2 ↔ P x ∧ P y ∧ P z) ∧
    (∀ g : (Vector → Z) → Z, g f0 * g f1 * g f2 = g x * g y * g z).
Proof.
  intros Ho.
  assert (∀ (f0 f1 f2 : Vector → Z) (c0 c1 c2 : ascii) start stop step rs,
            (∀ s t p r, axis_range s t p c0 = Ok r →
                        r = PyRange (f0 s) (f0 t) (f0 p)) →
            (∀ s t p r, axis_range s t p c1 = Ok r →
                        r = PyRange (f1 s) (f1 t) (f1 p)) →
            (∀ s t p r, axis_range s t p c2 = Ok r →
                        r = PyRange (f2 s) (f2 t) (f2 p)) →
            mapM (axis_range start stop step) [c0; c1; c2] = Ok rs →
            rs = [PyRange (f0 start) (f0 stop) (f0 step);
                  PyRange (f1 start) (f1 stop) (f1 step);
                  PyRange (f2 start) (f2 stop) (f2 step)]) as Hrs.
  { intros f0 f1 f2 c0 c1 c2 start stop step rs H0 H1 H2 H.
    apply mapM_cons_Ok in H as (? & ? & ->%H0 & H & ->).
    apply mapM_cons_Ok in H as (? & ? & ->%H1 & H & ->).
    apply mapM_cons_Ok in H as (? & ? & ->%H2 & H & ->).
    by apply mapM_nil_Ok in H as ->. }
  order_cases Ho;
    [exists x, y, z|exists x, z, y|exists y, x, z
    |exists y, z, x|exists z, x, y|exists z, y, x];
    (split; [done|]);
    (split; [intros start stop step rs;
             apply Hrs; auto using axis_range_x, axis_range_y, axis_range_z|]);
    (split; [intros P; tauto|intros g; lia]).
Qed.

Lemma init_unsliced start stop step order r :
  vector_range_init start stop step order None = Ok r →
  wf r ∧ _slice r = None ∧ _order r = order.
Proof.
  intros Hinit. split; [by eapply vector_range_init_wf|].
  by apply vector_range_init_Ok in Hinit as (_ & ? & ? & _ & _ & _ & ->).
Qed.

(** What the invariant and [order_axes] give for an unsliced range. *)
Lemma unsliced_axes (r : vector_range) :
  wf r →
  ∃ f0 f1 f2 : Vector → Z,
    (∀ v, mapM (getattr v) (list_ascii_of_string (_order r))
          = Ok [f0 v; f1 v; f2 v]) ∧
    _ranges r = [PyRange (f0 (_start r)) (f0 (_stop r)) (f0 (_step r));
                 PyRange (f1 (_start r)) (f1 (_stop r)) (f1 (_step r));
                 PyRange (f2 (_start r)) (f2 (_stop r)) (f2 (_step r))] ∧
    f0 (_step r) ≠ 0 ∧ f1 (_step r) ≠ 0 ∧ f2 (_step r) ≠ 0 ∧
    (∀ P : (Vector → Z) → Prop, P f0 ∧ P f1 ∧ P f2 ↔ P x ∧ P y ∧ P z) ∧
    (∀ g : (Vector → Z) → Z, g f0 * g f1 * g f2 = g x * g y * g z).
Proof.
  intros Hwf.
  destruct (order_axes (_order r) (wf_order r Hwf))
    as (f0 & f1 & f2 & Hget & Hrs & HP & Hg).
  exists f0, f1, f2. pose proof (Hrs _ _ _ _ (wf_ranges r Hwf)) as Heq.
  destruct (wf_inv r Hwf) as (r0 & r1 & r2 & Hrs' & H0 & H1 & H2 & _).
  rewrite Heq in Hrs'. injection Hrs' as <- <- <-. cbn in H0, H1, H2.
  by repeat (split; [done|]).
Qed.

Lemma nonzero_step_of_wf (r : vector_range) : wf r → nonzero_step (_step r).
Proof.
  intros Hwf.
  destruct (unsliced_axes r Hwf) as (f0 & f1 & f2 & _ & _ & H0 & H1 & H2 & HP & _).
  by apply (HP (λ f, f (_step r) ≠ 0)).
Qed.

(** ** Length and emptiness *)

Lemma range_len_zero (r : pyrange) :
  range_step r ≠ 0 →
  range_len r = 0 ↔
  if decide (0 < range_step r) then range_stop r ≤ range_start r
  else range_start r ≤ range_stop r.
Proof.
  intros Hstep. pose proof (range_len_spec r Hstep 0) as H0.
  pose proof (range_len_nonneg r Hstep).
  destruct (decide (0 < range_step r)); lia.
Qed.

Lemma unsliced_len (r : vector_range) :
  wf r → _slice r = None →
  vector_range_len r = Ok (axis_len r x * axis_len r y * axis_len r z) ∧
  0 ≤ axis_len r x ∧ 0 ≤ axis_len r y ∧ 0 ≤ axis_len r z.
Proof.
  intros Hwf Hs.
  destruct (unsliced_axes r Hwf)
    as (f0 & f1 & f2 & _ & Hrs & _ & _ & _ & _ & Hg).
  destruct (nonzero_step_of_wf r Hwf) as (Hx & Hy & Hz).
  split; [|repeat split; by apply range_len_nonneg].
  unfold vector_range_len. rewrite Hs, Hrs. cbn [fmap list_fmap].
  rewrite product3. f_equal. apply (Hg (axis_len r)).
Qed.

(** The length of a range returned by the constructor is the product of
    the numbers of values along x, y and z, whatever the order; it is zero
    exactly when some axis has no value, that is when its [stop] is not
    beyond its [start] in the direction of its [step]; [bool(r)] tells
    whether it is non-zero. *)
Theorem vector_range_len_axes :
  ∀ start stop step order r,
    vector_range_init start stop step order None = Ok r →
    vector_range_len r = Ok (axis_len r x * axis_len r y * axis_len r z) ∧
    0 ≤ axis_len r x ∧ 0 ≤ axis_len r y ∧ 0 ≤ axis_len r z ∧
    (vector_range_len r = Ok 0 ↔
     axis_len r x = 0 ∨ axis_len r y = 0 ∨ axis_len r z = 0) ∧
    (∀ f, f = x ∨ f = y ∨ f = z →
       (axis_len r f = 0 ↔
        if decide (0 < f (_step r)) then f (_stop r) ≤ f (_start r)
        else f (_start r) ≤ f (_stop r))) ∧
    vector_range_bool r
      = Ok (bool_decide (axis_len r x ≠ 0 ∧ axis_len r y ≠ 0
                         ∧ axis_len r z ≠ 0)).
Proof.
  intros start stop step order r (Hwf & Hs & _)%init_unsliced.
  destruct (nonzero_step_of_wf r Hwf) as (Hx & Hy & Hz).
  destruct (unsliced_len r Hwf Hs) as (Hlen & H0x & H0y & H0z).
  split; [done|]. split; [done|]. split; [done|]. split; [done|].
  split; [|split].
  - rewrite Hlen. split.
    + intros [= [[H | H]%Z.mul_eq_0 | H]%Z.mul_eq_0]; auto.
    + intros [-> | [-> | ->]]; f_equal; lia.
  - intros f [-> | [-> | ->]]; by apply range_len_zero.
  - unfold vector_range_bool. rewrite Hlen. cbn [mbind pyresult_bind].
    f_equal. apply bool_decide_ext. split.
    + intros Hpos. repeat split; intros Heq; rewrite Heq in Hpos; lia.
    + intros (? & ? & ?). apply Z.lt_gt.
      apply Z.mul_pos_pos; [apply Z.mul_pos_pos|]; lia.
Qed.

Lemma vector_range_len_axes_witness :
  ∃ r, vector_range_init (mkVector 0 5 0) (Some (mkVector 4 1 0))
         (mkVector 2 (-1) 1) "yzx" None = Ok r ∧
       vector_range_len r = Ok 0 ∧
       axis_len r x = 2 ∧ axis_len r y = 4 ∧ axis_len r z = 0.
Proof.
  eexists. split; [by vm_compute|].
  split; [|by vm_compute].
  apply (proj1 (proj2 (proj2 (proj2 (proj2
           (vector_range_len_axes (mkVector 0 5 0) (Some (mkVector 4 1 0))
              (mkVector 2 (-1) 1) "yzx" _ eq_refl)))))).
  right. right. by vm_compute.
Defined.

(** ** Ranges that differ only in their order *)

(** Two ranges built from the same [start], [stop] and [step] with
    different orders have the same length and contain the same Vectors:
    their element lists are permutations of each other. *)
Theorem vector_range_order_permutation :
  ∀ start stop step order1 order2 r1 r2,
    vector_range_init start stop step order1 None = Ok r1 →
    vector_range_init start stop step order2 None = Ok r2 →
    vector_range_len r1 = vector_range_len r2 ∧
    ∃ xs ys,
      vector_range_iter r1 = Ok xs ∧ vector_range_iter r2 = Ok ys ∧
      xs ≡ₚ ys ∧
      ∀ v, vector_range_contains r1 v = vector_range_contains r2 v.
Proof.
  intros start stop step order1 order2 r1 r2 Hi1 Hi2.
  destruct (init_unsliced _ _ _ _ _ Hi1) as (Hwf1 & Hs1 & _).
  destruct (init_unsliced _ _ _ _ _ Hi2) as (Hwf2 & Hs2 & _).
  assert (_start r1 = _start r2 ∧ _stop r1 = _stop r2 ∧ _step r1 = _step r2)
    as (Hstart & Hstop & Hstep).
  { apply vector_range_init_Ok in Hi1 as (_ & ? & ? & _ & _ & _ & ->).
    by apply vector_range_init_Ok in Hi2 as (_ & ? & ? & _ & _ & _ & ->). }
  destruct (vector_range_iter_unsliced r1 Hwf1 Hs1) as (xs & Hxs).
  destruct (vector_range_iter_unsliced r2 Hwf2 Hs2) as (ys & Hys).
  assert (∀ v, (∃ i, vector_range_index r1 v = Ok i)
               ↔ (∃ i, vector_range_index r2 v = Ok i)) as Hidx.
  { intros v. rewrite !vector_range_index_lattice by done.
    by rewrite Hstart, Hstop, Hstep. }
  assert (xs ≡ₚ ys) as Hperm.
  { apply NoDup_Permutation.
    - by apply (vector_range_iter_NoDup r1).
    - by apply (vector_range_iter_NoDup r2).
    - intros v. rewrite (vector_range_iter_index r1 xs v Hwf1 Hxs).
      by rewrite (vector_range_iter_index r2 ys v Hwf2 Hys). }
  split.
  - destruct (vector_range_iter_lookup r1 xs Hwf1 Hxs) as [-> _].
    destruct (vector_range_iter_lookup r2 ys Hwf2 Hys) as [-> _].
    by rewrite (Permutation_length Hperm).
  - exists xs, ys. repeat split; try done. intros v.
    rewrite !vector_range_contains_index by done. f_equal.
    specialize (Hidx v).
    destruct (vector_range_index r1 v), (vector_range_index r2 v); cbn;
      try done.
    + destruct (proj1 Hidx) as [? [=]]. eauto.
    + destruct (proj2 Hidx) as [? [=]]. eauto.
Qed.

Lemma vector_range_order_permutation_witness :
  ∃ r1 r2 xs ys,
    cube 2 "xyz" = Ok r1 ∧ cube 2 "zyx" = Ok r2 ∧
    vector_range_iter r1 = Ok xs ∧ vector_range_iter r2 = Ok ys ∧
    xs ≠ ys ∧ xs ≡ₚ ys.
Proof.
  eexists _, _, _, _.
  split; [by vm_compute|]. split; [by vm_compute|].
  split; [by vm_compute|]. split; [by vm_compute|].
  split; [discriminate|].
  destruct (vector_range_order_permutation (mkVector 2 2 2) None default_step
              "xyz" "zyx" _ _ eq_refl eq_refl)
    as (_ & xs & ys & Hxs & Hys & Hperm & _).
  vm_compute in Hxs, Hys. injection Hxs as <-. injection Hys as <-.
  exact Hperm.
Defined.

(** ** Membership, axis by axis *)

(** On a range returned by the constructor, [v in r] tests the three
    components of [v] against the three per-axis ranges, independently of
    each other and of the order. *)
Theorem vector_range_contains_axes :
  ∀ start stop step order r v,
    vector_range_init start stop step order None = Ok r →
    vector_range_contains r v
    = Ok (range_contains (PyRange (x (_start r)) (x (_stop r)) (x (_step r)))
            (x v)
          && range_contains (PyRange (y (_start r)) (y (_stop r)) (y (_step r)))
               (y v)
          && range_contains (PyRange (z (_start r)) (z (_stop r)) (z (_step r)))
               (z v)).
Proof.
  intros start stop step order r v (Hwf & Hs & _)%init_unsliced.
  destruct (nonzero_step_of_wf r Hwf) as (Hx & Hy & Hz).
  rewrite vector_range_contains_index by done. f_equal.
  apply Bool.eq_iff_eq_true.
  rewrite !andb_true_iff, !range_contains_elements by done.
  pose proof (vector_range_index_lattice r v Hwf Hs) as Hlat.
  unfold on_lattice in Hlat.
  destruct (vector_range_index r v); cbn; split; try done.
  - intros _. apply and_assoc, Hlat. eauto.
  - intros H. apply and_assoc, Hlat in H as [? [=]].
Qed.

Lemma vector_range_contains_axes_witness :
  ∃ r, vector_range_init (mkVector 0 0 0) (Some (mkVector 6 4 2))
         (mkVector 2 1 1) "zxy" None = Ok r ∧
       vector_range_contains r (mkVector 4 3 1) = Ok true ∧
       vector_range_contains r (mkVector 3 3 1) = Ok false.
Proof.
  eexists. split; [by vm_compute|]. split.
  - by rewrite (vector_range_contains_axes (mkVector 0 0 0)
                  (Some (mkVector 6 4 2)) (mkVector 2 1 1) "zxy" _ _ eq_refl).
  - by rewrite (vector_range_contains_axes (mkVector 0 0 0)
                  (Some (mkVector 6 4 2)) (mkVector 2 1 1) "zxy" _ _ eq_refl).
Defined.

(** ** The indices that [__getitem__] accepts *)

(** On a range returned by the constructor, of length [n], [r[i]] returns
    exactly for [-n <= i < n] and raises IndexError otherwise; a negative
    index counts from the end; and two indices in [0, n) never give the
    same Vector. *)
Theorem vector_range_getitem_domain :
  ∀ start stop step order r n,
    vector_range_init start stop step order None = Ok r →
    vector_range_len r = Ok n →
    (∀ i, - n ≤ i < n → ∃ v, vector_range_getitem r i = Ok v) ∧
    (∀ i, ¬ (- n ≤ i < n) → vector_range_getitem r i = Raise IndexError) ∧
    (∀ i, - n ≤ i < 0 →
       vector_range_getitem r i = vector_range_getitem r (i + n)) ∧
    (∀ i j v, 0 ≤ i < n → 0 ≤ j < n →
       vector_range_getitem r i = Ok v → vector_range_getitem r j = Ok v →
       i = j).
Proof.
  intros start stop step order r n (Hwf & Hs & _)%init_unsliced Hn.
  assert (∀ i, - n ≤ i < 0 →
            vector_range_getitem r i = vector_range_getitem r (i + n)) as Hneg.
  { intros i Hi. unfold vector_range_getitem. rewrite Hn.
    cbn [mbind pyresult_bind].
    destruct (decide (i < 0)) as [_|]; [|lia].
    by destruct (decide (i + n < 0)) as [|_]; [lia|]. }
  split; [|split; [|split]].
  - intros i Hi. destruct (decide (i < 0)).
    + rewrite Hneg by lia.
      apply (vector_range_getitem_unsliced r n); [done..|lia].
    + apply (vector_range_getitem_unsliced r n); [done..|lia].
  - intros i Hi. unfold vector_range_getitem. rewrite Hn.
    cbn [mbind pyresult_bind].
    destruct (decide (i < 0)).
    + destruct (decide (¬ 0 ≤ i + n < n)) as [|Hin]; [done|].
      apply dec_stable in Hin. lia.
    + destruct (decide (¬ 0 ≤ i < n)) as [|Hin]; [done|].
      apply dec_stable in Hin. lia.
  - done.
  - intros i j v Hi Hj. by apply (vector_range_getitem_inj r n).
Qed.

Lemma vector_range_getitem_domain_witness :
  ∃ r, cube 2 "zxy" = Ok r ∧
       vector_range_getitem r 8 = Raise IndexError ∧
       vector_range_getitem r (-9) = Raise IndexError ∧
       vector_range_getitem r (-8) = vector_range_getitem r (-8 + 8).
Proof.
  eexists. split; [by vm_compute|].
  destruct (vector_range_getitem_domain (mkVector 2 2 2) None default_step
              "zxy" _ 8 eq_refl eq_refl) as (_ & Hout & Hneg & _).
  split; [apply Hout; lia|]. split; [apply Hout; lia|]. apply Hneg; lia.
Defined.

(** ** The first and the last element, and the box sent to the server *)

Lemma fst_get_blocks_corners (r : vector_range) :
  fst (get_blocks_corners r) = _start r.
Proof. by destruct r as [[] ? ? ? ? ? ?]. Qed.

(** A non-empty range returned by the constructor starts at [start]. *)
Lemma vector_range_first (r : vector_range) (n : Z) :
  wf r → _slice r = None → vector_range_len r = Ok n → 0 < n →
  vector_range_getitem r 0 = Ok (_start r).
Proof.
  intros Hwf Hs Hn Hpos.
  destruct (unsliced_axes r Hwf)
    as (f0 & f1 & f2 & Hget & Hrs & H0 & H1 & H2 & _ & _).
  destruct (wf_inv r Hwf) as (r0 & r1 & r2 & Hrs' & _ & _ & _ & _ & Hl0 & Hl1 & Hl2).
  rewrite Hrs in Hrs'. injection Hrs' as <- <- <-.
  assert (n = range_len (PyRange (f0 (_start r)) (f0 (_stop r)) (f0 (_step r)))
              * range_len (PyRange (f1 (_start r)) (f1 (_stop r)) (f1 (_step r)))
              * range_len (PyRange (f2 (_start r)) (f2 (_stop r)) (f2 (_step r))))
    as Hnl.
  { unfold vector_range_len in Hn. rewrite Hs, Hrs in Hn.
    cbn [fmap list_fmap] in Hn. rewrite product3 in Hn. congruence. }
  destruct (pos_of_product _ _ _ Hl0 Hl1 Hl2 ltac:(lia)) as (Hp0 & Hp1 & Hp2).
  assert (vector_range_index r (_start r) = Ok 0) as Hidx.
  { rewrite (vector_range_index_unfold r (_start r) _ _ _ _ _ _ Hrs H0 H1 H2
               (Hget _)).
    rewrite (proj2 (range_index_Ok (PyRange _ _ _) H0 _ 0))
      by (cbn [range_start range_step]; lia).
    cbn [mbind pyresult_bind].
    rewrite (proj2 (range_index_Ok (PyRange _ _ _) H1 _ 0))
      by (cbn [range_start range_step]; lia).
    cbn [mbind pyresult_bind].
    rewrite (proj2 (range_index_Ok (PyRange _ _ _) H2 _ 0))
      by (cbn [range_start range_step]; lia).
    cbn [mbind pyresult_bind]. cbv zeta. rewrite Hs. f_equal. lia. }
  by apply vector_range_index_getitem in Hidx as (? & _ & _ & ?).
Qed.

(** A non-empty range of unit steps has [|stop - start|] values and ends at
    [stop - step]; its values are those between its two ends. *)
Lemma range_unit (lo hi st : Z) :
  Z.abs st = 1 → 0 < range_len (PyRange lo hi st) →
  range_len (PyRange lo hi st) = Z.abs (hi - st - lo) + 1 ∧
  hi - st = lo + (range_len (PyRange lo hi st) - 1) * st ∧
  ∀ v, v ∈ range_elements (PyRange lo hi st)
       ↔ lo `min` (hi - st) ≤ v ≤ lo `max` (hi - st).
Proof.
  intros Hst Hlen.
  assert (st ≠ 0) as Hne by lia.
  assert (range_len (PyRange lo hi st) = Z.abs (hi - st - lo) + 1
          ∧ (if decide (0 < st) then lo < hi else hi < lo)) as [Heq Hord].
  { revert Hlen. cbn [range_len].
    destruct (decide (0 < st)).
    - assert (st = 1) as -> by lia.
      destruct (decide (lo < hi)); [|lia]. rewrite Z.div_1_r. lia.
    - assert (st = -1) as -> by lia.
      destruct (decide (hi < lo)); [|lia]. cbn [Z.opp Pos.pred_double].
      rewrite Z.div_1_r. lia. }
  split; [done|]. split.
  - rewrite Heq. destruct (decide (0 < st)); lia.
  - intros v. rewrite <-range_contains_elements by done.
    cbn [range_contains].
    destruct (decide (0 < st)).
    + assert (st = 1) as -> by lia.
      rewrite bool_decide_eq_true, Z.mod_1_r. lia.
    + assert (st = -1) as -> by lia. cbn [Z.opp Pos.pred_double].
      rewrite bool_decide_eq_true, Z.mod_1_r. lia.
Qed.

(** The box of a non-empty range whose steps are all 1 or -1. *)
Lemma unit_step_corners (r : vector_range) (n : Z) :
  wf r → _slice r = None → Vector_abs (_step r) = mkVector 1 1 1 →
  vector_range_len r = Ok n → 0 < n →
  let c1 := fst (get_blocks_corners r) in
  let c2 := snd (get_blocks_corners r) in
  vector_range_getitem r 0 = Ok c1 ∧
  vector_range_getitem r (-1) = Ok c2 ∧
  (∀ v, vector_range_contains r v = Ok true ↔ in_box c1 c2 v) ∧
  n = (Z.abs (x c2 - x c1) + 1) * (Z.abs (y c2 - y c1) + 1)
      * (Z.abs (z c2 - z c1) + 1).
Proof.
  intros Hwf Hs Habs Hn Hpos. cbv zeta.
  injection Habs as Hax Hay Haz.
  destruct (unsliced_len r Hwf Hs) as (Hlen & H0x & H0y & H0z).
  assert (n = axis_len r x * axis_len r y * axis_len r z) as Hnl by congruence.
  destruct (pos_of_product _ _ _ H0x H0y H0z ltac:(lia)) as (Hpx & Hpy & Hpz).
  destruct (range_unit _ _ _ Hax Hpx) as (Hlx & Hex & Hmx).
  destruct (range_unit _ _ _ Hay Hpy) as (Hly & Hey & Hmy).
  destruct (range_unit _ _ _ Haz Hpz) as (Hlz & Hez & Hmz).
  fold (axis_len r x) in Hlx, Hex. fold (axis_len r y) in Hly, Hey.
  fold (axis_len r z) in Hlz, Hez.
  split; [|split; [|split]].
  - rewrite fst_get_blocks_corners. by apply (vector_range_first r n).
  - destruct (unsliced_axes r Hwf)
      as (f0 & f1 & f2 & Hget & Hrs & H0 & H1 & H2 & HP & Hg).
    set (c2 := snd (get_blocks_corners r)).
    destruct (proj2 (HP (λ f, f c2 = f (_stop r) - f (_step r)
                              ∧ 0 < axis_len r f
                              ∧ f (_stop r) - f (_step r)
                                = f (_start r) + (axis_len r f - 1) * f (_step r))))
      as ((Hc0 & Hp0 & He0) & (Hc1 & Hp1 & He1) & (Hc2 & Hp2 & He2)).
    { by repeat split. }
    assert (vector_range_index r c2 = Ok (n - 1)) as Hidx.
    { rewrite (vector_range_index_unfold r c2 _ _ _ _ _ _ Hrs H0 H1 H2
                 (Hget _)).
      rewrite (proj2 (range_index_Ok (PyRange _ _ _) H0 _ (axis_len r f0 - 1)));
        cycle 1.
      { unfold axis_len in *. cbn [range_start range_step]. split; [lia|].
        by rewrite Hc0. }
      cbn [mbind pyresult_bind].
      rewrite (proj2 (range_index_Ok (PyRange _ _ _) H1 _ (axis_len r f1 - 1)));
        cycle 1.
      { unfold axis_len in *. cbn [range_start range_step]. split; [lia|].
        by rewrite Hc1. }
      cbn [mbind pyresult_bind].
      rewrite (proj2 (range_index_Ok (PyRange _ _ _) H2 _ (axis_len r f2 - 1)));
        cycle 1.
      { unfold axis_len in *. cbn [range_start range_step]. split; [lia|].
        by rewrite Hc2. }
      cbn [mbind pyresult_bind]. cbv zeta. rewrite Hs. f_equal.
      fold (axis_len r f0). fold (axis_len r f1).
      rewrite Hnl, <-(Hg (axis_len r)). lia. }
    apply vector_range_index_getitem in Hidx as (? & _ & _ & Hgetitem); [|done].
    rewrite <-Hgetitem. unfold vector_range_getitem. rewrite Hn.
    cbn [mbind pyresult_bind].
    destruct (decide (-1 < 0)) as [_|]; [|lia].
    destruct (decide (n - 1 < 0)) as [|_]; [lia|].
    by replace (-1 + n) with (n - 1) by lia.
  - intros v. rewrite vector_range_contains_index by done.
    assert (Ok (is_ok (vector_range_index r v)) = Ok true
            ↔ ∃ i, vector_range_index r v = Ok i) as ->.
    { destruct (vector_range_index r v); cbn; split; try done; eauto.
      by intros [? [=]]. }
    rewrite vector_range_index_lattice by done.
    unfold on_lattice, in_box. rewrite Hmx, Hmy, Hmz.
    by destruct r as [[] [] [] ? ? ? ?].
  - rewrite Hnl, Hlx, Hly, Hlz. by destruct r as [[] [] [] ? ? ? ?].
Qed.

(** Whenever the guard of the [getBlocks] fast path of
    [Blocks.__getitem__] holds for a non-empty range returned by the
    constructor, the two corners that [_get_blocks] sends to the server
    are the first and the last element of the range, the Vectors of the
    range are exactly the grid points of the box that the corners span,
    and the box holds exactly [len(vrange)] of them. *)
Theorem get_blocks_fast_path_box :
  ∀ start stop step order r n,
    vector_range_init start stop step order None = Ok r →
    get_blocks_fast_path r = true →
    vector_range_len r = Ok n → 0 < n →
    let c1 := fst (get_blocks_corners r) in
    let c2 := snd (get_blocks_corners r) in
    vector_range_getitem r 0 = Ok c1 ∧
    vector_range_getitem r (-1) = Ok c2 ∧
    (∀ v, vector_range_contains r v = Ok true ↔ in_box c1 c2 v) ∧
    n = (Z.abs (x c2 - x c1) + 1) * (Z.abs (y c2 - y c1) + 1)
        * (Z.abs (z c2 - z c1) + 1).
Proof.
  intros start stop step order r n (Hwf & Hs & _)%init_unsliced Hguard Hn Hpos.
  apply andb_true_iff in Hguard as [Habs%bool_decide_eq_true _].
  by apply unit_step_corners.
Qed.

Lemma get_blocks_fast_path_box_witness :
  ∃ r, vector_range_init (mkVector 3 0 (-2)) (Some (mkVector 0 2 1))
         (mkVector (-1) 1 1) "zxy" None = Ok r ∧
       get_blocks_corners r = (mkVector 3 0 (-2), mkVector 1 1 0) ∧
       vector_range_getitem r (-1) = Ok (mkVector 1 1 0) ∧
       vector_range_len r = Ok 18.
Proof.
  eexists. split; [by vm_compute|]. split; [by vm_compute|].
  split; [|by vm_compute].
  apply (get_blocks_fast_path_box (mkVector 3 0 (-2)) (Some (mkVector 0 2 1))
           (mkVector (-1) 1 1) "zxy" _ 18 eq_refl eq_refl eq_refl).
  lia.
Defined.

(** ** Slices and the range they were cut from *)

(** A slice shares every attribute of the range it is cut from; only the
    window differs. *)
Lemma vector_range_getslice_fields (r r' : vector_range) (sl : pyslice) :
  wf r → vector_range_getslice r sl = Ok r' →
  ∃ w, r' = VectorRange (_start r) (_stop r) (_step r) (_order r) (_ranges r)
              (_indexes r) (Some w).
Proof.
  intros Hwf H. unfold vector_range_getslice in H.
  apply bind_Ok in H as (n & Hn & H). cbv zeta in H.
  match type of H with
  | (let '(a, b) := ?e in _) = _ => destruct e as [a b]
  end.
  apply bind_Ok in H as (w & _ & H).
  apply vector_range_init_Ok in H as (_ & ranges & indexes & Hr & Hi & _ & ->).
  cbv zeta in Hr. exists w.
  pose proof (wf_ranges r Hwf). pose proof (wf_indexes r Hwf).
  by assert (ranges = _ranges r ∧ indexes = _indexes r) as [-> ->]
    by (split; congruence).
Qed.

(** A value found through a window is found without it. *)
Lemma vector_range_index_drop_window (r : vector_range) (v : Vector) i :
  wf r → vector_range_index r v = Ok i →
  ∃ p, vector_range_index
         (VectorRange (_start r) (_stop r) (_step r) (_order r) (_ranges r)
            (_indexes r) None) v = Ok p.
Proof.
  intros Hwf.
  destruct (wf_inv r Hwf) as (r0 & r1 & r2 & Hrs & Hs0 & Hs1 & Hs2 & _).
  destruct (order_pick (_order r) (_indexes r) v (wf_order r Hwf)
              (wf_indexes r Hwf)) as (a & b & c & Habc & _).
  rewrite (vector_range_index_unfold r v r0 r1 r2 a b c) by done.
  rewrite (vector_range_index_unfold _ v r0 r1 r2 a b c) by done.
  intros (p0 & -> & H)%bind_Ok. apply bind_Ok in H as (p1 & -> & H).
  apply bind_Ok in H as (p2 & -> & H). cbn. eauto.
Qed.

(** However a range was obtained, by slicing forwards, backwards or
    repeatedly, it is a range returned by the constructor with a window
    put on it, and every Vector it contains is contained in that range. *)
Theorem vector_range_slices_stay_inside :
  ∀ r, reachable r →
    ∃ start stop step order r0,
      vector_range_init start stop step order None = Ok r0 ∧
      r0 = VectorRange (_start r) (_stop r) (_step r) (_order r) (_ranges r)
             (_indexes r) None ∧
      ∀ v, vector_range_contains r v = Ok true →
           vector_range_contains r0 v = Ok true.
Proof.
  intros r Hr.
  assert (∃ start stop step order,
            vector_range_init start stop step order None
            = Ok (VectorRange (_start r) (_stop r) (_step r) (_order r)
                    (_ranges r) (_indexes r) None))
    as (start & stop & step & order & Hinit).
  { induction Hr as [start stop step order r H|r sl r' Hr IH H].
    - exists start, stop, step, order. rewrite H.
      apply init_unsliced in H as (_ & Hs & _). destruct r; cbn in *.
      by rewrite Hs.
    - destruct (vector_range_getslice_fields r r' sl (reachable_wf r Hr) H)
        as (w & ->). done. }
  eexists start, stop, step, order, _. split; [done|]. split; [done|].
  intros v. pose proof (reachable_wf r Hr) as Hwf.
  rewrite !vector_range_contains_index
    by (done || by eapply vector_range_init_wf).
  destruct (vector_range_index r v) as [i|] eqn:Hi; [|done]. intros _.
  by destruct (vector_range_index_drop_window r v i Hwf Hi) as (p & ->).
Qed.

Lemma vector_range_slices_stay_inside_witness :
  ∃ r1 r2,
    vector_range_init (mkVector 2 2 2) None default_step "xyz" None = Ok r1 ∧
    vector_range_getslice r1 (Slice None (Some 1) (Some (-2))) = Ok r2 ∧
    _slice r2 = Some (PyRange 7 1 (-2)) ∧
    ∃ start stop step order r0,
      vector_range_init start stop step order None = Ok r0 ∧
      r0 = VectorRange (_start r2) (_stop r2) (_step r2) (_order r2)
             (_ranges r2) (_indexes r2) None ∧
      ∀ v, vector_range_contains r2 v = Ok true →
           vector_range_contains r0 v = Ok true.
Proof.
  eexists _, _. split; [by vm_compute|]. split; [by vm_compute|].
  split; [by vm_compute|].
  apply vector_range_slices_stay_inside.
  eapply (reachable_getslice _ (Slice None (Some 1) (Some (-2))));
    [by eapply (reachable_init (mkVector 2 2 2) None default_step "xyz")|].
  by vm_compute.
Defined.

(** ** Slices with a positive step *)

Lemma wf_drop_window (r : vector_range) :
  wf r →
  wf (VectorRange (_start r) (_stop r) (_step r) (_order r) (_ranges r)
        (_indexes r) None).
Proof. intros [Ho Hr Hi Hs]. by split. Qed.

Lemma list_getitem_take {A} (l : list A) (n p : nat) :
  (p < n)%nat → list_getitem (take n l) p = list_getitem l p.
Proof. intros Hp. unfold list_getitem. by rewrite lookup_take_lt. Qed.

(** The slice of any range is read off the unsliced range [base] with the
    same attributes: with a positive step it is the list slice of the
    first [len(r)] elements of [base]. *)
Lemma vector_range_getslice_base (r : vector_range) elems (sl : pyslice) n :
  wf r →
  vector_range_iter
    (VectorRange (_start r) (_stop r) (_step r) (_order r) (_ranges r)
       (_indexes r) None) = Ok elems →
  vector_range_len r = Ok n →
  0 < match slice_step sl with None => 1 | Some s => s end →
  0 ≤ n ≤ Z.of_nat (length elems) ∧
  vector_range_slice_list r sl = py_list_slice (take (Z.to_nat n) elems) sl.
Proof.
  intros Hwf Hiter Hn Hpos.
  set (base := VectorRange (_start r) (_stop r) (_step r) (_order r)
                 (_ranges r) (_indexes r) None) in *.
  pose proof (wf_drop_window r Hwf) as Hwfb. fold base in Hwfb.
  destruct (vector_range_iter_lookup base elems Hwfb Hiter) as [Hl _].
  assert (0 ≤ n ≤ Z.of_nat (length elems)) as Hnl.
  { destruct (wf_len_nonneg r Hwf) as (n' & Hn' & Hn0).
    assert (n' = n) as -> by congruence. split; [done|].
    unfold vector_range_len in Hn, Hl. cbn [base _slice _ranges] in Hl.
    destruct (_slice r) as [s|] eqn:Hs; [|by assert (Z.of_nat (length elems) = n)
                                               as -> by congruence].
    injection Hn as <-.
    destruct (wf_slice r Hwf s Hs) as (_ & l & Hprod & Hle & _).
    by assert (Z.of_nat (length elems) = l) as -> by congruence. }
  split; [done|].
  unfold vector_range_slice_list, vector_range_getslice, py_list_slice,
    py_slice_indices.
  rewrite Hn. cbn [mbind pyresult_bind].
  rewrite length_take, Nat2Z.inj_min, Z2Nat.id by lia.
  replace (n `min` Z.of_nat (length elems)) with n by lia.
  set (step := match slice_step sl with Some s => s | None => 1 end) in *.
  destruct (decide (step < 0)) as [|_]; [lia|].
  destruct (decide (step = 0)) as [|Hstep]; [lia|].
  cbn [mbind pyresult_bind]. unfold range3.
  destruct (decide (step = 0)) as [|_]; [lia|].
  cbn [mbind pyresult_bind].
  set (start := n `min` (0 `max` _)). set (stop := n `min` (0 `max` _)).
  match goal with
  | |- _ = mapM _ (range_elements (PyRange ?a ?b _)) =>
      assert (a = start) as ->;
        [|assert (b = stop) as ->]
  end.
  { unfold start. destruct (slice_start sl) as [s|]; [|lia].
    destruct (decide (s < 0)); lia. }
  { unfold stop. destruct (slice_stop sl) as [s|]; [|lia].
    destruct (decide (s < 0)); lia. }
  assert (∀ p, p ∈ range_elements (PyRange start stop step) → 0 ≤ p < n)
    as Hel.
  { intros p (i & Hi & ->)%elem_of_range_elements.
    apply range_len_spec in Hi; [|done]. cbn in *.
    destruct (decide (0 < step)); [|lia].
    assert (0 ≤ start ∧ stop ≤ n) as [? ?] by (unfold start, stop; lia).
    nia. }
  change (_start r) with (_start base). change (_stop r) with (_stop base).
  change (_step r) with (_step base). change (_order r) with (_order base).
  rewrite (vector_range_iter_window base (PyRange start stop step) elems);
    [|done..|intros p Hp%Hel; lia].
  apply mapM_ext_in. intros p Hp%Hel.
  rewrite list_getitem_take; [done|lia].
Qed.

(** On every range obtained from the constructor and by slicing, a slice
    with step 0 raises ValueError, and a slice with a positive step always
    returns: the new range has the attributes of the old one, it can be
    iterated, and its elements are the list slice of the first [len(r)]
    elements of the unsliced range with these attributes; so it is never
    longer than [r] and repeats no Vector. *)
Theorem vector_range_getslice_positive :
  ∀ r sl n,
    reachable r → vector_range_len r = Ok n →
    let step := match slice_step sl with None => 1 | Some s => s end in
    (step = 0 → vector_range_getslice r sl = Raise ValueError) ∧
    (0 < step →
     ∃ elems r' xs,
       vector_range_iter
         (VectorRange (_start r) (_stop r) (_step r) (_order r) (_ranges r)
            (_indexes r) None) = Ok elems ∧
       vector_range_getslice r sl = Ok r' ∧
       _start r' = _start r ∧ _stop r' = _stop r ∧ _step r' = _step r ∧
       _order r' = _order r ∧
       vector_range_iter r' = Ok xs ∧
       py_list_slice (take (Z.to_nat n) elems) sl = Ok xs ∧
       Z.of_nat (length xs) ≤ n ∧ NoDup xs ∧
       ∀ v, v ∈ xs → v ∈ elems).
Proof.
  intros r sl n Hr Hn step. pose proof (reachable_wf r Hr) as Hwf. split.
  - intros H0. unfold vector_range_getslice. rewrite Hn.
    cbn [mbind pyresult_bind]. fold step. rewrite H0.
    destruct (decide (0 < 0)) as [|_]; [lia|]. unfold range3.
    by destruct (decide (0 = 0)).
  - intros Hpos.
    destruct (vector_range_iter_unsliced _ (wf_drop_window r Hwf) eq_refl)
      as (elems & Helems).
    destruct (vector_range_getslice_base r elems sl n Hwf Helems Hn Hpos)
      as (Hnl & Heq).
    assert (∃ xs, py_list_slice (take (Z.to_nat n) elems) sl = Ok xs
                  ∧ ∀ v, v ∈ xs → v ∈ take (Z.to_nat n) elems)
      as (xs & Hxs & Hsub).
    { unfold py_list_slice, py_slice_indices. fold step.
      destruct (decide (step = 0)) as [|Hstep]; [lia|].
      destruct (decide (step < 0)) as [|_]; [lia|].
      cbn [mbind pyresult_bind].
      rewrite length_take, Nat2Z.inj_min, Z2Nat.id by lia.
      replace (n `min` Z.of_nat (length elems)) with n by lia.
      match goal with
      | |- ∃ xs, mapM ?f (range_elements (PyRange ?a ?b _)) = _ ∧ _ =>
          assert (0 ≤ a ∧ b ≤ n) as Hab;
            [|set (start := a) in *; set (stop := b) in *]
      end.
      { split.
        - destruct (slice_start sl) as [s|]; [|lia].
          destruct (decide (s < 0)); lia.
        - destruct (slice_stop sl) as [s|]; [|lia].
          destruct (decide (s < 0)); lia. }
      destruct (mapM_Ok_total
                  (λ i, list_getitem (take (Z.to_nat n) elems) (Z.to_nat i))
                  (range_elements (PyRange start stop step))) as (xs & Hxs).
      { intros p (i & Hi & ->)%elem_of_range_elements.
        apply range_len_spec in Hi; [|done]. cbn in Hi.
        destruct (decide (0 < step)); [|lia].
        unfold list_getitem. cbn [range_start range_step].
        destruct (lookup_lt_is_Some_2 (take (Z.to_nat n) elems)
                    (Z.to_nat (start + i * step))) as [a ->]; [|eauto].
        rewrite length_take. nia. }
      exists xs. split; [done|]. intros v Hv.
      apply (mapM_Ok_elem_of _ _ _ v Hxs) in Hv as (p & _ & Hp).
      unfold list_getitem in Hp.
      destruct (take (Z.to_nat n) elems !! Z.to_nat p) as [a|] eqn:Ha;
        [|done].
      injection Hp as <-. by eapply list_elem_of_lookup_2. }
    rewrite Hxs in Heq. unfold vector_range_slice_list in Heq.
    apply bind_Ok in Heq as (r' & Hget & Hiter).
    destruct (vector_range_getslice_fields r r' sl Hwf Hget) as (w & Hr').
    pose proof (vector_range_iter_NoDup r' xs
                  (vector_range_getslice_wf r sl r' Hwf Hget) Hiter) as Hnd.
    exists elems, r', xs. split; [done|]. split; [done|].
    rewrite Hr' at 1 2 3 4. cbn [_start _stop _step _order].
    do 4 (split; [done|]). split; [done|]. split; [done|].
    split; [|split; [done|]].
    + pose proof (submseteq_length _ _ (NoDup_submseteq _ _ Hnd Hsub)) as Hle.
      rewrite length_take in Hle. lia.
    + intros v (i & Hi & _)%Hsub%elem_of_take.
      by eapply list_elem_of_lookup_2.
Qed.

Lemma vector_range_getslice_positive_witness :
  ∃ r1 r2,
    cube 2 "xyz" = Ok r1 ∧
    vector_range_getslice r1 (Slice (Some 1) None None) = Ok r2 ∧
    vector_range_getslice r2 (Slice None None (Some 0)) = Raise ValueError ∧
    vector_range_slice_list r2 (Slice (Some 1) None (Some 3))
    = Ok [mkVector 1 0 0; mkVector 0 0 1].
Proof.
  eexists _, _. split; [by vm_compute|]. split; [by vm_compute|].
  split; [|by vm_compute].
  assert (reachable
            (VectorRange (mkVector 0 0 0) (mkVector 2 2 2) default_step "xyz"
               [PyRange 0 2 1; PyRange 0 2 1; PyRange 0 2 1] [0; 1; 2]%nat
               (Some (PyRange 1 8 1)))) as Hr.
  { eapply (reachable_getslice _ (Slice (Some 1) None None));
      [by eapply (reachable_init (mkVector 2 2 2) None default_step "xyz")|].
    by vm_compute. }
  by apply (proj1 (vector_range_getslice_positive _
                     (Slice None None (Some 0)) 7 Hr eq_refl)).
Defined.

(** ** Unit-step slices of an unsliced range, as [take] and [drop] *)

Lemma py_list_slice_unit {A} (l : list A) (sa sb : option Z) (a b : nat) :
  py_slice_indices (Slice sa sb None) (Z.of_nat (length l))
  = Ok (Z.of_nat a, Z.of_nat b, 1) →
  (a ≤ b ≤ length l)%nat →
  py_list_slice l (Slice sa sb None) = Ok (take (b - a) (drop a l)).
Proof.
  intros Hidx Hab. unfold py_list_slice. rewrite Hidx.
  cbn [mbind pyresult_bind]. change (PyRange ?a ?b 1) with (range2 a b).
  replace b with (a + (b - a))%nat at 1 by lia.
  apply mapM_getitem_stretch. lia.
Qed.

(** On a range returned by the constructor, with elements [elems]:
    [r[a:b]] is [elems] without its first [a] and cut after [b - a]
    elements, [r[:b]] is the first [b] elements and [r[a:]] the rest after
    the first [a], so [r[:k]] followed by [r[k:]] is the whole range; a
    bound counted from the end gives the same slices. *)
Theorem vector_range_slice_take_drop :
  ∀ start stop step order r elems (a b : nat),
    vector_range_init start stop step order None = Ok r →
    vector_range_iter r = Ok elems →
    (a ≤ b ≤ length elems)%nat →
    let n := Z.of_nat (length elems) in
    vector_range_slice_list r (Slice (Some (Z.of_nat a)) (Some (Z.of_nat b)) None)
    = Ok (take (b - a) (drop a elems)) ∧
    vector_range_slice_list r (Slice None (Some (Z.of_nat b)) None)
    = Ok (take b elems) ∧
    vector_range_slice_list r (Slice (Some (Z.of_nat a)) None None)
    = Ok (drop a elems) ∧
    ((b < length elems)%nat →
     vector_range_slice_list r (Slice None (Some (Z.of_nat b - n)) None)
     = Ok (take b elems)) ∧
    ((a < length elems)%nat →
     vector_range_slice_list r (Slice (Some (Z.of_nat a - n)) None None)
     = Ok (drop a elems)).
Proof.
  intros start stop step order r elems a b (Hwf & Hs & _)%init_unsliced
    Hiter Hab n.
  rewrite !(vector_range_getslice_forward r elems) by done.
  split; [|split; [|split; [|split]]].
  - apply py_list_slice_unit; [|done].
    unfold py_slice_indices. cbn.
    destruct (decide (Z.of_nat a < 0)) as [|_]; [lia|].
    destruct (decide (Z.of_nat b < 0)) as [|_]; [lia|].
    destruct (decide (1 = 0)) as [|_]; [lia|].
    destruct (decide (1 < 0)) as [|_]; [lia|]. do 3 f_equal; lia.
  - rewrite <-(drop_0 elems) at 2. rewrite <-(Nat.sub_0_r b) at 2.
    apply py_list_slice_unit; [|lia].
    unfold py_slice_indices. cbn.
    destruct (decide (Z.of_nat b < 0)) as [|_]; [lia|].
    destruct (decide (1 = 0)) as [|_]; [lia|].
    destruct (decide (1 < 0)) as [|_]; [lia|]. do 3 f_equal; lia.
  - rewrite <-(take_ge (drop a elems) (length elems - a))
      by (rewrite length_drop; lia).
    apply py_list_slice_unit; [|lia].
    unfold py_slice_indices. cbn.
    destruct (decide (Z.of_nat a < 0)) as [|_]; [lia|].
    destruct (decide (1 = 0)) as [|_]; [lia|].
    destruct (decide (1 < 0)) as [|_]; [lia|]. do 3 f_equal; lia.
  - intros Hb. rewrite <-(drop_0 elems) at 2. rewrite <-(Nat.sub_0_r b) at 2.
    apply py_list_slice_unit; [|lia].
    unfold py_slice_indices. cbn.
    destruct (decide (Z.of_nat b - n < 0)) as [_|]; [|lia].
    destruct (decide (1 = 0)) as [|_]; [lia|].
    destruct (decide (1 < 0)) as [|_]; [lia|]. do 3 f_equal; lia.
  - intros Ha. rewrite <-(take_ge (drop a elems) (length elems - a))
      by (rewrite length_drop; lia).
    apply py_list_slice_unit; [|lia].
    unfold py_slice_indices. cbn.
    destruct (decide (Z.of_nat a - n < 0)) as [_|]; [|lia].
    destruct (decide (1 = 0)) as [|_]; [lia|].
    destruct (decide (1 < 0)) as [|_]; [lia|]. do 3 f_equal; lia.
Qed.

Lemma vector_range_slice_take_drop_witness :
  ∃ r elems,
    cube 2 "zxy" = Ok r ∧ vector_range_iter r = Ok elems ∧
    vector_range_slice_list r (Slice None (Some 3) None) = Ok (take 3 elems) ∧
    vector_range_slice_list r (Slice (Some (-5)) None None)
    = Ok (drop 3 elems).
Proof.
  eexists _, _. split; [by vm_compute|]. split; [by vm_compute|].
  destruct (vector_range_slice_take_drop (mkVector 2 2 2) None default_step
              "zxy" _ _ 3 3 eq_refl eq_refl ltac:(cbn; lia))
    as (_ & Htake & _ & _ & Hdrop).
  split; [exact Htake|]. apply Hdrop. cbn. lia.
Defined.

(** ** [rmod] on ranges with a step *)

(** [rmod] never looks at the step of an ascending range: for
    [range(lo, hi, st)] with [st > 0] it returns what it returns for
    [range(lo, hi)], that is every [n] in [lo, hi) with
    [n % denom == result], on the stride of the range or not; so it
    misses no member of the range but can return non-members.  On a
    descending range of two or more values it fails its assertion. *)
Theorem rmod_ignores_step :
  ∀ denom result lo hi st,
    0 < denom →
    (0 < st →
     rmod denom result (SeqRange (PyRange lo hi st))
     = rmod denom result (SeqRange (range2 lo hi)) ∧
     ∃ c, rmod denom result (SeqRange (PyRange lo hi st)) = Ok c ∧
          (∀ n, n ∈ coll_elements c ↔ lo ≤ n < hi ∧ n `mod` denom = result) ∧
          (∀ n, n ∈ range_elements (PyRange lo hi st) →
                n `mod` denom = result → n ∈ coll_elements c)) ∧
    (st < 0 → 0 ≤ result < denom → 1 < range_len (PyRange lo hi st) →
     rmod denom result (SeqRange (PyRange lo hi st)) = Raise AssertionError).
Proof.
  intros denom result lo hi st Hd. split.
  - intros Hst.
    assert (rmod denom result (SeqRange (PyRange lo hi st))
            = rmod denom result (SeqRange (range2 lo hi))) as Heq.
    { destruct (decide (0 ≤ result < denom)) as [Hres|Hres]; cycle 1.
      { unfold rmod. destruct (decide (denom ≤ 0)) as [|_]; [lia|].
        by destruct (decide (¬ 0 ≤ result < denom)). }
      pose proof (range_len_pos (PyRange lo hi st) ltac:(cbn; lia)) as H1.
      pose proof (range_len_pos (range2 lo hi) ltac:(done)) as H2.
      pose proof (range_len_nonneg (PyRange lo hi st) ltac:(cbn; lia)) as H3.
      pose proof (range_len_nonneg (range2 lo hi) ltac:(done)) as H4.
      cbn [range_start range_stop range_step range2] in H1, H2.
      destruct (decide (0 < st)) as [_|]; [|lia].
      destruct (decide (0 < 1)) as [_|]; [|lia].
      destruct (decide (lo < hi)) as [Hlt|Hge].
      - rewrite !rmod_nonempty by (done || (cbn; lia) || lia).
        cbn [range_start range_stop range_step range2].
        destruct (decide (0 < st ∨ _)) as [_|Hn]; [|destruct Hn; lia].
        by destruct (decide (0 < 1 ∨ _)) as [_|Hn]; [|destruct Hn; lia].
      - unfold rmod. destruct (decide (denom ≤ 0)) as [|_]; [lia|].
        destruct (decide (¬ 0 ≤ result < denom)) as [|_]; [done|].
        cbn [seq_len].
        destruct (decide (range_len (PyRange lo hi st) = 0)) as [_|]; [|lia].
        by destruct (decide (range_len (range2 lo hi) = 0)) as [_|]; [|lia]. }
    split; [done|]. rewrite Heq.
    destruct (rmod_unit_step denom result lo hi Hd) as (c & Hc & Hel).
    exists c. split; [done|]. split; [done|].
    intros n (i & Hi & ->)%elem_of_range_elements Hm. apply Hel.
    split; [|done]. apply range_len_spec in Hi; [|cbn; lia]. cbn in *.
    destruct (decide (0 < st)); [|lia]. nia.
  - intros Hst Hres Hlen.
    rewrite rmod_nonempty by (done || (cbn; lia) || lia).
    cbn [range_step].
    by destruct (decide (0 < st ∨ _)) as [[|]|_]; [lia|lia|].
Qed.

Lemma rmod_ignores_step_witness :
  rmod 3 1 (SeqRange (PyRange 0 10 2)) = rmod 3 1 (SeqRange (range2 0 10)) ∧
  rmod 3 1 (SeqRange (PyRange 10 0 (-2))) = Raise AssertionError.
Proof.
  destruct (rmod_ignores_step 3 1 0 10 2 ltac:(lia)) as [Hasc _].
  destruct (rmod_ignores_step 3 1 10 0 (-2) ltac:(lia)) as [_ Hdesc].
  split.
  - apply Hasc. lia.
  - apply Hdesc; [lia|lia|by vm_compute].
Defined.
